(** * Work Hour & Income Tracker: the entry ledger of [src/App.tsx]

    A shallow embedding of the React component [App] and of the parts of
    the JavaScript runtime it calls, followed by the properties of the
    ledger (append, remove, list, aggregate, persist and reload). *)

From Stdlib Require Import ZArith NArith Ascii String Floats.SpecFloat.
From stdpp Require Import gmap strings list pretty.

Set Warnings "-register-all".
Local Open Scope Z_scope.

(** ** JavaScript numbers

    A JavaScript [number] is an IEEE 754 binary64 value.  It is modelled by
    [spec_float] at precision 53 and maximal exponent 1024, with the
    operations of the Standard Library's specification of floating-point
    arithmetic (round to nearest, ties to even). *)

Module Number.

Definition prec : Z := 53.
Definition emax : Z := 1024.

Definition number : Type := spec_float.

Definition NaN : number := S754_nan.
Definition zero : number := S754_zero false.

(** [Number.isFinite]. *)
Definition isFinite (x : number) : bool :=
  match x with S754_zero _ | S754_finite _ _ _ => true | _ => false end.

(** The values of a binary64: the mantissa and the exponent of a finite
    number are canonical and in range. *)
Definition valid (x : number) : bool := valid_binary prec emax x.

(** [x + y] and [x * y] of JavaScript. *)
Definition add (x y : number) : number := SFadd prec emax x y.
Definition mul (x y : number) : number := SFmul prec emax x y.

(** [x === y] on numbers: [NaN] differs from itself and [-0] equals [0]. *)
Definition strict_eq (x y : number) : bool := SFeqb x y.

(** The sum of the numbers of a list, added from left to right from [0]
    in the arithmetic of JavaScript. *)
Definition sum (l : list number) : number := fold_left add l zero.

(** The number nearest to the rational [(-1)^neg * num / den]
    ([0 < den]), ties to even. *)
Definition of_ratio (neg : bool) (num den : Z) : number :=
  match num with
  | Z0 => S754_zero neg
  | Zpos _ =>
      let '(q, e, l) := SFdiv_core_binary prec emax num 0 den 0 in
      binary_round_aux prec emax neg q e l
  | Zneg _ => NaN
  end.

(** The number nearest to [(-1)^neg * m * 10^e]: the value of a decimal
    literal with digits [m] and exponent [e]. *)
Definition of_decimal (neg : bool) (m : N) (e : Z) : number :=
  if 0 <=? e then of_ratio neg (Z.of_N m * 10 ^ e) 1
  else of_ratio neg (Z.of_N m) (10 ^ (- e)).

(** The number of an integer. *)
Definition of_Z (z : Z) : number :=
  of_decimal (z <? 0) (Z.abs_N z) 0.

End Number.

Abbreviation number := Number.number.

(** ** Strings

    A JavaScript string is modelled by a [string] of bytes, the UTF-8
    encoding of its text. *)

Definition digit_of (c : ascii) : option N :=
  let n := N_of_ascii c in
  if ((48 <=? n) && (n <=? 57))%N then Some (n - 48)%N else None.

(** The longest run of decimal digits at the head of [s]: the number they
    add to [acc], how many were read, and the rest of the string. *)
Fixpoint DecimalDigits (s : string) (acc : N) (k : nat) : N * nat * string :=
  match s with
  | String c r =>
      match digit_of c with
      | Some d => DecimalDigits r (10 * acc + d)%N (S k)
      | None => (acc, k, s)
      end
  | EmptyString => (acc, k, s)
  end.

(** [StrWhiteSpaceChar] of ECMAScript at the head of [s], in UTF-8: the
    rest of the string after it, if there is one. *)
Definition StrWhiteSpaceChar (s : string) : option string :=
  match s with
  | String c r =>
      match N_of_ascii c with
      | 9 | 10 | 11 | 12 | 13 | 32 => Some r
      | 194 =>
          match r with
          | String c1 r1 => if (N_of_ascii c1 =? 160)%N then Some r1 else None
          | _ => None
          end
      | 225 =>
          match r with
          | String c1 (String c2 r2) =>
              if ((N_of_ascii c1 =? 154) && (N_of_ascii c2 =? 128))%N
              then Some r2 else None
          | _ => None
          end
      | 226 =>
          match r with
          | String c1 (String c2 r2) =>
              let n1 := N_of_ascii c1 in
              let n2 := N_of_ascii c2 in
              if ((n1 =? 128)
                  && ((128 <=? n2) && (n2 <=? 138)
                      || (n2 =? 168) || (n2 =? 169) || (n2 =? 175))
                  || (n1 =? 129) && (n2 =? 159))%N
              then Some r2 else None
          | _ => None
          end
      | 227 =>
          match r with
          | String c1 (String c2 r2) =>
              if ((N_of_ascii c1 =? 128) && (N_of_ascii c2 =? 128))%N
              then Some r2 else None
          | _ => None
          end
      | 239 =>
          match r with
          | String c1 (String c2 r2) =>
              if ((N_of_ascii c1 =? 187) && (N_of_ascii c2 =? 191))%N
              then Some r2 else None
          | _ => None
          end
      | _ => None
      end%N
  | EmptyString => None
  end.

(** [TrimString(s, start)]; the fuel is the length of the string. *)
Fixpoint trimStart_fuel (fuel : nat) (s : string) : string :=
  match fuel with
  | O => s
  | S fuel' =>
      match StrWhiteSpaceChar s with
      | Some r => trimStart_fuel fuel' r
      | None => s
      end
  end.

Definition trimStart (s : string) : string :=
  trimStart_fuel (String.length s) s.

(** An optional sign at the head of [s]: whether it is a minus, and the
    rest of the string. *)
Definition Sign (s : string) : bool * string :=
  match s with
  | String "-" r => (true, r)
  | String "+" r => (false, r)
  | _ => (false, s)
  end.

(** [SignedInteger] at the head of [s]: an optional sign and at least one
    digit; its value and the rest of the string. *)
Definition SignedInteger (s : string) : option (Z * string) :=
  let '(neg, r) := Sign s in
  match DecimalDigits r 0 0 with
  | (_, O, _) => None
  | (v, _, rest) => Some ((if neg then - Z.of_N v else Z.of_N v), rest)
  end.

(** [ExponentIndicator]: [e] or [E]. *)
Definition ExponentIndicator (c : ascii) : bool :=
  ((N_of_ascii c =? 101) || (N_of_ascii c =? 69))%N.

(** The digits after a point at the head of [s], added to the integer part
    [ip], and their number; none when there is no point. *)
Definition Fraction (ip : N) (s : string) : N * nat * string :=
  match s with
  | String "." r => DecimalDigits r ip 0
  | _ => (ip, O, s)
  end.

(** The value of the [ExponentPart] at the head of [s], and [0] when there
    is none. *)
Definition ExponentPart (s : string) : Z :=
  match s with
  | String c r =>
      if ExponentIndicator c then
        match SignedInteger r with
        | Some (ex, _) => ex
        | None => 0
        end
      else 0
  | EmptyString => 0
  end.

(** [parseFloat(input)]: the number of the longest prefix of the trimmed
    input that is a [StrDecimalLiteral], and [NaN] when there is none. *)
Definition parseFloat (input : string) : number :=
  let '(neg, s) := Sign (trimStart input) in
  if String.prefix "Infinity" s then S754_infinity neg else
  let '(ip, ni, s1) := DecimalDigits s 0 0 in
  let '(m, nf, s2) := Fraction ip s1 in
  match ni, nf with
  | O, O => Number.NaN
  | _, _ => Number.of_decimal neg m (ExponentPart s2 - Z.of_nat nf)
  end.

(** ** JavaScript values and JSON

    The values that [JSON.parse] returns and [JSON.stringify] prints.  An
    object is the list of its properties in their order. *)

Inductive value : Type :=
  | Null
  | Bool (b : bool)
  | Num (x : number)
  | Str (s : string)
  | Arr (l : list value)
  | Obj (m : list (string * value)).

Inductive error : Type :=
  | SyntaxError.

(** The ways a call completes: it returns, it throws, or it returns a
    value [v] that does not have the TypeScript type the component gives
    it, on which the component is not modelled. *)
Inductive outcome (A : Type) : Type :=
  | Returns (a : A)
  | Throws (e : error)
  | Untyped (v : value).
Arguments Returns {A} a.
Arguments Throws {A} e.
Arguments Untyped {A} v.

(** The numbers of a value are binary64 values. *)
Fixpoint value_valid (v : value) : bool :=
  match v with
  | Num x => Number.valid x
  | Arr l => forallb value_valid l
  | Obj m =>
      forallb (fun kv : string * value => let '(_, v) := kv in value_valid v) m
  | _ => true
  end.

#[global] Instance number_eq_dec : EqDecision number.
Proof. solve_decision. Defined.

(** *** Printing numbers: [Number::toString] *)

Definition digit_char (d : N) : ascii := ascii_of_N (48 + d).

Fixpoint string_of_digits (ds : list N) : string :=
  match ds with
  | [] => EmptyString
  | d :: r => String (digit_char d) (string_of_digits r)
  end.

Fixpoint digits_fuel (fuel : nat) (n : N) (acc : list N) : list N :=
  match fuel with
  | O => acc
  | S f =>
      if (n =? 0)%N then acc
      else digits_fuel f (n / 10)%N ((n mod 10)%N :: acc)
  end.

(** The decimal digits of [n], most significant first; none for [0]. *)
Definition digits (n : N) : list N :=
  digits_fuel (S (N.to_nat (N.log2 n))) n [].

Definition digits_value (ds : list N) : N :=
  fold_left (fun acc d => (10 * acc + d)%N) ds 0%N.

(** [10^n <= M / D], for [0 < D]. *)
Definition ge_pow10 (M D n : Z) : bool :=
  if 0 <=? n then D * 10 ^ n <=? M else D <=? M * 10 ^ (- n).

Fixpoint scale_up (fuel : nat) (M D n : Z) : Z :=
  match fuel with
  | O => n
  | S f => if ge_pow10 M D n then scale_up f M D (n + 1) else n
  end.

Fixpoint scale_down (fuel : nat) (M D n : Z) : Z :=
  match fuel with
  | O => n
  | S f => if ge_pow10 M D (n - 1) then n else scale_down f M D (n - 1)
  end.

(** The [n] with [10^(n-1) <= M / D < 10^n]. *)
Definition magnitude (M D : Z) : Z :=
  if ge_pow10 M D 0 then scale_up 400 M D 1 else scale_down 400 M D 0.

(** Whether the [k] digits [s] with the exponent [n] are a decimal of
    [x]: [10^(k-1) <= s < 10^k] and [s * 10^(n-k)] reads as [x]. *)
Definition decimal_of (x : number) (k : Z) (c : Z * Z) : bool :=
  let '(s, n) := c in
  (10 ^ (k - 1) <=? s) && (s <? 10 ^ k)
  && bool_decide (Number.of_decimal false (Z.to_N s) (n - k) = x).

(** The [k]-digit decimals [s * 10^(n-k)] next to [x = M / D] on either
    side, [10^n] being [10^(k-1) * 10^(n+1-k)]; the one that is a decimal
    of [x], the nearer of the two when both are, the even one when they are
    as near. *)
Definition candidate (x : number) (M D n k : Z) : option (Z * Z) :=
  let '(num, den) :=
    if n <=? k then (M * 10 ^ (k - n), D) else (M, D * 10 ^ (n - k)) in
  let lo := (num / den, n) in
  let r := num mod den in
  let hi :=
    if num / den + 1 =? 10 ^ k then (10 ^ (k - 1), n + 1)
    else (num / den + 1, n) in
  if r =? 0 then (if decimal_of x k lo then Some lo else None)
  else
    match decimal_of x k lo, decimal_of x k hi with
    | true, true =>
        match 2 * r ?= den with
        | Lt => Some lo
        | Gt => Some hi
        | Eq => if Z.even (num / den) then Some lo else Some hi
        end
    | true, false => Some lo
    | false, true => Some hi
    | false, false => None
    end.

Fixpoint shortest_from (fuel : nat) (x : number) (M D n k : Z)
  : option (Z * Z) :=
  match fuel with
  | O => None
  | S f =>
      match candidate x M D n k with
      | Some c => Some c
      | None => shortest_from f x M D n (k + 1)
      end
  end.

(** The decimal that is the positive finite [m * 2^e] exactly: the digits
    of [m * 2^e] when it is an integer, and of [m * 5^(-e)], with the
    exponent of [10^e], when it is not. *)
Definition exact_decimal (m : positive) (e : Z) : list N * Z :=
  let '(s, e10) :=
    if 0 <=? e then (Zpos m * 2 ^ e, 0) else (Zpos m * 5 ^ (- e), e) in
  let ds := digits (Z.to_N s) in
  (ds, Z.of_nat (length ds) + e10).

(** The digits [s] and the exponent [n] of [Number::toString]: the least
    number [k] of digits for which [s * 10^(n-k)] reads back as the
    positive finite [m * 2^e].  17 digits are enough for a binary64, so
    that the search ends; the exact decimal after it keeps the function
    total. *)
Definition shortest_decimal (m : positive) (e : Z) : list N * Z :=
  let '(M, D) :=
    if 0 <=? e then (Zpos m * 2 ^ e, 1) else (Zpos m, 2 ^ (- e)) in
  match shortest_from 17 (S754_finite false m e) M D (magnitude M D) 1 with
  | Some (s, n) => (digits (Z.to_N s), n)
  | None => exact_decimal m e
  end.

Definition zeros (n : Z) : string := string_of_digits (replicate (Z.to_nat n) 0%N).

(** The text of [s * 10^(n-k)] for the [k] digits [ds] of [s]. *)
Definition format_decimal (ds : list N) (n : Z) : string :=
  let k := Z.of_nat (length ds) in
  if (k <=? n) && (n <=? 21) then
    string_of_digits ds +:+ zeros (n - k)
  else if (0 <? n) && (n <=? 21) then
    string_of_digits (take (Z.to_nat n) ds) +:+ "."
      +:+ string_of_digits (drop (Z.to_nat n) ds)
  else if (-6 <? n) && (n <=? 0) then
    "0." +:+ zeros (- n) +:+ string_of_digits ds
  else
    let ex := (if n - 1 <? 0 then "e-" else "e+")
                +:+ string_of_digits (digits (Z.abs_N (n - 1))) in
    match ds with
    | [d] => string_of_digits [d] +:+ ex
    | d :: r => string_of_digits [d] +:+ "." +:+ string_of_digits r +:+ ex
    | [] => ex
    end.

(** [Number::toString(x)], radix 10. *)
Definition Number_toString (x : number) : string :=
  match x with
  | S754_nan => "NaN"
  | S754_zero _ => "0"
  | S754_infinity s => if s then "-Infinity" else "Infinity"
  | S754_finite s m e =>
      let '(ds, n) := shortest_decimal m e in
      (if s then "-" else "") +:+ format_decimal ds n
  end.

(** The numbers that [JSON.stringify] prints as numbers: the finite
    binary64 values. *)
Definition storable (x : number) : bool :=
  Number.isFinite x && Number.valid x.

(** What the text of a finite number reads as: the number, and [0] for
    [-0], which is printed without its sign. *)
Definition stored (x : number) : number :=
  match x with
  | S754_zero _ => S754_zero false
  | _ => x
  end.

(** *** Printing with a fixed number of decimals: [toFixed]

    [Number.prototype.toFixed(fractionDigits)] throws a [RangeError] when
    [fractionDigits] is not in 0..100, prints what is not finite and what
    is [10^21] or more as [Number::toString] does, and otherwise prints
    the integer [n] nearest to [x * 10^f], the larger one of two as near,
    with a point before its last [f] digits. *)

(** The digits of [n] with the point before the last [f] of them, [n]
    being padded with zeros on the left to [f + 1] digits. *)
Definition toFixed_digits (n f : Z) : string :=
  let m := if n =? 0 then [0%N] else digits (Z.to_N n) in
  if f =? 0 then string_of_digits m
  else
    let k := Z.of_nat (length m) in
    let m' := if k <=? f then replicate (Z.to_nat (f + 1 - k)) 0%N ++ m else m in
    let k' := if k <=? f then f + 1 else k in
    string_of_digits (take (Z.to_nat (k' - f)) m') +:+ "."
      +:+ string_of_digits (drop (Z.to_nat (k' - f)) m').

(** The integer nearest to [M / D * 10^f], the larger one of two. *)
Definition toFixed_nearest (M D f : Z) : Z :=
  (2 * M * 10 ^ f + D) / (2 * D).

(** [x.toFixed(fractionDigits)]; [None] is the [RangeError]. *)
Definition toFixed (x : number) (fractionDigits : Z) : option string :=
  let f := fractionDigits in
  if (f <? 0) || (100 <? f) then None
  else
    match x with
    | S754_nan | S754_infinity _ => Some (Number_toString x)
    | S754_zero _ => Some (toFixed_digits 0 f)
    | S754_finite s m e =>
        let '(M, D) :=
          if 0 <=? e then (Zpos m * 2 ^ e, 1) else (Zpos m, 2 ^ (- e)) in
        let sign := if s then "-" else "" in
        if ge_pow10 M D 21 then
          Some (sign +:+ Number_toString (S754_finite false m e))
        else Some (sign +:+ toFixed_digits (toFixed_nearest M D f) f)
    end.

(** *** Printing: [JSON.stringify] *)

Definition hex_char (d : N) : ascii :=
  if (d <? 10)%N then ascii_of_N (48 + d) else ascii_of_N (87 + d).

(** [QuoteJSONString] without the enclosing quotes: the two-character
    escapes, [\u00xx] for the other control characters, and every other
    byte as it is. *)
Fixpoint QuoteJSONString_chars (s : string) : string :=
  match s with
  | EmptyString => EmptyString
  | String c r =>
      let n := N_of_ascii c in
      let rest := QuoteJSONString_chars r in
      match n with
      | 8 => String "\" (String "b" rest)
      | 9 => String "\" (String "t" rest)
      | 10 => String "\" (String "n" rest)
      | 12 => String "\" (String "f" rest)
      | 13 => String "\" (String "r" rest)
      | 34 => String "\" (String "034" rest)
      | 92 => String "\" (String "\" rest)
      | _ =>
          if (n <? 32)%N then
            String "\" (String "u" (String "0" (String "0"
              (String (hex_char (n / 16)%N) (String (hex_char (n mod 16)%N) rest)))))
          else String c rest
      end%N
  end.

Definition QuoteJSONString (s : string) : string :=
  String "034" (QuoteJSONString_chars s +:+ String "034" EmptyString).

(** [SerializeJSONProperty] with no replacer and no indentation: a number
    that is not finite is printed as [null]; the elements of an array and
    the properties of an object are joined with commas. *)
Fixpoint SerializeJSONProperty (v : value) : string :=
  match v with
  | Null => "null"
  | Bool b => if b then "true" else "false"
  | Num x => if Number.isFinite x then Number_toString x else "null"
  | Str s => QuoteJSONString s
  | Arr l => "[" +:+ String.concat "," (map SerializeJSONProperty l) +:+ "]"
  | Obj m =>
      "{" +:+
      String.concat ","
        (map (fun kv : string * value =>
                let '(k, v) := kv in
                QuoteJSONString k +:+ ":" +:+ SerializeJSONProperty v) m)
      +:+ "}"
  end.

Definition JSON_stringify (v : value) : string := SerializeJSONProperty v.

(** *** Reading: [JSON.parse] *)

(** JSON white space: tab, line feed, carriage return and space. *)
Fixpoint JSONWhiteSpace (s : string) : string :=
  match s with
  | String c r =>
      match N_of_ascii c with
      | 9 | 10 | 13 | 32 => JSONWhiteSpace r
      | _ => s
      end%N
  | EmptyString => s
  end.

Definition hex_of (c : ascii) : option N :=
  let n := N_of_ascii c in
  if ((48 <=? n) && (n <=? 57))%N then Some (n - 48)%N
  else if ((97 <=? n) && (n <=? 102))%N then Some (n - 87)%N
  else if ((65 <=? n) && (n <=? 70))%N then Some (n - 55)%N
  else None.

(** What a JSON string holds: a byte of the text, or the UTF-16 code unit
    of a [\uXXXX] escape. *)
Inductive JSONStringChar : Type :=
  | Byte (c : ascii)
  | CodeUnit (u : N).

(** The characters of a JSON string up to its closing quote, and the rest
    of the text. *)
Fixpoint JSONStringCharacters (s : string)
  : option (list JSONStringChar * string) :=
  match s with
  | EmptyString => None
  | String c r =>
      match N_of_ascii c with
      | 34 => Some ([], r)
      | 92 =>
          match r with
          | String e r1 =>
              let simple (b : N) :=
                match JSONStringCharacters r1 with
                | Some (l, rest) => Some (Byte (ascii_of_N b) :: l, rest)
                | None => None
                end in
              match N_of_ascii e with
              | 34 => simple 34
              | 92 => simple 92
              | 47 => simple 47
              | 98 => simple 8
              | 102 => simple 12
              | 110 => simple 10
              | 114 => simple 13
              | 116 => simple 9
              | 117 =>
                  match r1 with
                  | String h1 (String h2 (String h3 (String h4 r2))) =>
                      match hex_of h1, hex_of h2, hex_of h3, hex_of h4 with
                      | Some a, Some b, Some c, Some d =>
                          match JSONStringCharacters r2 with
                          | Some (l, rest) =>
                              Some (CodeUnit (((a * 16 + b) * 16 + c) * 16 + d) :: l,
                                    rest)
                          | None => None
                          end
                      | _, _, _, _ => None
                      end
                  | _ => None
                  end
              | _ => None
              end%N
          | EmptyString => None
          end
      | n =>
          if (n <? 32)%N then None
          else
            match JSONStringCharacters r with
            | Some (l, rest) => Some (Byte c :: l, rest)
            | None => None
            end
      end%N
  end.

(** The UTF-8 bytes of a code point. *)
Definition utf8 (cp : N) : string :=
  let b (n : N) := ascii_of_N n in
  (if cp <? 128 then String (b cp) EmptyString
   else if cp <? 2048 then
     String (b (192 + cp / 64)) (String (b (128 + cp mod 64)) EmptyString)
   else if cp <? 65536 then
     String (b (224 + cp / 4096))
       (String (b (128 + (cp / 64) mod 64))
          (String (b (128 + cp mod 64)) EmptyString))
   else
     String (b (240 + cp / 262144))
       (String (b (128 + (cp / 4096) mod 64))
          (String (b (128 + (cp / 64) mod 64))
             (String (b (128 + cp mod 64)) EmptyString))))%N.

(** The string of the characters: a surrogate pair of escapes is one code
    point. *)
Fixpoint JSONStringValue (l : list JSONStringChar) : string :=
  match l with
  | [] => EmptyString
  | Byte c :: r => String c (JSONStringValue r)
  | CodeUnit hi :: r =>
      match r with
      | CodeUnit lo :: r' =>
          if ((55296 <=? hi) && (hi <? 56320) && (56320 <=? lo) && (lo <? 57344))%N
          then utf8 (65536 + (hi - 55296) * 1024 + (lo - 56320))
                 +:+ JSONStringValue r'
          else utf8 hi +:+ JSONStringValue r
      | _ => utf8 hi +:+ JSONStringValue r
      end
  end.

Definition JSONString (s : string) : option (string * string) :=
  match JSONStringCharacters s with
  | Some (l, rest) => Some (JSONStringValue l, rest)
  | None => None
  end.

(** A JSON number at the head of [s]: an optional minus sign; the integer
    part, a single zero or digits that do not start with a zero; an
    optional fraction, a point and at least one digit; an optional exponent,
    [e] or [E], an optional sign and at least one digit. *)
(** The integer part: a single zero, or digits. *)
Definition JSONInt (s : string) : option (N * string) :=
  match s with
  | String "0" r => Some (0%N, r)
  | _ =>
      match DecimalDigits s 0 0 with
      | (_, O, _) => None
      | (v, _, r) => Some (v, r)
      end
  end.

(** The fraction after the integer part [ip], when there is a point: the
    digits of both and the number of those of the fraction. *)
Definition JSONFrac (ip : N) (s : string) : option (N * nat * string) :=
  match s with
  | String "." r =>
      match DecimalDigits r ip 0 with
      | (_, O, _) => None
      | (m, nf, r') => Some (m, nf, r')
      end
  | _ => Some (ip, O, s)
  end.

(** The exponent, when there is an [e] or an [E]. *)
Definition JSONExp (s : string) : option (Z * string) :=
  match s with
  | String c r => if ExponentIndicator c then SignedInteger r else Some (0, s)
  | EmptyString => Some (0, s)
  end.

Definition JSONNumber_unsigned (neg : bool) (s : string)
  : option (number * string) :=
  match JSONInt s with
  | None => None
  | Some (ip, s1) =>
      match JSONFrac ip s1 with
      | None => None
      | Some (m, nf, s2) =>
          match JSONExp s2 with
          | None => None
          | Some (ex, s3) => Some (Number.of_decimal neg m (ex - Z.of_nat nf), s3)
          end
      end
  end.

Definition JSONNumber (s : string) : option (number * string) :=
  match s with
  | String "-" r => JSONNumber_unsigned true r
  | _ => JSONNumber_unsigned false s
  end.

(** [CreateDataProperty]: a key that is there already keeps its place and
    takes the new value. *)
Fixpoint CreateDataProperty (m : list (string * value)) (k : string) (v : value)
  : list (string * value) :=
  match m with
  | [] => [(k, v)]
  | (k', v') :: r =>
      if String.eqb k' k then (k, v) :: r
      else (k', v') :: CreateDataProperty r k v
  end.

(** A JSON value at the head of [s], after white space, and the rest of
    the text; [None] where the text is not JSON. *)
Fixpoint JSONValue (fuel : nat) (s : string) : option (value * string) :=
  match fuel with
  | O => None
  | S f =>
      match JSONWhiteSpace s with
      | String "n" (String "u" (String "l" (String "l" r))) => Some (Null, r)
      | String "t" (String "r" (String "u" (String "e" r))) => Some (Bool true, r)
      | String "f" (String "a" (String "l" (String "s" (String "e" r)))) =>
          Some (Bool false, r)
      | String "034" r =>
          match JSONString r with
          | Some (str, rest) => Some (Str str, rest)
          | None => None
          end
      | String "[" r =>
          match JSONWhiteSpace r with
          | String "]" rest => Some (Arr [], rest)
          | _ =>
              match JSONElements f r with
              | Some (l, rest) => Some (Arr l, rest)
              | None => None
              end
          end
      | String "{" r =>
          match JSONWhiteSpace r with
          | String "}" rest => Some (Obj [], rest)
          | _ =>
              match JSONMembers f r [] with
              | Some (m, rest) => Some (Obj m, rest)
              | None => None
              end
          end
      | t => 
          match JSONNumber t with
          | Some (x, rest) => Some (Num x, rest)
          | None => None
          end
      end
  end
with JSONElements (fuel : nat) (s : string) : option (list value * string) :=
  match fuel with
  | O => None
  | S f =>
      match JSONValue f s with
      | Some (v, r) =>
          match JSONWhiteSpace r with
          | String "," r' =>
              match JSONElements f r' with
              | Some (l, rest) => Some (v :: l, rest)
              | None => None
              end
          | String "]" rest => Some ([v], rest)
          | _ => None
          end
      | None => None
      end
  end
with JSONMembers (fuel : nat) (s : string) (acc : list (string * value))
  : option (list (string * value) * string) :=
  match fuel with
  | O => None
  | S f =>
      match JSONWhiteSpace s with
      | String "034" r =>
          match JSONString r with
          | Some (k, r1) =>
              match JSONWhiteSpace r1 with
              | String ":" r2 =>
                  match JSONValue f r2 with
                  | Some (v, r3) =>
                      let acc' := CreateDataProperty acc k v in
                      match JSONWhiteSpace r3 with
                      | String "," r4 => JSONMembers f r4 acc'
                      | String "}" rest => Some (acc', rest)
                      | _ => None
                      end
                  | None => None
                  end
              | _ => None
              end
          | None => None
          end
      | _ => None
      end
  end.

(** [JSON.parse(text)]: the value of the whole text, or a [SyntaxError]. *)
Definition JSON_parse (text : string) : outcome value :=
  match JSONValue (2 * String.length text + 2) text with
  | Some (v, rest) =>
      match JSONWhiteSpace rest with
      | EmptyString => Returns v
      | _ => Throws SyntaxError
      end
  | None => Throws SyntaxError
  end.

(** ** Dates

    [Date.now()] is the time in milliseconds since the epoch, a whole
    number, and its [toString()] the decimal numeral of that integer. *)

Definition pad (width : nat) (n : Z) : string :=
  let ds := digits (Z.to_N n) in
  string_of_digits (replicate (width - length ds) 0%N ++ ds).

(** [new Date(t).toISOString().split('T')[0]]: the UTC calendar day of the
    time value [t], as [YYYY-MM-DD], with a sign and six digits for a year
    outside 0..9999. *)
Definition toISOString_date (t : Z) : string :=
  let day := t / 86400000 in
  let z := day + 719468 in
  let era := z / 146097 in
  let doe := z - era * 146097 in
  let yoe := (doe - doe / 1460 + doe / 36524 - doe / 146096) / 365 in
  let doy := doe - (365 * yoe + yoe / 4 - yoe / 100) in
  let mp := (5 * doy + 2) / 153 in
  let d := doy - (153 * mp + 2) / 5 + 1 in
  let m := if mp <? 10 then mp + 3 else mp - 9 in
  let y := yoe + era * 400 + (if m <=? 2 then 1 else 0) in
  let year :=
    if (0 <=? y) && (y <=? 9999) then pad 4 y
    else (if y <? 0 then "-" else "+") +:+ pad 6 (Z.abs y) in
  year +:+ "-" +:+ pad 2 m +:+ "-" +:+ pad 2 d.

(** ** The component [App] *)

(** [interface TimeEntry]. *)
Module TimeEntry.

Record t : Type := mk {
  id : string;
  date : string;
  companyName : string;
  hours : number;
  hourlyWage : number;
  totalIncome : number
}.

(** The object of an entry, with its properties in the order of the
    object literal of [handleSubmit]. *)
Definition to_value (e : t) : value :=
  Obj [("id", Str (id e)); ("date", Str (date e));
       ("companyName", Str (companyName e)); ("hours", Num (hours e));
       ("hourlyWage", Num (hourlyWage e));
       ("totalIncome", Num (totalIncome e))].

(** The entry of a value that has the type [TimeEntry], with the
    properties in that order. *)
Definition of_value (v : value) : option t :=
  match v with
  | Obj [(k1, Str i); (k2, Str d); (k3, Str c);
         (k4, Num h); (k5, Num w); (k6, Num ti)] =>
      if String.eqb k1 "id" && String.eqb k2 "date"
         && String.eqb k3 "companyName" && String.eqb k4 "hours"
         && String.eqb k5 "hourlyWage" && String.eqb k6 "totalIncome"
      then Some (mk i d c h w ti) else None
  | _ => None
  end.

(** The numbers of an entry are binary64 values. *)
Definition valid (e : t) : bool :=
  Number.valid (hours e) && Number.valid (hourlyWage e)
  && Number.valid (totalIncome e).

(** The numbers of an entry are finite. *)
Definition finite (e : t) : bool :=
  Number.isFinite (hours e) && Number.isFinite (hourlyWage e)
  && Number.isFinite (totalIncome e).

(** The entries whose numbers [JSON.stringify] prints as numbers: the
    hours, the hourly wage and the income are finite. *)
Definition storable (e : t) : bool :=
  storable (hours e) && storable (hourlyWage e) && storable (totalIncome e).

(** What the text of an entry reads as. *)
Definition stored (e : t) : t :=
  mk (id e) (date e) (companyName e)
     (stored (hours e)) (stored (hourlyWage e)) (stored (totalIncome e)).

(** Equality of the fields in JavaScript: [===] on each. *)
Definition strict_eq (e1 e2 : t) : bool :=
  String.eqb (id e1) (id e2) && String.eqb (date e1) (date e2)
  && String.eqb (companyName e1) (companyName e2)
  && Number.strict_eq (hours e1) (hours e2)
  && Number.strict_eq (hourlyWage e1) (hourlyWage e2)
  && Number.strict_eq (totalIncome e1) (totalIncome e2).

End TimeEntry.

Definition values_of_entries (es : list TimeEntry.t) : value :=
  Arr (map TimeEntry.to_value es).

(** The entries of a value of type [TimeEntry[]]. *)
Definition entries_of_value (v : value) : option (list TimeEntry.t) :=
  match v with
  | Arr l => mapM TimeEntry.of_value l
  | _ => None
  end.

Inductive View : Type := list_view | graph_view | calendar_view.

(** [localStorage]: the strings stored under each key. *)
Abbreviation Storage := (gmap string string).

Definition getItem (ls : Storage) (key : string) : option string := ls !! key.
Definition setItem (ls : Storage) (key data : string) : Storage :=
  <[key := data]> ls.

Module App.

(** The state of the hooks of [App]. *)
Record state : Type := mk {
  entries : list TimeEntry.t;
  companyName : string;
  hours : string;
  hourlyWage : string;
  activeView : View
}.

(** The initializer of [useState<TimeEntry[]>]:
    [saved ? JSON.parse(saved) : []], where [saved] is [null] or a
    string, and the empty string is falsy. *)
Definition initialEntries (ls : Storage) : outcome value :=
  match getItem ls "timeEntries" with
  | Some saved =>
      if bool_decide (saved = "") then Returns (Arr []) else JSON_parse saved
  | None => Returns (Arr [])
  end.

(** The first render: the state of the hooks. *)
Definition init (ls : Storage) : outcome state :=
  match initialEntries ls with
  | Returns v =>
      match entries_of_value v with
      | Some es => Returns (mk es "" "" "" list_view)
      | None => Untyped v
      end
  | Throws e => Throws e
  | Untyped v => Untyped v
  end.

(** The effect on [entries]:
    [localStorage.setItem('timeEntries', JSON.stringify(entries))]. *)
Definition persist (st : state) (ls : Storage) : Storage :=
  setItem ls "timeEntries" (JSON_stringify (values_of_entries (entries st))).

(** [handleSubmit], when [Date.now()] returns [now] and [new Date()] is
    the time [today]. *)
Definition newEntry (now today : Z) (st : state) : TimeEntry.t :=
  let totalIncome :=
    Number.mul (parseFloat (hours st)) (parseFloat (hourlyWage st)) in
  {| TimeEntry.id := pretty now;
     TimeEntry.date := toISOString_date today;
     TimeEntry.companyName := companyName st;
     TimeEntry.hours := parseFloat (hours st);
     TimeEntry.hourlyWage := parseFloat (hourlyWage st);
     TimeEntry.totalIncome := totalIncome |}.

Definition handleSubmit (now today : Z) (st : state) : state :=
  mk (entries st ++ [newEntry now today st]) "" "" "" (activeView st).

(** [deleteEntry]. *)
Definition deleteEntry (id : string) (st : state) : state :=
  mk (filter (fun entry => TimeEntry.id entry ≠ id) (entries st))
     (companyName st) (hours st) (hourlyWage st) (activeView st).

(** [entries.reduce((acc, entry) => acc + entry.totalIncome, 0)] and
    [entries.reduce((acc, entry) => acc + entry.hours, 0)]. *)
Definition totalIncome (st : state) : number :=
  fold_left (fun acc entry => Number.add acc (TimeEntry.totalIncome entry))
    (entries st) Number.zero.

Definition totalHours (st : state) : number :=
  fold_left (fun acc entry => Number.add acc (TimeEntry.hours entry))
    (entries st) Number.zero.

Definition setCompanyName (v : string) (st : state) : state :=
  mk (entries st) v (hours st) (hourlyWage st) (activeView st).
Definition setHours (v : string) (st : state) : state :=
  mk (entries st) (companyName st) v (hourlyWage st) (activeView st).
Definition setHourlyWage (v : string) (st : state) : state :=
  mk (entries st) (companyName st) (hours st) v (activeView st).
Definition setActiveView (v : View) (st : state) : state :=
  mk (entries st) (companyName st) (hours st) (hourlyWage st) v.

(** The component and the storage of the browser. *)
Record world : Type := World {
  hooks : state;
  localStorage : Storage
}.

(** What the user does, with the readings of the clock for a submit. *)
Inductive event : Type :=
  | ChangeCompanyName (v : string)
  | ChangeHours (v : string)
  | ChangeHourlyWage (v : string)
  | Submit (now today : Z)
  | Delete (id : string)
  | SelectView (v : View).

(** The events whose handler calls [setEntries]. *)
Definition sets_entries (ev : event) : bool :=
  match ev with
  | Submit _ _ | Delete _ => true
  | _ => false
  end.

(** Mounting the component on a storage: the first render, then the
    effect. *)
Definition mount (ls : Storage) : outcome world :=
  match init ls with
  | Returns st => Returns (World st (persist st ls))
  | Throws e => Throws e
  | Untyped v => Untyped v
  end.

(** One event: its handler, the render, and the effect when the handler
    has set [entries]. *)
Definition step (ev : event) (w : world) : world :=
  match ev with
  | ChangeCompanyName v => World (setCompanyName v (hooks w)) (localStorage w)
  | ChangeHours v => World (setHours v (hooks w)) (localStorage w)
  | ChangeHourlyWage v => World (setHourlyWage v (hooks w)) (localStorage w)
  | Submit now today =>
      let st := handleSubmit now today (hooks w) in
      World st (persist st (localStorage w))
  | Delete id =>
      let st := deleteEntry id (hooks w) in
      World st (persist st (localStorage w))
  | SelectView v => World (setActiveView v (hooks w)) (localStorage w)
  end.

(** The worlds of a session: the component is mounted on some storage,
    and events follow. *)
Inductive reachable : world -> Prop :=
  | reachable_mount (ls : Storage) (w : world) :
      mount ls = Returns w -> reachable w
  | reachable_step (ev : event) (w : world) :
      reachable w -> reachable (step ev w).

End App.

(** ** The ledger

    The operations that the specification names, on the component: an
    append fills the form and submits it, a removal is a click on a delete
    button, and the list and the aggregate are what a render reads.  An
    operation takes the world and returns its result and the world after
    it. *)

Module Ledger.

Definition op (A : Type) : Type := App.world -> A * App.world.

Definition exec {A : Type} (m : op A) (w : App.world) : App.world := snd (m w).
Definition eval {A : Type} (m : op A) (w : App.world) : A := fst (m w).

Definition append (companyName hours hourlyWage : string) (now today : Z)
  : op TimeEntry.t :=
  fun w =>
    let filled :=
      App.step (App.ChangeHourlyWage hourlyWage)
        (App.step (App.ChangeHours hours)
           (App.step (App.ChangeCompanyName companyName) w)) in
    (App.newEntry now today (App.hooks filled),
     App.step (App.Submit now today) filled).

Definition remove (id : string) : op unit :=
  fun w => (tt, App.step (App.Delete id) w).

Record totals : Type := Totals {
  totalHours : number;
  totalIncome : number
}.

Definition aggregate : op totals :=
  fun w =>
    (Totals (App.totalHours (App.hooks w)) (App.totalIncome (App.hooks w)), w).

(** A call of [append], with the readings of the clock during it. *)
Record call : Type := Call {
  call_companyName : string;
  call_hours : string;
  call_hourlyWage : string;
  call_now : Z;
  call_today : Z
}.

Definition append_call (c : call) : op TimeEntry.t :=
  append (call_companyName c) (call_hours c) (call_hourlyWage c)
    (call_now c) (call_today c).

Definition appends (cs : list call) (w : App.world) : App.world :=
  fold_left (fun w c => exec (append_call c) w) cs w.

(** The entry that a call creates. *)
Definition entry_of_call (c : call) : TimeEntry.t :=
  {| TimeEntry.id := pretty (call_now c);
     TimeEntry.date := toISOString_date (call_today c);
     TimeEntry.companyName := call_companyName c;
     TimeEntry.hours := parseFloat (call_hours c);
     TimeEntry.hourlyWage := parseFloat (call_hourlyWage c);
     TimeEntry.totalIncome :=
       Number.mul (parseFloat (call_hours c)) (parseFloat (call_hourlyWage c)) |}.

(** The ledger after the session is over and the page is loaded again. *)
Definition reload (w : App.world) : outcome App.world :=
  App.mount (App.localStorage w).

Definition list : op (list TimeEntry.t) :=
  fun w => (App.entries (App.hooks w), w).

End Ledger.

(** ** What the component shows *)

(** The events of the calendar: [calendarEvents]. *)
Module CalendarEvent.

Record ExtendedProps : Type := Props {
  income : number
}.

Record t : Type := mk {
  title : string;
  date : string;
  extendedProps : ExtendedProps
}.

End CalendarEvent.

(** [entries.map(entry => ({title: ..., date: entry.date, extendedProps:
    {income: entry.totalIncome}}))], the title being the template literal
    of the name, [" - "], the hours and ["hrs"]. *)
Definition calendarEvents (st : App.state) : list CalendarEvent.t :=
  map (fun entry =>
         {| CalendarEvent.title :=
              TimeEntry.companyName entry +:+ " - "
                +:+ Number_toString (TimeEntry.hours entry) +:+ "hrs";
            CalendarEvent.date := TimeEntry.date entry;
            CalendarEvent.extendedProps :=
              {| CalendarEvent.income := TimeEntry.totalIncome entry |} |})
      (App.entries st).

(** The texts of the two cards over the views:
    [{totalHours.toFixed(2)} hours] and [¥{totalIncome.toFixed(0)}]. *)
Record cards : Type := Cards {
  hours_card : string;
  income_card : string
}.

Definition render_cards (st : App.state) : option cards :=
  h ← toFixed (App.totalHours st) 2;
  i ← toFixed (App.totalIncome st) 0;
  Some (Cards (h +:+ " hours") ("¥" +:+ i)).

(** The text of the income of an entry in the list, and of an event in
    the calendar: [¥{entry.totalIncome.toFixed(0)}] and
    [¥{eventInfo.event.extendedProps.income.toFixed(0)}]. *)
Definition render_income (income : number) : option string :=
  i ← toFixed income 0; Some ("¥" +:+ i).

(** The spec's reading of a removal: the first entry with the id goes. *)
Fixpoint remove_first (id : string) (es : list TimeEntry.t) : list TimeEntry.t :=
  match es with
  | [] => []
  | e :: r => if String.eqb (TimeEntry.id e) id then r else e :: remove_first id r
  end.

Definition ids (es : list TimeEntry.t) : list string := map TimeEntry.id es.

(** The empty ledger, on an empty storage. *)
Definition empty_ledger : App.world :=
  App.World (App.mk [] "" "" "" list_view) (<["timeEntries" := "[]"]> ∅).

(** ** Definitions for the statements and the proofs *)

(** Two calls of [append] in the same millisecond. *)
Definition twice : App.world :=
  Ledger.appends
    [Ledger.Call "Acme" "4" "1000" 1700000000000 1700000000000;
     Ledger.Call "Beta" "2" "1500" 1700000000000 1700000000000] empty_ledger.

(** The same entry twice, and another one after them. *)
Definition repeated : App.world :=
  Ledger.appends
    [Ledger.Call "Acme" "4" "1000" 1700000000000 1700000000000;
     Ledger.Call "Acme" "4" "1000" 1700000000000 1700000000000;
     Ledger.Call "Beta" "2" "1500" 1700000060000 1700000060000] empty_ledger.

(** A ledger with one entry, as a session finds it after a reload. *)
Definition reloaded : App.world :=
  Ledger.exec (Ledger.append "Acme" "4" "1000" 1700000000000 1700000000000)
    empty_ledger.

(** A text with a double quote for each apostrophe, to write JSON in. *)
Fixpoint double_quotes (s : string) : string :=
  match s with
  | EmptyString => EmptyString
  | String c r =>
      String (if (N_of_ascii c =? 39)%N then "034"%char else c) (double_quotes r)
  end.

(** A ledger with an entry whose hours did not parse. *)
Definition tainted : App.world :=
  Ledger.exec (Ledger.append "Acme" "abc" "1000" 1700000000000 1700000000000)
    empty_ledger.

(** A decimal digit. *)
Definition is_digit (d : N) : Prop := (d < 10)%N.

(** A text that does not start with a digit. *)
Definition no_digit_head (s : string) : Prop :=
  match s with
  | String c _ => digit_of c = None
  | EmptyString => True
  end.

(** One more digit after the digits of [acc]. *)
Definition shift_digit (acc d : N) : N := (10 * acc + d)%N.

(** What follows a number in the text of an entry. *)
Definition delimiter (rest : string) : Prop :=
  exists r, rest = String "," r \/ rest = String "}" r.

(** What [JSON.parse] reads for a byte of a quoted string. *)
Definition quoted_char (c : ascii) : JSONStringChar :=
  match N_of_ascii c with
  | 8 | 9 | 10 | 12 | 13 | 34 | 92 => Byte c
  | n => if (n <? 32)%N then CodeUnit n else Byte c
  end%N.

(** What [JSON.parse] reads for the bytes of a quoted string. *)
Fixpoint quoted_chars (s : string) : list JSONStringChar :=
  match s with
  | EmptyString => []
  | String c r => quoted_char c :: quoted_chars r
  end.

(** The texts of the entries of a ledger. *)
Definition entry_texts (es : list TimeEntry.t) : list string :=
  map (fun e => SerializeJSONProperty (TimeEntry.to_value e)) es.

(** The least exponent of a binary64. *)
Definition emin : Z := SpecFloat.emin Number.prec Number.emax.

(** The numbers of the properties of an object are binary64 values. *)
Definition members_valid (m : list (string * value)) : bool :=
  forallb (fun kv : string * value => let '(_, v) := kv in value_valid v) m.

(** The storage holds the text of the entries. *)
Definition synced (w : App.world) : Prop :=
  getItem (App.localStorage w) "timeEntries"
  = Some (JSON_stringify (values_of_entries (App.entries (App.hooks w)))).

(** The mantissa and the exponent of the binary64 of a positive integer
    below [2^53], which has 53 bits. *)
Definition integer_mantissa (n : Z) : positive :=
  Z.to_pos (n * 2 ^ (53 - Zdigits2 n)).

Definition integer_exponent (n : Z) : Z := Zdigits2 n - 53.

(** The exact value of a finite number without its sign, as a fraction
    [abs_num x / abs_den x] of integers; and whether the number is below
    zero, which neither zero is. *)
Definition abs_num (x : number) : Z :=
  match x with
  | S754_finite _ m e => Zpos m * 2 ^ Z.max 0 e
  | _ => 0
  end.

Definition abs_den (x : number) : Z :=
  match x with
  | S754_finite _ m e => 2 ^ Z.max 0 (- e)
  | _ => 1
  end.

Definition below_zero (x : number) : bool :=
  match x with
  | S754_finite s _ _ => s
  | S754_infinity s => s
  | _ => false
  end.

(** The number [h / 2]: the hours of the form step by halves. *)
Definition halves (h : Z) : number := Number.of_ratio false h 2.

(** The decimal text of [h / 2]: a numeral, with [.5] after it when [h]
    is odd. *)
Definition halves_text (h : Z) : string :=
  if Z.even h then pretty (h / 2) else pretty (h / 2) +:+ ".5".

(** The sum of integers. *)
Definition sum_Z (l : list Z) : Z := fold_right Z.add 0 l.

(** What [JSON.parse] reads for the text of a number: the number when
    it is finite, [0] for [-0], and [null] for [NaN] and the infinities,
    which [JSON.stringify] prints as [null]. *)
Definition read_back (x : number) : value :=
  if Number.isFinite x then Num (stored x) else Null.

(** What [JSON.parse] reads for the text of an entry. *)
Definition entry_read_back (e : TimeEntry.t) : value :=
  Obj [("id", Str (TimeEntry.id e)); ("date", Str (TimeEntry.date e));
       ("companyName", Str (TimeEntry.companyName e));
       ("hours", read_back (TimeEntry.hours e));
       ("hourlyWage", read_back (TimeEntry.hourlyWage e));
       ("totalIncome", read_back (TimeEntry.totalIncome e))].

(** * Properties *)

(** ** The runtime on examples *)

Example parseFloat_examples :
  parseFloat "4" = S754_finite false 4503599627370496 (-50)
  /\ parseFloat "0.1" = S754_finite false 7205759403792794 (-56)
  /\ parseFloat "  -7.5e2 hours" = Number.of_Z (-750)
  /\ parseFloat ".5" = parseFloat "0.5"
  /\ parseFloat "1e400" = S754_infinity false
  /\ parseFloat "9007199254740993" = Number.of_Z 9007199254740992
  /\ parseFloat "abc" = Number.NaN
  /\ parseFloat "" = Number.NaN
  /\ parseFloat "." = Number.NaN.
Proof. vm_compute. repeat split. Qed.

Example number_examples :
  Number.add (parseFloat "0.1") (parseFloat "0.2") = parseFloat "0.30000000000000004"
  /\ Number.add (parseFloat "0.1") (parseFloat "0.2") <> parseFloat "0.3"
  /\ Number.mul (parseFloat "1e200") (parseFloat "1e200") = S754_infinity false
  /\ Number.strict_eq Number.NaN Number.NaN = false
  /\ Number.strict_eq (parseFloat "-0") (parseFloat "0") = true.
Proof. vm_compute. repeat split. discriminate. Qed.

Example Number_toString_examples :
  Number_toString (parseFloat "4000") = "4000"
  /\ Number_toString (Number.add (parseFloat "0.1") (parseFloat "0.2"))
     = "0.30000000000000004"
  /\ Number_toString (parseFloat "-7.50") = "-7.5"
  /\ Number_toString (parseFloat "0.000001") = "0.000001"
  /\ Number_toString (parseFloat "0.0000001") = "1e-7"
  /\ Number_toString (parseFloat "123456789012345680000") = "123456789012345680000"
  /\ Number_toString (parseFloat "1e21") = "1e+21"
  /\ Number_toString (parseFloat "5e-324") = "5e-324"
  /\ Number_toString (parseFloat "1.7976931348623157e308") = "1.7976931348623157e+308"
  /\ Number_toString (parseFloat "-0") = "0".
Proof. vm_compute. repeat split. Qed.

Example storable_examples :
  storable (parseFloat "7.5") = true
  /\ storable (Number.add (parseFloat "0.1") (parseFloat "0.2")) = true
  /\ storable (parseFloat "5e-324") = true
  /\ storable (parseFloat "1.7976931348623157e308") = true
  /\ storable (parseFloat "-0") = true
  /\ storable Number.NaN = false
  /\ storable (parseFloat "1e400") = false
  /\ storable (S754_finite false 3 0) = false.
Proof. vm_compute. repeat split. Qed.

Example toISOString_date_examples :
  toISOString_date 0 = "1970-01-01"
  /\ toISOString_date 1700000000000 = "2023-11-14"
  /\ toISOString_date 951868799999 = "2000-02-29"
  /\ toISOString_date 1709251200000 = "2024-03-01"
  /\ toISOString_date (-1) = "1969-12-31".
Proof. vm_compute. repeat split. Qed.

Example JSON_parse_examples :
  JSON_parse "[]" = Returns (Arr [])
  /\ JSON_parse (double_quotes " [ 1 , -2.5e1, true, null, {'a': 'x\ny', 'a': []} ] ")
     = Returns (Arr [Num (Number.of_Z 1); Num (Number.of_Z (-25)); Bool true; Null;
                     Obj [("a", Arr [])]])
  /\ JSON_parse "" = Throws SyntaxError
  /\ JSON_parse "{" = Throws SyntaxError
  /\ JSON_parse "[1,]" = Throws SyntaxError
  /\ JSON_parse "01" = Throws SyntaxError
  /\ JSON_parse "NaN" = Throws SyntaxError
  /\ JSON_parse "[1] x" = Throws SyntaxError.
Proof. vm_compute. repeat split. Qed.

(** ** The ledger *)

Lemma mount_empty : App.mount ∅ = Returns empty_ledger.
Proof. reflexivity. Qed.

Lemma entries_append c h g now today w :
  Ledger.eval Ledger.list (Ledger.exec (Ledger.append c h g now today) w)
  = Ledger.eval Ledger.list w ++ [Ledger.eval (Ledger.append c h g now today) w].
Proof. reflexivity. Qed.

Lemma eval_append_call c w :
  Ledger.eval (Ledger.append_call c) w = Ledger.entry_of_call c.
Proof. reflexivity. Qed.

Lemma appends_cons c cs w :
  Ledger.appends (c :: cs) w
  = Ledger.appends cs (Ledger.exec (Ledger.append_call c) w).
Proof. reflexivity. Qed.

Lemma entries_appends cs w :
  Ledger.eval Ledger.list (Ledger.appends cs w)
  = Ledger.eval Ledger.list w ++ map Ledger.entry_of_call cs.
Proof.
  revert w. induction cs as [|c cs IH]; intros w.
  - cbn [map]. by rewrite app_nil_r.
  - rewrite appends_cons, IH. unfold Ledger.append_call at 1.
    rewrite entries_append. fold (Ledger.append_call c).
    rewrite eval_append_call. cbn [map]. by rewrite <- app_assoc.
Qed.

Lemma fold_add_map {A : Type} (f : A -> number) (l : list A) (acc : number) :
  fold_left (fun a x => Number.add a (f x)) l acc
  = fold_left Number.add (map f l) acc.
Proof.
  revert acc. induction l as [|x l IH]; intros acc; cbn [fold_left map];
    [done|apply IH].
Qed.

Lemma aggregate_entries w :
  Ledger.eval Ledger.aggregate w
  = Ledger.Totals
      (Number.sum (map TimeEntry.hours (Ledger.eval Ledger.list w)))
      (Number.sum (map TimeEntry.totalIncome (Ledger.eval Ledger.list w))).
Proof.
  unfold Number.sum. rewrite <- !fold_add_map. reflexivity.
Qed.

(** C1.  After any sequence of calls of [append] on an empty ledger, the
    total of the hours is the sum of the hours of the calls and the total
    of the income is the sum of their products [hours * hourlyWage], the
    sums being those of JavaScript numbers, taken in the order of the
    calls; on the empty ledger both totals are [0]. *)
Theorem aggregate_of_appends (cs : list Ledger.call) (w : App.world) :
  Ledger.eval Ledger.list w = [] ->
  Ledger.eval Ledger.aggregate w = Ledger.Totals Number.zero Number.zero
  /\ Ledger.eval Ledger.aggregate (Ledger.appends cs w)
     = Ledger.Totals
         (Number.sum (map (fun c => parseFloat (Ledger.call_hours c)) cs))
         (Number.sum
            (map (fun c => Number.mul (parseFloat (Ledger.call_hours c))
                             (parseFloat (Ledger.call_hourlyWage c))) cs)).
Proof.
  intros Hw. split.
  - rewrite aggregate_entries, Hw. reflexivity.
  - rewrite aggregate_entries, entries_appends, Hw, app_nil_l, !map_map.
    reflexivity.
Qed.

Lemma aggregate_of_appends_witness :
  Ledger.eval Ledger.aggregate
    (Ledger.appends
       [Ledger.Call "Acme" "4" "1000" 1700000000000 1700000000000;
        Ledger.Call "Beta" "2" "1500" 1700000060000 1700000060000] empty_ledger)
  = Ledger.Totals (Number.of_Z 6) (Number.of_Z 7000).
Proof.
  destruct (aggregate_of_appends
    [Ledger.Call "Acme" "4" "1000" 1700000000000 1700000000000;
     Ledger.Call "Beta" "2" "1500" 1700000060000 1700000060000] empty_ledger eq_refl)
    as [_ ->].
  vm_compute. reflexivity.
Defined.

(** *** Removal *)

Lemma entries_remove i w :
  Ledger.eval Ledger.list (Ledger.exec (Ledger.remove i) w)
  = filter (fun entry => TimeEntry.id entry ≠ i) (Ledger.eval Ledger.list w).
Proof. reflexivity. Qed.

Lemma map_fmap {A B : Type} (f : A -> B) (l : list A) : map f l = f <$> l.
Proof. induction l as [|x l IH]; [done|]. cbn [map]. by rewrite IH. Qed.

Lemma elem_of_ids i es :
  i ∈ ids es <-> exists e, e ∈ es /\ TimeEntry.id e = i.
Proof.
  unfold ids. rewrite map_fmap, list_elem_of_fmap.
  split; intros (e & H1 & H2); exists e; by split.
Qed.

Lemma filter_absent i es :
  i ∉ ids es -> filter (fun entry => TimeEntry.id entry ≠ i) es = es.
Proof.
  induction es as [|e es IH]; intros Hi; [done|].
  rewrite filter_cons_True.
  - f_equal. apply IH. intros Hin. apply Hi. unfold ids in *. cbn [map].
    by apply list_elem_of_further.
  - intros <-. apply Hi. unfold ids. cbn [map]. apply list_elem_of_here.
Qed.

Lemma remove_first_absent i es : i ∉ ids es -> remove_first i es = es.
Proof.
  induction es as [|e es IH]; intros Hi; [done|]. cbn [remove_first].
  destruct (String.eqb_spec (TimeEntry.id e) i) as [Heq|Hne].
  - exfalso. apply Hi. unfold ids. cbn [map]. rewrite Heq. apply list_elem_of_here.
  - f_equal. apply IH. intros Hin. apply Hi. unfold ids in *. cbn [map].
    by apply list_elem_of_further.
Qed.

Lemma filter_remove_first i es :
  NoDup (ids es) ->
  filter (fun entry => TimeEntry.id entry ≠ i) es = remove_first i es.
Proof.
  induction es as [|e es IH]; intros Hnd; [done|].
  unfold ids in Hnd. cbn [map] in Hnd. apply NoDup_cons in Hnd as [Hnotin Hnd].
  cbn [remove_first]. destruct (String.eqb_spec (TimeEntry.id e) i) as [Heq|Hne].
  - rewrite filter_cons_False by (intros H; by apply H).
    apply filter_absent. by rewrite <- Heq.
  - rewrite filter_cons_True by done. f_equal. by apply IH.
Qed.

(** C2, as stated, fails: where two entries have the id, the removal takes
    both, not only the first. *)
Lemma remove_not_only_first :
  Ledger.eval Ledger.list (Ledger.exec (Ledger.remove "1700000000000") twice)
  <> remove_first "1700000000000" (Ledger.eval Ledger.list twice).
Proof. vm_compute. discriminate. Qed.

Lemma filter_greatest i (l es : list TimeEntry.t) :
  l `sublist_of` es ->
  (forall e, e ∈ l -> TimeEntry.id e ≠ i) ->
  l `sublist_of` filter (fun entry => TimeEntry.id entry ≠ i) es.
Proof.
  induction 1 as [|x l1 l2 Hsub IH|x l1 l2 Hsub IH]; intros Hl.
  - apply sublist_nil.
  - rewrite filter_cons_True by (apply Hl, list_elem_of_here).
    apply sublist_skip, IH. intros e He. by apply Hl, list_elem_of_further.
  - destruct (decide (TimeEntry.id x ≠ i)) as [Hx|Hx].
    + rewrite filter_cons_True by exact Hx. by apply sublist_cons, IH.
    + rewrite filter_cons_False by exact Hx. by apply IH.
Qed.

(** C2, amended.  A removal takes every entry whose id matches and keeps
    every other entry, as often as it is there and in its place: the list
    after it is the list before it without the matching entries, which is
    the longest part of that list with no matching entry.  That is the
    list without the first matching entry, the only one, when the ids of
    the ledger are distinct; and when no entry matches, the sequence is as
    it was. *)
Theorem remove_every_match (i : string) (w : App.world) :
  let es := Ledger.eval Ledger.list w in
  let es' := Ledger.eval Ledger.list (Ledger.exec (Ledger.remove i) w) in
  es' = filter (fun e => TimeEntry.id e ≠ i) es
  /\ (forall e, e ∈ es' <-> e ∈ es /\ TimeEntry.id e ≠ i)
  /\ es' `sublist_of` es
  /\ (forall l, l `sublist_of` es -> (forall e, e ∈ l -> TimeEntry.id e ≠ i) ->
        l `sublist_of` es')
  /\ (NoDup (ids es) -> es' = remove_first i es)
  /\ (i ∉ ids es -> es' = es).
Proof.
  intros es es'. subst es es'. rewrite entries_remove.
  split; [|split; [|split; [|split; [|split]]]].
  - reflexivity.
  - intros e. rewrite list_elem_of_filter. tauto.
  - apply sublist_filter.
  - intros l. apply filter_greatest.
  - apply filter_remove_first.
  - apply filter_absent.
Qed.

Lemma remove_every_match_witness :
  Ledger.eval Ledger.list (Ledger.exec (Ledger.remove "1700000060000") repeated)
  = [Ledger.entry_of_call
       (Ledger.Call "Acme" "4" "1000" 1700000000000 1700000000000);
     Ledger.entry_of_call
       (Ledger.Call "Acme" "4" "1000" 1700000000000 1700000000000)]
  /\ Ledger.eval Ledger.list (Ledger.exec (Ledger.remove "1700000000000") repeated)
     = [Ledger.entry_of_call
          (Ledger.Call "Beta" "2" "1500" 1700000060000 1700000060000)]
  /\ Ledger.eval Ledger.list (Ledger.exec (Ledger.remove "1700000000000") reloaded)
     = []
  /\ Ledger.eval Ledger.list (Ledger.exec (Ledger.remove "17") repeated)
     = Ledger.eval Ledger.list repeated.
Proof.
  split; [|split; [|split]].
  - destruct (remove_every_match "1700000060000" repeated) as (H & _).
    rewrite H. vm_compute. reflexivity.
  - destruct (remove_every_match "1700000000000" repeated) as (H & _).
    rewrite H. vm_compute. reflexivity.
  - destruct (remove_every_match "1700000000000" reloaded) as (_ & _ & _ & _ & H & _).
    rewrite H; [vm_compute; reflexivity|].
    vm_compute. apply NoDup_cons. split; [apply not_elem_of_nil|apply NoDup_nil; exact I].
  - destruct (remove_every_match "17" repeated) as (_ & _ & _ & _ & _ & H).
    rewrite H; [reflexivity|]. vm_compute.
    intros Hin. apply list_elem_of_In in Hin. simpl in Hin.
    destruct Hin as [Hin|[Hin|[Hin|[]]]]; discriminate Hin.
Defined.

(** C3.  After a removal no entry of the list has the id; and when no entry
    had it, the list is as it was, in length and in contents. *)
Theorem remove_then_list (i : string) (w : App.world) :
  let es := Ledger.eval Ledger.list w in
  let es' := Ledger.eval Ledger.list (Ledger.exec (Ledger.remove i) w) in
  (forall e, e ∈ es' -> TimeEntry.id e ≠ i)
  /\ (i ∉ ids es -> es' = es /\ length es' = length es).
Proof.
  intros es es'. subst es es'. rewrite entries_remove. split.
  - intros e. rewrite list_elem_of_filter. tauto.
  - intros Hi. by rewrite filter_absent.
Qed.

Lemma remove_then_list_witness :
  Ledger.eval Ledger.list (Ledger.exec (Ledger.remove "17") twice)
  = Ledger.eval Ledger.list twice.
Proof.
  destruct (remove_then_list "17" twice) as [_ H].
  apply H. vm_compute.
  intros Hin. apply list_elem_of_In in Hin. simpl in Hin.
  destruct Hin as [Hin|[Hin|[]]]; discriminate Hin.
Defined.

(** C10.  A removal leaves the entries with another id as they were and
    in their order: the sequence of those entries is the same before and
    after.  An append leaves the entries that were there as they were and
    in their order: they are the first entries of the new sequence. *)
Theorem frame (w : App.world) :
  (forall i,
     let es := Ledger.eval Ledger.list w in
     let es' := Ledger.eval Ledger.list (Ledger.exec (Ledger.remove i) w) in
     filter (fun e => TimeEntry.id e ≠ i) es' = filter (fun e => TimeEntry.id e ≠ i) es
     /\ es' `sublist_of` es
     /\ (forall e, e ∈ es -> TimeEntry.id e ≠ i -> e ∈ es'))
  /\ (forall c h g now today,
        let es := Ledger.eval Ledger.list w in
        let es' :=
          Ledger.eval Ledger.list (Ledger.exec (Ledger.append c h g now today) w) in
        take (length es) es' = es
        /\ (forall k e, es !! k = Some e -> es' !! k = Some e)).
Proof.
  split.
  - intros i es es'. subst es es'. rewrite entries_remove.
    split; [|split].
    + rewrite list_filter_filter. apply list_filter_iff. tauto.
    + apply sublist_filter.
    + intros e He Hne. apply list_elem_of_filter. tauto.
  - intros c h g now today es es'. subst es es'. rewrite entries_append.
    split.
    + by rewrite take_app_length.
    + intros k e Hk. by apply lookup_app_l_Some.
Qed.

(** *** Ids *)

(** C5, as stated, fails: two calls of [append] in the same millisecond
    produce the same id. *)
Lemma same_millisecond_same_id :
  ~ NoDup (ids (Ledger.eval Ledger.list twice)).
Proof.
  vm_compute. intros H. apply NoDup_cons in H as [H _].
  apply H, list_elem_of_here.
Qed.

Lemma ids_appends cs w :
  ids (Ledger.eval Ledger.list (Ledger.appends cs w))
  = ids (Ledger.eval Ledger.list w) ++ map (fun c => pretty (Ledger.call_now c)) cs.
Proof.
  rewrite entries_appends. unfold ids. by rewrite map_app, map_map.
Qed.

Lemma id_of_call c1 c2 :
  TimeEntry.id (Ledger.entry_of_call c1) = TimeEntry.id (Ledger.entry_of_call c2)
  <-> Ledger.call_now c1 = Ledger.call_now c2.
Proof.
  cbn [Ledger.entry_of_call TimeEntry.id]. split.
  - apply (inj pretty).
  - by intros ->.
Qed.

Lemma NoDup_ids_of_calls cs :
  NoDup (map (fun c => pretty (Ledger.call_now c)) cs)
  <-> NoDup (map Ledger.call_now cs).
Proof.
  rewrite !map_fmap.
  change (NoDup ((pretty ∘ Ledger.call_now) <$> cs)
          <-> NoDup (Ledger.call_now <$> cs)).
  rewrite list_fmap_compose. apply (NoDup_fmap pretty).
Qed.

Lemma NoDup_pairs {A : Type} (l : list A) :
  NoDup l
  <-> forall l1 x l2 y l3, l = l1 ++ x :: l2 ++ y :: l3 -> x ≠ y.
Proof.
  split.
  - intros Hnd l1 x l2 y l3 -> ->.
    apply NoDup_app in Hnd as (_ & _ & Hnd).
    apply NoDup_cons in Hnd as [Hnotin _]. apply Hnotin.
    apply elem_of_app. right. apply list_elem_of_here.
  - induction l as [|x l IH]; intros H; [apply NoDup_nil; exact I|].
    apply NoDup_cons. split.
    + intros Hin. apply list_elem_of_split in Hin as (l2 & l3 & ->).
      by apply (H [] x l2 x l3).
    + apply IH. intros l1 y l2 z l3 ->. by apply (H (x :: l1) y l2 z l3).
Qed.

(** C5, amended.  The id of an entry is the decimal text of the time that
    [Date.now()] returned at its call, and of nothing else: two calls of
    [append], on any ledgers, produce the same id exactly when they are in
    the same millisecond.  So, on any ledger to start with, every call of
    a sequence produces an id distinct from the ids produced by the calls
    before it exactly when the clock readings of the calls are distinct;
    the ids of the ledger are distinct after the calls exactly when,
    moreover, the ids of the ledger were distinct before them and none is
    the reading of a call; and then the id that a call produces is the id
    of no entry of the ledger that it is appended to. *)
Theorem ids_distinct (cs : list Ledger.call) (w : App.world) :
  (forall c1 c2 w1 w2,
     TimeEntry.id (Ledger.eval (Ledger.append_call c1) w1)
     = TimeEntry.id (Ledger.eval (Ledger.append_call c2) w2)
     <-> Ledger.call_now c1 = Ledger.call_now c2)
  /\ (NoDup (map Ledger.call_now cs)
      <-> forall cs1 c1 cs2 c2 cs3, cs = cs1 ++ c1 :: cs2 ++ c2 :: cs3 ->
            TimeEntry.id (Ledger.eval (Ledger.append_call c2)
                            (Ledger.appends (cs1 ++ c1 :: cs2) w))
            ≠ TimeEntry.id (Ledger.eval (Ledger.append_call c1)
                              (Ledger.appends cs1 w)))
  /\ (NoDup (ids (Ledger.eval Ledger.list (Ledger.appends cs w)))
      <-> NoDup (ids (Ledger.eval Ledger.list w))
          /\ NoDup (map Ledger.call_now cs)
          /\ forall c, c ∈ cs ->
               pretty (Ledger.call_now c) ∉ ids (Ledger.eval Ledger.list w))
  /\ (NoDup (ids (Ledger.eval Ledger.list (Ledger.appends cs w))) ->
      forall cs1 c cs2, cs = cs1 ++ c :: cs2 ->
        TimeEntry.id (Ledger.eval (Ledger.append_call c) (Ledger.appends cs1 w))
        ∉ ids (Ledger.eval Ledger.list (Ledger.appends cs1 w))).
Proof.
  split; [|split; [|split]].
  - intros c1 c2 w1 w2. rewrite !eval_append_call. apply id_of_call.
  - rewrite NoDup_pairs. split.
    + intros H cs1 c1 cs2 c2 cs3 Hcs. rewrite !eval_append_call, id_of_call.
      intros Heq. apply (H (map Ledger.call_now cs1) (Ledger.call_now c1)
        (map Ledger.call_now cs2) (Ledger.call_now c2) (map Ledger.call_now cs3));
        [|by symmetry].
      rewrite Hcs, map_app. cbn [map]. rewrite map_app. reflexivity.
    + intros H l1 x l2 y l3 Hl Hxy.
      rewrite map_fmap in Hl.
      apply fmap_app_inv in Hl as (cs1 & r1 & -> & Hr1 & ->).
      symmetry in Hr1. apply fmap_cons_inv in Hr1 as (c1 & r2 & -> & Hr2 & ->).
      symmetry in Hr2. apply fmap_app_inv in Hr2 as (cs2 & r3 & -> & Hr3 & ->).
      symmetry in Hr3. apply fmap_cons_inv in Hr3 as (c2 & cs3 & -> & -> & ->).
      apply (H cs1 c1 cs2 c2 cs3 eq_refl).
      rewrite !eval_append_call, id_of_call. by symmetry.
  - rewrite ids_appends, NoDup_app, NoDup_ids_of_calls. split.
    + intros (Hw & Hdis & Hcs). split; [exact Hw|]. split; [exact Hcs|].
      intros c Hc Hin. apply (Hdis _ Hin).
      apply list_elem_of_In, in_map_iff. exists c. split; [done|].
      by apply list_elem_of_In.
    + intros (Hw & Hcs & Hdis). split; [exact Hw|]. split; [|exact Hcs].
      intros x Hin Hx. apply list_elem_of_In, in_map_iff in Hx as (c & <- & Hc).
      apply list_elem_of_In in Hc. by apply (Hdis c).
  - intros Hnd cs1 c cs2 ->. rewrite eval_append_call.
    rewrite entries_appends in Hnd. rewrite map_app in Hnd. cbn [map] in Hnd.
    rewrite entries_appends. unfold ids in *.
    rewrite app_assoc, map_app in Hnd. cbn [map] in Hnd.
    apply NoDup_app in Hnd as (_ & Hdis & _).
    intros Hin. apply (Hdis _ Hin). apply list_elem_of_here.
Qed.

Lemma ids_distinct_witness :
  NoDup (ids (Ledger.eval Ledger.list
    (Ledger.appends
       [Ledger.Call "Beta" "2" "1500" 1700000060000 1700000060000;
        Ledger.Call "Gamma" "3" "1200" 1700000060001 1700000060001] reloaded)))
  /\ ~ NoDup (ids (Ledger.eval Ledger.list
        (Ledger.appends
           [Ledger.Call "Beta" "2" "1500" 1700000060000 1700000060000;
            Ledger.Call "Gamma" "3" "1200" 1700000060000 1700000060000] reloaded))).
Proof.
  split.
  - apply (ids_distinct
      [Ledger.Call "Beta" "2" "1500" 1700000060000 1700000060000;
       Ledger.Call "Gamma" "3" "1200" 1700000060001 1700000060001] reloaded).
    split; [|split].
    + vm_compute. apply NoDup_cons. split; [apply not_elem_of_nil|apply NoDup_nil; exact I].
    + cbn [map Ledger.call_now].
      apply NoDup_cons. split.
      * intros Hin. apply list_elem_of_In in Hin. simpl in Hin.
        destruct Hin as [Hin|[]]. discriminate Hin.
      * apply NoDup_cons. split; [apply not_elem_of_nil|apply NoDup_nil; exact I].
    + intros c Hc Hin. apply list_elem_of_In in Hc. simpl in Hc.
      destruct Hc as [<-|[<-|[]]]; vm_compute in Hin;
        apply list_elem_of_In in Hin; simpl in Hin;
        destruct Hin as [Hin|[]]; discriminate Hin.
  - intros Hnd. apply (ids_distinct
      [Ledger.Call "Beta" "2" "1500" 1700000060000 1700000060000;
       Ledger.Call "Gamma" "3" "1200" 1700000060000 1700000060000] reloaded) in Hnd.
    destruct Hnd as (_ & Hnd & _). cbn [map Ledger.call_now] in Hnd.
    apply NoDup_cons in Hnd as [Hnotin _]. apply Hnotin, list_elem_of_here.
Defined.

(** *** Appending *)

Lemma add_NaN_r x : Number.add x Number.NaN = Number.NaN.
Proof. by destruct x. Qed.

Lemma mul_NaN_l y : Number.mul Number.NaN y = Number.NaN.
Proof. reflexivity. Qed.

Lemma mul_NaN_r x : Number.mul x Number.NaN = Number.NaN.
Proof. by destruct x. Qed.

Lemma sum_snoc l x : Number.sum (l ++ [x]) = Number.add (Number.sum l) x.
Proof. unfold Number.sum. by rewrite fold_left_app. Qed.

Lemma aggregate_append c h g now today w :
  Ledger.eval Ledger.aggregate (Ledger.exec (Ledger.append c h g now today) w)
  = Ledger.Totals
      (Number.add (Ledger.totalHours (Ledger.eval Ledger.aggregate w))
         (parseFloat h))
      (Number.add (Ledger.totalIncome (Ledger.eval Ledger.aggregate w))
         (Number.mul (parseFloat h) (parseFloat g))).
Proof.
  rewrite !aggregate_entries, entries_append, !map_app. cbn [map].
  rewrite !sum_snoc. reflexivity.
Qed.

(** C6.  [append] takes every input, negative or not numeric as it may
    be: it returns its entry, which is stored at the end of the ledger with
    the numbers that [parseFloat] gives.  Where [parseFloat] fails, its
    [NaN] is the [hours] or the [hourlyWage] of the entry, the [totalIncome]
    of the entry is [NaN], and so are the totals that sum it. *)
Theorem append_unvalidated (c h g : string) (now today : Z) (w : App.world) :
  let e := Ledger.eval (Ledger.append c h g now today) w in
  let w' := Ledger.exec (Ledger.append c h g now today) w in
  Ledger.eval Ledger.list w' = Ledger.eval Ledger.list w ++ [e]
  /\ TimeEntry.hours e = parseFloat h
  /\ TimeEntry.hourlyWage e = parseFloat g
  /\ (parseFloat h = Number.NaN ->
        TimeEntry.hours e = Number.NaN
        /\ TimeEntry.totalIncome e = Number.NaN
        /\ Ledger.eval Ledger.aggregate w' = Ledger.Totals Number.NaN Number.NaN)
  /\ (parseFloat g = Number.NaN ->
        TimeEntry.hourlyWage e = Number.NaN
        /\ TimeEntry.totalIncome e = Number.NaN
        /\ Ledger.totalIncome (Ledger.eval Ledger.aggregate w') = Number.NaN).
Proof.
  intros e w'. subst e w'.
  split; [apply entries_append|]. split; [reflexivity|]. split; [reflexivity|].
  split.
  - intros Hh. split; [exact Hh|]. split.
    + change (Number.mul (parseFloat h) (parseFloat g) = Number.NaN).
      by rewrite Hh.
    + rewrite aggregate_append, Hh, mul_NaN_l, !add_NaN_r. reflexivity.
  - intros Hg. split; [exact Hg|]. split.
    + change (Number.mul (parseFloat h) (parseFloat g) = Number.NaN).
      by rewrite Hg, mul_NaN_r.
    + rewrite aggregate_append, Hg, mul_NaN_r, add_NaN_r. reflexivity.
Qed.

Lemma append_unvalidated_witness :
  Ledger.eval Ledger.aggregate
    (Ledger.exec (Ledger.append "Acme" "abc" "-1000" 1700000000000 1700000000000)
       twice)
  = Ledger.Totals Number.NaN Number.NaN
  /\ Ledger.totalIncome
       (Ledger.eval Ledger.aggregate
          (Ledger.exec (Ledger.append "Acme" "4" "" 1700000000000 1700000000000)
             twice))
     = Number.NaN.
Proof.
  split.
  - destruct (append_unvalidated "Acme" "abc" "-1000" 1700000000000 1700000000000
                twice) as (_ & _ & _ & H & _).
    apply H. vm_compute. reflexivity.
  - destruct (append_unvalidated "Acme" "4" "" 1700000000000 1700000000000
                twice) as (_ & _ & _ & _ & H).
    apply H. vm_compute. reflexivity.
Defined.

(** C8.  [append] puts its entry at the end of the sequence, with the name
    and the parsed numbers of the call and with [totalIncome] their product
    [hours * hourlyWage]; [append("Acme", 4, 1000)] on an empty ledger
    gives an entry of [totalIncome] 4000 and the totals 4 and 4000. *)
Theorem append_at_end :
  (forall (c h g : string) (now today : Z) (w : App.world),
     let e := Ledger.eval (Ledger.append c h g now today) w in
     let w' := Ledger.exec (Ledger.append c h g now today) w in
     Ledger.eval Ledger.list w' = Ledger.eval Ledger.list w ++ [e]
     /\ TimeEntry.companyName e = c
     /\ TimeEntry.hours e = parseFloat h
     /\ TimeEntry.hourlyWage e = parseFloat g
     /\ TimeEntry.totalIncome e
        = Number.mul (TimeEntry.hours e) (TimeEntry.hourlyWage e))
  /\ (forall (now today : Z) (w : App.world),
        Ledger.eval Ledger.list w = [] ->
        let e := Ledger.eval (Ledger.append "Acme" "4" "1000" now today) w in
        let w' := Ledger.exec (Ledger.append "Acme" "4" "1000" now today) w in
        TimeEntry.totalIncome e = Number.of_Z 4000
        /\ Ledger.eval Ledger.list w' = [e]
        /\ Ledger.eval Ledger.aggregate w'
           = Ledger.Totals (Number.of_Z 4) (Number.of_Z 4000)).
Proof.
  split.
  - intros c h g now today w e w'. subst e w'.
    split; [apply entries_append|]. repeat split.
  - intros now today w Hw e w'. subst e w'.
    split; [vm_compute; reflexivity|]. split.
    + by rewrite entries_append, Hw.
    + rewrite aggregate_append, aggregate_entries, Hw. vm_compute. reflexivity.
Qed.

Lemma append_at_end_witness :
  Ledger.eval Ledger.aggregate
    (Ledger.exec (Ledger.append "Acme" "4" "1000" 1700000000000 1700000000000)
       empty_ledger)
  = Ledger.Totals (Number.of_Z 4) (Number.of_Z 4000).
Proof.
  destruct append_at_end as [_ H].
  apply (H 1700000000000 1700000000000 empty_ledger eq_refl).
Defined.

(** *** Reading *)

(** C9.  [list()] and [aggregate()] only read: they leave the component
    and the storage as they are, and called again, with no change in
    between, they return what they returned; so they do after the events
    that do not set [entries], typing in the form and choosing a view,
    which leave the storage as it is. *)
Theorem reads_are_pure (w : App.world) :
  Ledger.exec Ledger.list w = w
  /\ Ledger.exec Ledger.aggregate w = w
  /\ Ledger.eval Ledger.list (Ledger.exec Ledger.list w)
     = Ledger.eval Ledger.list w
  /\ Ledger.eval Ledger.aggregate (Ledger.exec Ledger.aggregate w)
     = Ledger.eval Ledger.aggregate w
  /\ Ledger.eval Ledger.list (Ledger.exec Ledger.aggregate w)
     = Ledger.eval Ledger.list w
  /\ Ledger.eval Ledger.aggregate (Ledger.exec Ledger.list w)
     = Ledger.eval Ledger.aggregate w
  /\ forall ev, App.sets_entries ev = false ->
       Ledger.eval Ledger.list (App.step ev w) = Ledger.eval Ledger.list w
       /\ Ledger.eval Ledger.aggregate (App.step ev w)
          = Ledger.eval Ledger.aggregate w
       /\ App.localStorage (App.step ev w) = App.localStorage w.
Proof.
  do 6 (split; [reflexivity|]).
  intros ev Hev. destruct ev; try discriminate Hev; repeat split.
Qed.

Lemma reads_are_pure_witness :
  Ledger.eval Ledger.aggregate (App.step (App.SelectView graph_view) twice)
  = Ledger.eval Ledger.aggregate twice.
Proof.
  destruct (reads_are_pure twice) as (_ & _ & _ & _ & _ & _ & H).
  apply (H (App.SelectView graph_view) eq_refl).
Defined.

(** *** Loading *)

(** C4, as stated, fails: a stored text that is not JSON makes the first
    render throw. *)
Lemma mount_corrupt_throws :
  App.mount (<["timeEntries" := "{"]> ∅) = Throws SyntaxError.
Proof. vm_compute. reflexivity. Qed.

(** C4, amended.  The component reads the text stored under the key
    [timeEntries]; when there is none, or the empty text, it starts on the
    empty sequence and throws nothing; when the text is not empty and
    [JSON.parse] throws on it, the first render throws that error. *)
Theorem mount_storage (ls : Storage) :
  (getItem ls "timeEntries" = None \/ getItem ls "timeEntries" = Some "" ->
     App.mount ls
     = Returns (App.World (App.mk [] "" "" "" list_view)
                  (setItem ls "timeEntries" "[]")))
  /\ (forall saved e,
        getItem ls "timeEntries" = Some saved -> saved ≠ "" ->
        JSON_parse saved = Throws e ->
        App.mount ls = Throws e).
Proof.
  split.
  - intros H. unfold App.mount, App.init, App.initialEntries.
    destruct H as [-> | ->]; reflexivity.
  - intros saved e Hs Hne Hp. unfold App.mount, App.init, App.initialEntries.
    rewrite Hs. rewrite bool_decide_eq_false_2 by done. by rewrite Hp.
Qed.

Lemma mount_storage_witness :
  App.mount ∅ = Returns empty_ledger
  /\ App.mount (<["timeEntries" := "not json"]> ∅) = Throws SyntaxError.
Proof.
  split.
  - destruct (mount_storage ∅) as [H _]. rewrite H; [reflexivity|].
    left. reflexivity.
  - destruct (mount_storage (<["timeEntries" := "not json"]> ∅)) as [_ H].
    apply (H "not json" SyntaxError).
    + vm_compute. reflexivity.
    + discriminate.
    + vm_compute. reflexivity.
Defined.

(** ** The text of a ledger reads back *)

(** *** Strings *)

Lemma app_String c s t : String c s +:+ t = String c (s +:+ t).
Proof. reflexivity. Qed.

Lemma app_empty t : EmptyString +:+ t = t.
Proof. reflexivity. Qed.

Lemma app_assoc_string s t u : (s +:+ t) +:+ u = s +:+ (t +:+ u).
Proof.
  induction s as [|c s IH]; [reflexivity|].
  rewrite !app_String. by rewrite IH.
Qed.

Lemma length_app_string s t :
  String.length (s +:+ t) = (String.length s + String.length t)%nat.
Proof.
  induction s as [|c s IH]; [reflexivity|].
  rewrite app_String. cbn [String.length]. by rewrite IH.
Qed.

(** *** Decimal digits *)

Section Digits.
Local Open Scope N_scope.

Lemma digit_cases d :
  is_digit d ->
  (d = 0 \/ d = 1 \/ d = 2 \/ d = 3 \/ d = 4 \/ d = 5 \/ d = 6 \/ d = 7
   \/ d = 8 \/ d = 9).
Proof. unfold is_digit. lia. Qed.

Lemma digit_of_digit_char d : is_digit d -> digit_of (digit_char d) = Some d.
Proof. intros H. apply digit_cases in H. destruct_or!; subst d; reflexivity. Qed.

Lemma string_of_digits_app ds1 ds2 :
  string_of_digits (ds1 ++ ds2) = string_of_digits ds1 +:+ string_of_digits ds2.
Proof.
  induction ds1 as [|d ds1 IH]; [reflexivity|].
  cbn [app string_of_digits]. by rewrite app_String, IH.
Qed.

Lemma digits_value_fold ds : digits_value ds = fold_left shift_digit ds 0.
Proof. reflexivity. Qed.

Lemma DecimalDigits_digits ds rest acc k :
  Forall is_digit ds -> no_digit_head rest ->
  DecimalDigits (string_of_digits ds +:+ rest) acc k
  = (fold_left shift_digit ds acc, (k + length ds)%nat, rest).
Proof.
  intros Hds Hrest. revert acc k.
  induction Hds as [|d ds Hd Hds IH]; intros acc k.
  - cbn [string_of_digits fold_left length]. rewrite app_empty, Nat.add_0_r.
    destruct rest as [|c r]; [reflexivity|].
    cbn [DecimalDigits]. cbn in Hrest. by rewrite Hrest.
  - cbn [string_of_digits fold_left length]. rewrite app_String.
    cbn [DecimalDigits]. rewrite (digit_of_digit_char d Hd), IH.
    f_equal. f_equal. lia.
Qed.

Lemma log2_div10 n : (0 < n / 10 -> N.log2 (n / 10) < N.log2 n).
Proof.
  intros Hpos.
  assert (Hn : (0 < n)).
  { destruct (N.eq_dec n 0) as [->|]; [|lia]. by cbn in Hpos. }
  apply N.log2_lt_pow2; [done|].
  pose proof (N.log2_spec n Hn) as [_ Hlt].
  rewrite N.pow_succ_r' in Hlt.
  pose proof (N.Div0.mul_div_le n 10). lia.
Qed.

Lemma digits_fuel_enough n fuel acc :
  n = 0 \/ (N.to_nat (N.log2 n) < fuel)%nat ->
  digits_fuel fuel n acc = digits n ++ acc.
Proof.
  revert fuel acc. induction (N.lt_wf_0 n) as [n _ IH]. intros fuel acc Hf.
  destruct (N.eq_dec n 0) as [->|Hn].
  - destruct fuel; reflexivity.
  - destruct Hf as [?|Hf]; [done|].
    assert (Hstep : forall f a, (N.to_nat (N.log2 n) <= f)%nat ->
              digits_fuel (S f) n a = digits (n / 10) ++ (n mod 10) :: a).
    { intros f a Hle. cbn [digits_fuel].
      destruct (N.eqb_spec n 0) as [?|_]; [done|].
      apply IH.
      - apply N.div_lt; lia.
      - destruct (N.eq_dec (n / 10) 0) as [?|Hq]; [by left|right].
        assert (N.log2 (n / 10) < N.log2 n)
          by (apply log2_div10; by apply N.neq_0_lt_0).
        lia. }
    destruct fuel as [|f]; [lia|].
    rewrite Hstep by lia. unfold digits at 2. rewrite Hstep by lia.
    by rewrite <- app_assoc.
Qed.

Lemma digits_0 : digits 0 = [].
Proof. reflexivity. Qed.

Lemma digits_step n : n ≠ 0 -> digits n = digits (n / 10) ++ [(n mod 10)].
Proof.
  intros Hn. unfold digits at 1. cbn [digits_fuel].
  destruct (N.eqb_spec n 0) as [?|_]; [done|].
  apply digits_fuel_enough.
  destruct (N.eq_dec (n / 10) 0) as [?|Hq]; [by left|right].
  assert (N.log2 (n / 10) < N.log2 n)
          by (apply log2_div10; by apply N.neq_0_lt_0).
  lia.
Qed.

Lemma digits_are_digits n : Forall is_digit (digits n).
Proof.
  induction (N.lt_wf_0 n) as [n _ IH].
  destruct (N.eq_dec n 0) as [->|Hn]; [constructor|].
  rewrite digits_step by done. apply Forall_app. split.
  - apply IH. apply N.div_lt; lia.
  - constructor; [|constructor]. unfold is_digit. apply N.mod_lt. lia.
Qed.

Lemma digits_value_snoc ds d :
  digits_value (ds ++ [d]) = (10 * digits_value ds + d).
Proof. unfold digits_value. by rewrite fold_left_app. Qed.

Lemma digits_value_digits n : digits_value (digits n) = n.
Proof.
  induction (N.lt_wf_0 n) as [n _ IH].
  destruct (N.eq_dec n 0) as [->|Hn]; [reflexivity|].
  rewrite digits_step, digits_value_snoc by done.
  rewrite IH by (apply N.div_lt; lia).
  pose proof (N.div_mod n 10). lia.
Qed.

Lemma digits_head n :
  n ≠ 0 -> exists d r, digits n = d :: r /\ d ≠ 0.
Proof.
  induction (N.lt_wf_0 n) as [n _ IH]. intros Hn.
  rewrite digits_step by done.
  destruct (N.eq_dec (n / 10) 0) as [Hq|Hq].
  - rewrite Hq, digits_0. exists (n mod 10), []. split; [done|].
    pose proof (N.div_mod n 10). lia.
  - destruct (IH (n / 10)) as (d & r & -> & Hd); [apply N.div_lt; lia|done|].
    by exists d, (r ++ [(n mod 10)]).
Qed.

Lemma digits_length (k : nat) n :
  (10 ^ N.of_nat k <= n < 10 ^ N.of_nat (S k)) -> length (digits n) = S k.
Proof.
  revert n. induction k as [|k IH]; intros n [Hlo Hhi].
  - change (10 ^ N.of_nat 0) with 1 in Hlo.
    change (10 ^ N.of_nat 1) with 10 in Hhi.
    rewrite digits_step by lia.
    rewrite N.div_small by lia. reflexivity.
  - rewrite Nat2N.inj_succ, N.pow_succ_r' in Hlo.
    rewrite (Nat2N.inj_succ (S k)), N.pow_succ_r' in Hhi.
    assert (n ≠ 0).
    { assert (0 < 10 ^ N.of_nat k) by (apply N.neq_0_lt_0, N.pow_nonzero; lia).
      lia. }
    rewrite digits_step, length_app by done. cbn [length].
    rewrite IH; [lia|]. pose proof (N.div_mod n 10).
    pose proof (N.mod_lt n 10). split.
    + apply N.div_le_lower_bound; lia.
    + apply N.Div0.div_lt_upper_bound; lia.
Qed.

End Digits.

(** *** Number tokens *)

Lemma delimiter_no_digit rest : delimiter rest -> no_digit_head rest.
Proof. intros (r & [-> | ->]); reflexivity. Qed.

Lemma JSONInt_digits ds t :
  Forall is_digit ds -> (exists d r, ds = d :: r /\ d ≠ 0%N) ->
  no_digit_head t ->
  JSONInt (string_of_digits ds +:+ t) = Some (digits_value ds, t).
Proof.
  intros Hds (d & r & -> & Hd) Ht.
  assert (Hint : JSONInt (string_of_digits (d :: r) +:+ t)
            = match DecimalDigits (string_of_digits (d :: r) +:+ t) 0 0 with
              | (_, O, _) => None
              | (v, _, r') => Some (v, r')
              end).
  { cbn [string_of_digits]. rewrite app_String.
    pose proof (Forall_inv Hds) as Hd'. apply digit_cases in Hd'.
    destruct_or!; subst d; try done; reflexivity. }
  rewrite Hint, DecimalDigits_digits by done. reflexivity.
Qed.

Lemma JSONFrac_digits ip ds t :
  Forall is_digit ds -> ds ≠ [] -> no_digit_head t ->
  JSONFrac ip (String "." (string_of_digits ds +:+ t))
  = Some (fold_left shift_digit ds ip, length ds, t).
Proof.
  intros Hds Hne Ht. cbn [JSONFrac]. rewrite DecimalDigits_digits by done.
  destruct ds as [|d r]; [done|]. reflexivity.
Qed.

Lemma JSONFrac_delimiter ip t : delimiter t -> JSONFrac ip t = Some (ip, O, t).
Proof. intros (r & [-> | ->]); reflexivity. Qed.

Lemma JSONExp_delimiter t : delimiter t -> JSONExp t = Some (0, t).
Proof. intros (r & [-> | ->]); reflexivity. Qed.

Lemma JSONExp_digits (neg : bool) (a : N) t :
  a ≠ 0%N -> no_digit_head t ->
  JSONExp (((if neg then "e-" else "e+") +:+ string_of_digits (digits a)) +:+ t)
  = Some ((if neg then - Z.of_N a else Z.of_N a), t).
Proof.
  intros Ha Ht.
  destruct (digits_head a Ha) as (d & r & Hdr & _).
  pose proof (digits_are_digits a) as Hds.
  pose proof (digits_value_digits a) as Hv.
  assert (Hdd : DecimalDigits (string_of_digits (digits a) +:+ t) 0 0
            = (a, length (digits a), t)).
  { rewrite DecimalDigits_digits by done. by rewrite <- digits_value_fold, Hv. }
  rewrite app_assoc_string.
  destruct neg.
  - change (JSONExp ("e-" +:+ string_of_digits (digits a) +:+ t))
      with (match DecimalDigits (string_of_digits (digits a) +:+ t) 0 0 with
            | (_, O, _) => None
            | (v, _, rest) => Some (- Z.of_N v, rest)
            end).
    rewrite Hdd, Hdr. reflexivity.
  - change (JSONExp ("e+" +:+ string_of_digits (digits a) +:+ t))
      with (match DecimalDigits (string_of_digits (digits a) +:+ t) 0 0 with
            | (_, O, _) => None
            | (v, _, rest) => Some (Z.of_N v, rest)
            end).
    rewrite Hdd, Hdr. reflexivity.
Qed.

Lemma shift_zeros j a :
  fold_left shift_digit (replicate j 0%N) a = (a * 10 ^ N.of_nat j)%N.
Proof.
  revert a. induction j as [|j IH]; intros a.
  - cbn [replicate fold_left]. change (N.of_nat 0) with 0%N. rewrite N.pow_0_r. lia.
  - cbn [replicate fold_left]. rewrite IH, Nat2N.inj_succ, N.pow_succ_r'.
    unfold shift_digit. lia.
Qed.

Lemma zeros_are_digits j : Forall is_digit (replicate j 0%N).
Proof. apply Forall_replicate. unfold is_digit. lia. Qed.

Lemma of_decimal_zeros neg v (j : nat) :
  Number.of_decimal neg (v * 10 ^ N.of_nat j) 0
  = Number.of_decimal neg v (Z.of_nat j).
Proof.
  unfold Number.of_decimal.
  rewrite (proj2 (Z.leb_le 0 0)) by lia.
  rewrite (proj2 (Z.leb_le 0 (Z.of_nat j))) by lia.
  f_equal. rewrite N2Z.inj_mul, N2Z.inj_pow, nat_N_Z. lia.
Qed.

Lemma JSONNumber_unsigned_format neg ds n rest :
  Forall is_digit ds -> (exists d r, ds = d :: r /\ d ≠ 0%N) ->
  delimiter rest ->
  JSONNumber_unsigned neg (format_decimal ds n +:+ rest)
  = Some (Number.of_decimal neg (digits_value ds) (n - Z.of_nat (length ds)),
          rest).
Proof.
  intros Hds Hhead Hrest.
  pose proof (delimiter_no_digit rest Hrest) as Hnd.
  unfold format_decimal, JSONNumber_unsigned.
  destruct ((Z.of_nat (length ds) <=? n) && (n <=? 21)) eqn:C1.
  { apply andb_prop in C1 as [C1 C1']. apply Z.leb_le in C1, C1'.
    unfold zeros. rewrite <- string_of_digits_app.
    rewrite JSONInt_digits; [| | |done].
    - rewrite JSONFrac_delimiter, JSONExp_delimiter by done.
      unfold digits_value. rewrite fold_left_app. fold (digits_value ds).
      rewrite shift_zeros. cbn [Z.of_nat]. rewrite Z.sub_0_r.
      rewrite of_decimal_zeros, Z2Nat.id by lia. reflexivity.
    - apply Forall_app. split; [done|apply zeros_are_digits].
    - destruct Hhead as (d & r & -> & Hd). eexists d, _. split; [|done].
      cbn [app]. reflexivity. }
  destruct ((0 <? n) && (n <=? 21)) eqn:C2.
  { apply andb_prop in C2 as [C2 C2']. apply Z.ltb_lt in C2. apply Z.leb_le in C2'.
    apply andb_false_iff in C1 as [C1|C1];
      [apply Z.leb_gt in C1|apply Z.leb_gt in C1; lia].
    rewrite !app_assoc_string. rewrite app_String, app_empty.
    assert (Hlen : (Z.to_nat n < length ds)%nat) by lia.
    rewrite JSONInt_digits.
    - rewrite JSONFrac_digits; [|by apply Forall_drop| |done].
      + rewrite JSONExp_delimiter by done.
        rewrite digits_value_fold, <- fold_left_app, take_drop, <- digits_value_fold.
        do 3 f_equal. rewrite length_drop. lia.
      + intros Hnil. apply (f_equal length) in Hnil.
        rewrite length_drop in Hnil. cbn in Hnil. lia.
    - by apply Forall_take.
    - destruct Hhead as (d & r & -> & Hd). exists d, (take (pred (Z.to_nat n)) r).
      split; [|done]. destruct (Z.to_nat n) eqn:E; [lia|reflexivity].
    - reflexivity. }
  destruct ((-6 <? n) && (n <=? 0)) eqn:C3.
  { apply andb_prop in C3 as [C3 C3']. apply Z.ltb_lt in C3. apply Z.leb_le in C3'.
    rewrite !app_assoc_string. unfold zeros.
    rewrite <- (app_assoc_string (string_of_digits (replicate _ _))
                  (string_of_digits ds) rest).
    rewrite <- string_of_digits_app.
    change (JSONInt ("0." +:+ string_of_digits (replicate (Z.to_nat (- n)) 0%N ++ ds)
                       +:+ rest))
      with (Some (0%N, String "." (string_of_digits
                                     (replicate (Z.to_nat (- n)) 0%N ++ ds) +:+ rest))).
    cbv beta iota.
    rewrite JSONFrac_digits; [| |  |done].
    - rewrite JSONExp_delimiter by done.
      rewrite fold_left_app, shift_zeros, N.mul_0_l, <- digits_value_fold.
      do 3 f_equal. rewrite length_app, length_replicate. lia.
    - apply Forall_app. split; [apply zeros_are_digits|done].
    - destruct Hhead as (d & r & -> & Hd). by destruct (replicate _ _). }
  assert (Hn : n - 1 ≠ 0).
  { apply andb_false_iff in C2, C3.
    destruct C2 as [C2|C2]; [apply Z.ltb_ge in C2|apply Z.leb_gt in C2; lia].
    destruct C3 as [C3|C3]; [apply Z.ltb_ge in C3; lia|apply Z.leb_gt in C3; lia]. }
  assert (Hex : forall t, delimiter t ->
            JSONExp (((if n - 1 <? 0 then "e-" else "e+")
                        +:+ string_of_digits (digits (Z.abs_N (n - 1)))) +:+ t)
            = Some (n - 1, t)).
  { intros t Ht. rewrite JSONExp_digits; [|lia|by apply delimiter_no_digit].
    destruct (Z.ltb_spec (n - 1) 0); do 2 f_equal; lia. }
  destruct Hhead as (d & r & -> & Hd).
  destruct r as [|d' r'].
  - rewrite app_assoc_string.
    rewrite JSONInt_digits; [|done|by exists d, []|by destruct (n - 1 <? 0)].
    assert (Hfe : forall t, JSONFrac (digits_value [d])
              (((if n - 1 <? 0 then "e-" else "e+") +:+ t))
              = Some (digits_value [d], O, (if n - 1 <? 0 then "e-" else "e+") +:+ t)).
    { intros t. by destruct (n - 1 <? 0). }
    rewrite app_assoc_string, Hfe, <- app_assoc_string, Hex by done.
    do 3 f_equal. cbn [length Z.of_nat]. lia.
  - rewrite !app_assoc_string. rewrite (app_String "." ""), app_empty.
    rewrite JSONInt_digits; [|by constructor; [apply (Forall_inv Hds)|]
                             |by exists d, []|reflexivity].
    rewrite <- app_assoc_string.
    assert (Hfrac : forall t, no_digit_head t ->
              JSONFrac (digits_value [d])
                (String "." (string_of_digits (d' :: r') +:+ t))
              = Some (digits_value (d :: d' :: r'), length (d' :: r'), t)).
    { intros t Ht. rewrite JSONFrac_digits; [|by apply (Forall_inv_tail Hds)|done|done].
      reflexivity. }
    rewrite app_assoc_string.
    rewrite Hfrac by (by destruct (n - 1 <? 0)).
    rewrite <- app_assoc_string, Hex by done.
    do 3 f_equal. cbn [length]. lia.
Qed.

(** *** Numbers that are written exactly *)

Lemma digits2_bounds p :
  2 ^ (Zpos (digits2_pos p) - 1) <= Zpos p < 2 ^ Zpos (digits2_pos p).
Proof.
  induction p as [p IH|p IH|]; cbn [digits2_pos].
  - rewrite Pos2Z.inj_succ, (Pos2Z.inj_xI p).
    replace (Z.succ (Zpos (digits2_pos p)) - 1) with (Z.succ (Zpos (digits2_pos p) - 1)) by lia.
    rewrite !Z.pow_succ_r by lia. lia.
  - rewrite Pos2Z.inj_succ, (Pos2Z.inj_xO p).
    replace (Z.succ (Zpos (digits2_pos p)) - 1) with (Z.succ (Zpos (digits2_pos p) - 1)) by lia.
    rewrite !Z.pow_succ_r by lia. lia.
  - cbn. lia.
Qed.

Lemma digits2_unique p d :
  2 ^ (d - 1) <= Zpos p < 2 ^ d -> Zpos (digits2_pos p) = d.
Proof.
  intros [Hlo Hhi]. pose proof (digits2_bounds p) as [Hlo' Hhi'].
  assert (0 < d).
  { destruct (Z.lt_ge_cases 0 d) as [|Hd]; [done|].
    assert (2 ^ d <= 2 ^ 0) by (destruct (Z.lt_ge_cases d 0);
      [rewrite Z.pow_neg_r by done; cbn; lia|apply Z.pow_le_mono_r; lia]).
    cbn in *. lia. }
  assert (d - 1 < Zpos (digits2_pos p)).
  { apply (Z.pow_lt_mono_r_iff 2); [lia|lia|lia]. }
  assert (Zpos (digits2_pos p) - 1 < d).
  { apply (Z.pow_lt_mono_r_iff 2); [lia|lia|lia]. }
  lia.
Qed.

Lemma Zdigits2_shift m j :
  0 <= j -> Zdigits2 (Zpos m * 2 ^ j) = Zpos (digits2_pos m) + j.
Proof.
  intros Hj.
  assert (Hpos : 0 < Zpos m * 2 ^ j) by (apply Z.mul_pos_pos; [lia|apply Z.pow_pos_nonneg; lia]).
  destruct (Zpos m * 2 ^ j) as [|q|q] eqn:Hq; [lia| |lia].
  cbn [Zdigits2]. apply digits2_unique. rewrite <- Hq.
  pose proof (digits2_bounds m) as [Hlo Hhi].
  replace (Zpos (digits2_pos m) + j - 1) with (Zpos (digits2_pos m) - 1 + j) by lia.
  rewrite !Z.pow_add_r by lia.
  assert (0 < 2 ^ j) by (apply Z.pow_pos_nonneg; lia). nia.
Qed.

Lemma Zdigits2_mul_le x y :
  Zdigits2 (Zpos (x * y)) <= Zpos (digits2_pos x) + Zpos (digits2_pos y).
Proof.
  cbn [Zdigits2].
  pose proof (digits2_bounds x) as [_ Hx]. pose proof (digits2_bounds y) as [_ Hy].
  pose proof (digits2_bounds (x * y)) as [Hlo _].
  assert (Zpos (x * y) < 2 ^ (Zpos (digits2_pos x) + Zpos (digits2_pos y))).
  { rewrite Z.pow_add_r, Pos2Z.inj_mul by lia. nia. }
  assert (Zpos (digits2_pos (x * y)) - 1 < Zpos (digits2_pos x) + Zpos (digits2_pos y)).
  { apply (Z.pow_lt_mono_r_iff 2); lia. }
  lia.
Qed.

Lemma iter_pos_commute {A : Type} (f : A -> A) p x :
  SpecFloat.iter_pos f p (f x) = f (SpecFloat.iter_pos f p x).
Proof.
  revert x. induction p as [p IH|p IH|]; intros x; cbn [SpecFloat.iter_pos].
  - by rewrite !IH.
  - by rewrite !IH.
  - reflexivity.
Qed.

Lemma iter_pos_step {A : Type} (f : A -> A) p x :
  SpecFloat.iter_pos f (Pos.succ p) x = f (SpecFloat.iter_pos f p x).
Proof.
  revert x. induction p as [p IH|p IH|]; intros x.
  - change (SpecFloat.iter_pos f (Pos.succ p) (SpecFloat.iter_pos f (Pos.succ p) x)
            = f (SpecFloat.iter_pos f p (SpecFloat.iter_pos f p (f x)))).
    by rewrite !IH, !iter_pos_commute.
  - change (SpecFloat.iter_pos f p (SpecFloat.iter_pos f p (f x))
            = f (SpecFloat.iter_pos f p (SpecFloat.iter_pos f p x))).
    by rewrite !iter_pos_commute.
  - reflexivity.
Qed.

(** Shifting out the zeros of [m * 2^j] leaves [m], and nothing to round. *)
Lemma shr_exact m p :
  SpecFloat.iter_pos shr_1 p
    {| shr_m := Zpos m * 2 ^ Zpos p; shr_r := false; shr_s := false |}
  = {| shr_m := Zpos m; shr_r := false; shr_s := false |}.
Proof.
  revert m. induction p as [|p IH] using Pos.peano_ind; intros m.
  - cbn [SpecFloat.iter_pos]. change (2 ^ 1) with 2. by rewrite Z.mul_comm.
  - rewrite iter_pos_step, <- iter_pos_commute.
    rewrite Pos2Z.inj_succ, Z.pow_succ_r by lia.
    replace (Zpos m * (2 * 2 ^ Zpos p)) with (Zpos (m~0) * 2 ^ Zpos p) by lia.
    assert (Hq : exists q, Zpos (m~0) * 2 ^ Zpos p = Zpos (q~0)).
    { assert (H2 : exists k, 2 ^ Zpos p = Zpos k).
      { assert (0 < 2 ^ Zpos p) by (apply Z.pow_pos_nonneg; lia).
        destruct (2 ^ Zpos p) as [|k|k]; [lia| |lia]. by exists k. }
      destruct H2 as [k ->]. exists (m * k)%positive. lia. }
    destruct Hq as [q Hq]. rewrite Hq. cbn [shr_1 orb].
    assert (Zpos q = Zpos m * 2 ^ Zpos p) as -> by lia.
    apply IH.
Qed.

Lemma fexp_mono a b :
  a <= b -> fexp Number.prec Number.emax a <= fexp Number.prec Number.emax b.
Proof. unfold fexp. lia. Qed.

(** Rounding [m * 2^j * 2^(e-j)], which is the binary64 [m * 2^e], gives
    that number. *)
Lemma round_exact m e j :
  bounded Number.prec Number.emax m e = true -> 0 <= j ->
  binary_round_aux Number.prec Number.emax false (Zpos m * 2 ^ j) (e - j) loc_Exact
  = S754_finite false m e.
Proof.
  intros Hb Hj. unfold bounded in Hb. apply andb_prop in Hb as [Hc He].
  unfold canonical_mantissa in Hc. apply Z.eqb_eq in Hc. apply Z.leb_le in He.
  unfold binary_round_aux.
  assert (Hfirst : shr_fexp Number.prec Number.emax (Zpos m * 2 ^ j) (e - j) loc_Exact
            = ({| shr_m := Zpos m; shr_r := false; shr_s := false |}, e)).
  { unfold shr_fexp. rewrite Zdigits2_shift by done.
    replace (Zpos (digits2_pos m) + j + (e - j)) with (Zpos (digits2_pos m) + e) by lia.
    rewrite Hc. replace (e - (e - j)) with j by lia.
    cbn [shr_record_of_loc]. unfold shr. destruct j as [|p|p]; [|  |lia].
    - f_equal; [|lia]. f_equal. cbn. lia.
    - rewrite shr_exact. f_equal. lia. }
  rewrite Hfirst. cbn [shr_m loc_of_shr_record round_nearest_even].
  assert (Hsecond : shr_fexp Number.prec Number.emax (Zpos m) e loc_Exact
            = ({| shr_m := Zpos m; shr_r := false; shr_s := false |}, e)).
  { unfold shr_fexp. cbn [Zdigits2]. rewrite Hc, Z.sub_diag. reflexivity. }
  rewrite Hsecond. cbn [shr_m].
  by rewrite (proj2 (Z.leb_le _ _) He).
Qed.

Lemma div_eucl_exact a b : 0 < b -> Z.div_eucl (a * b) b = (a, 0).
Proof.
  intros Hb. destruct (Z.div_eucl (a * b) b) as [q r] eqn:Hd.
  assert (q = a * b / b) as -> by (unfold Z.div; by rewrite Hd).
  assert (r = (a * b) mod b) as -> by (unfold Z.modulo; by rewrite Hd).
  by rewrite Z.div_mul, Z.mod_mul by lia.
Qed.

Lemma new_location_exact n : new_location n 0 = loc_Exact.
Proof. unfold new_location. by destruct (Z.even n). Qed.

Lemma canonical_fexp m e :
  bounded Number.prec Number.emax m e = true ->
  fexp Number.prec Number.emax (Zpos (digits2_pos m) + e) = e.
Proof.
  unfold bounded, canonical_mantissa. intros H.
  apply andb_prop in H as [H _]. by apply Z.eqb_eq in H.
Qed.

(** The number of the integer [m * 2^e] is the binary64 [m * 2^e]. *)
Lemma of_ratio_exact_integer m e :
  bounded Number.prec Number.emax m e = true -> 0 <= e ->
  Number.of_ratio false (Zpos m * 2 ^ e) 1 = S754_finite false m e.
Proof.
  intros Hb He. pose proof (canonical_fexp m e Hb) as Hc.
  unfold Number.of_ratio.
  assert (Hpos : 0 < Zpos m * 2 ^ e)
    by (apply Z.mul_pos_pos; [lia|apply Z.pow_pos_nonneg; lia]).
  destruct (Zpos m * 2 ^ e) as [|num|num] eqn:Hnum; [lia| |lia].
  rewrite <- Hnum. unfold SFdiv_core_binary.
  rewrite Zdigits2_shift by done. change (Zdigits2 1) with 1.
  set (e' := Z.min _ _).
  assert (He' : e' <= 0) by (subst e'; lia).
  assert (Hm' : match 0 - 0 - e' with
                | 0 => Zpos m * 2 ^ e
                | Zpos _ => Z.shiftl (Zpos m * 2 ^ e) (0 - 0 - e')
                | Zneg _ => 0
                end = Zpos m * 2 ^ (e - e') * 1).
  { destruct (0 - 0 - e') as [|p|p] eqn:Hs; [| |lia].
    - replace (e - e') with e by lia. lia.
    - rewrite Z.shiftl_mul_pow2 by lia. rewrite <- Hs.
      replace (e - e') with (e + (0 - 0 - e')) by lia.
      rewrite Z.pow_add_r by lia. lia. }
  rewrite Hm', div_eucl_exact by lia. rewrite new_location_exact.
  replace e' with (e - (e - e')) at 2 by lia.
  apply round_exact; [done|lia].
Qed.

(** The number of the decimal [m * 5^a / 10^a] is the binary64
    [m * 2^(-a)]. *)
Lemma of_ratio_exact_fraction m e :
  bounded Number.prec Number.emax m e = true -> e < 0 ->
  Number.of_ratio false (Zpos m * 5 ^ (- e)) (10 ^ (- e)) = S754_finite false m e.
Proof.
  intros Hb He. pose proof (canonical_fexp m e Hb) as Hc.
  unfold Number.of_ratio.
  assert (H5 : exists p5, 5 ^ (- e) = Zpos p5).
  { assert (0 < 5 ^ (- e)) by (apply Z.pow_pos_nonneg; lia).
    destruct (5 ^ (- e)) as [|p|p]; [lia| |lia]. by exists p. }
  destruct H5 as [p5 H5].
  assert (H10 : 10 ^ (- e) = Zpos p5 * 2 ^ (- e)).
  { rewrite <- H5. change 10 with (5 * 2). by rewrite Z.pow_mul_l. }
  rewrite H5, H10. change (Zpos m * Zpos p5) with (Zpos (m * p5)).
  unfold SFdiv_core_binary.
  rewrite (Zdigits2_shift p5 (- e)) by lia.
  set (e' := Z.min _ _).
  assert (He' : e' <= e).
  { subst e'. pose proof (Zdigits2_mul_le m p5).
    pose proof (fexp_mono
      (Zdigits2 (Zpos (m * p5)) + 0 - (Zpos (digits2_pos p5) + - e + 0))
      (Zpos (digits2_pos m) + e)). lia. }
  assert (Hm' : match 0 - 0 - e' with
                | 0 => Zpos (m * p5)
                | Zpos _ => Z.shiftl (Zpos (m * p5)) (0 - 0 - e')
                | Zneg _ => 0
                end = Zpos m * 2 ^ (e - e') * (Zpos p5 * 2 ^ (- e))).
  { destruct (0 - 0 - e') as [|p|p] eqn:Hs; [lia| |lia].
    rewrite Z.shiftl_mul_pow2 by lia. rewrite <- Hs.
    replace (0 - 0 - e') with ((e - e') + (- e)) by lia.
    rewrite Z.pow_add_r by lia. lia. }
  assert (0 < Zpos p5 * 2 ^ (- e))
    by (apply Z.mul_pos_pos; [lia|apply Z.pow_pos_nonneg; lia]).
  rewrite Hm', div_eucl_exact by done. rewrite new_location_exact.
  replace e' with (e - (e - e')) at 2 by lia.
  apply round_exact; [done|lia].
Qed.

(** *** The digits of a number *)

Lemma candidate_spec x M D n k c :
  candidate x M D n k = Some c -> decimal_of x k c = true.
Proof.
  unfold candidate. destruct (if n <=? k then _ else _) as [num den].
  cbv zeta. intros H.
  repeat case_match; simplify_eq; done.
Qed.

Lemma shortest_from_spec fuel x M D n0 k0 s n :
  1 <= k0 ->
  shortest_from fuel x M D n0 k0 = Some (s, n) ->
  exists k, 1 <= k /\ decimal_of x k (s, n) = true.
Proof.
  revert k0. induction fuel as [|fuel IH]; intros k0 Hk H; [done|].
  cbn [shortest_from] in H.
  destruct (candidate x M D n0 k0) as [c|] eqn:Hc.
  - injection H as ->. exists k0. split; [done|]. by apply candidate_spec in Hc.
  - apply (IH (k0 + 1)); [lia|done].
Qed.

Lemma decimal_digits_length (s k : Z) :
  1 <= k -> 10 ^ (k - 1) <= s < 10 ^ k ->
  length (digits (Z.to_N s)) = Z.to_nat k /\ Z.to_N s ≠ 0%N.
Proof.
  intros Hk [Hlo Hhi].
  assert (Hpos : 0 < 10 ^ (k - 1)) by (apply Z.pow_pos_nonneg; lia).
  split; [|lia].
  replace (Z.to_nat k) with (S (Z.to_nat (k - 1))) by lia.
  apply digits_length. split.
  - apply N2Z.inj_le. rewrite N2Z.inj_pow, nat_N_Z, !Z2N.id, Z2Nat.id by lia.
    exact Hlo.
  - apply N2Z.inj_lt. rewrite N2Z.inj_pow, nat_N_Z, !Z2N.id by lia.
    replace (Z.of_nat (S (Z.to_nat (k - 1)))) with k by lia. exact Hhi.
Qed.

Lemma of_decimal_exact m e :
  bounded Number.prec Number.emax m e = true ->
  forall ds n, exact_decimal m e = (ds, n) ->
  Forall is_digit ds
  /\ (exists d r, ds = d :: r /\ d ≠ 0%N)
  /\ Number.of_decimal false (digits_value ds) (n - Z.of_nat (length ds))
     = S754_finite false m e.
Proof.
  intros Hb ds n. unfold exact_decimal.
  destruct (Z.leb_spec 0 e) as [He|He]; intros H; injection H as <- <-.
  - assert (Hpos : 0 < Zpos m * 2 ^ e)
      by (apply Z.mul_pos_pos; [lia|apply Z.pow_pos_nonneg; lia]).
    split; [apply digits_are_digits|]. split; [apply digits_head; lia|].
    rewrite digits_value_digits.
    replace (_ + 0 - _) with 0 by lia.
    unfold Number.of_decimal. cbn [Z.leb Z.compare].
    rewrite Z2N.id, Z.pow_0_r, Z.mul_1_r by lia.
    by apply of_ratio_exact_integer.
  - assert (Hpos : 0 < Zpos m * 5 ^ (- e))
      by (apply Z.mul_pos_pos; [lia|apply Z.pow_pos_nonneg; lia]).
    split; [apply digits_are_digits|]. split; [apply digits_head; lia|].
    rewrite digits_value_digits.
    replace (_ + e - _) with e by lia.
    unfold Number.of_decimal. rewrite (proj2 (Z.leb_gt 0 e)) by done.
    rewrite Z2N.id by lia.
    by apply of_ratio_exact_fraction.
Qed.

(** The digits of [Number::toString] are digits, the first of them is not a
    zero, and they read back as the number. *)
Lemma shortest_decimal_spec m e ds n :
  bounded Number.prec Number.emax m e = true ->
  shortest_decimal m e = (ds, n) ->
  Forall is_digit ds
  /\ (exists d r, ds = d :: r /\ d ≠ 0%N)
  /\ Number.of_decimal false (digits_value ds) (n - Z.of_nat (length ds))
     = S754_finite false m e.
Proof.
  intros Hb. unfold shortest_decimal.
  destruct (if 0 <=? e then _ else _) as [M D].
  destruct (shortest_from _ _ _ _ _ _) as [[s n']|] eqn:Hs;
    [|by apply of_decimal_exact].
  intros H. injection H as <- <-.
  apply shortest_from_spec in Hs as (k & Hk & Hdec); [|lia].
  unfold decimal_of in Hdec.
  apply andb_prop in Hdec as [Hrange Hreads].
  apply andb_prop in Hrange as [Hlo Hhi].
  apply Z.leb_le in Hlo. apply Z.ltb_lt in Hhi.
  apply bool_decide_eq_true in Hreads.
  destruct (decimal_digits_length s k Hk (conj Hlo Hhi)) as [Hlen Hnz].
  split; [apply digits_are_digits|]. split; [by apply digits_head|].
  rewrite digits_value_digits, Hlen, Z2Nat.id by lia. exact Hreads.
Qed.

(** *** The sign of a rounded number *)

Lemma binary_round_aux_sign neg mx ex lx mm ee :
  binary_round_aux Number.prec Number.emax false mx ex lx = S754_finite false mm ee ->
  binary_round_aux Number.prec Number.emax neg mx ex lx = S754_finite neg mm ee.
Proof.
  unfold binary_round_aux.
  destruct (shr_fexp _ _ mx ex lx) as [mrs' e'].
  destruct (shr_fexp _ _ _ e' loc_Exact) as [mrs'' e''].
  destruct (shr_m mrs''); [done| |done].
  destruct (e'' <=? _); [|done]. intros H. by injection H as <- <-.
Qed.

Lemma of_ratio_sign neg num den mm ee :
  Number.of_ratio false num den = S754_finite false mm ee ->
  Number.of_ratio neg num den = S754_finite neg mm ee.
Proof.
  unfold Number.of_ratio. destruct num; [done| |done].
  destruct (SFdiv_core_binary _ _ _ _ _ _) as [[q e] l].
  apply binary_round_aux_sign.
Qed.

Lemma of_decimal_sign neg m e mm ee :
  Number.of_decimal false m e = S754_finite false mm ee ->
  Number.of_decimal neg m e = S754_finite neg mm ee.
Proof.
  unfold Number.of_decimal. destruct (0 <=? e); apply of_ratio_sign.
Qed.

Lemma JSONNumber_unsigned_positive s y :
  JSONNumber_unsigned false s = Some y -> JSONNumber s = Some y.
Proof.
  destruct s as [|c r]; [done|]. intros H.
  destruct c as [[] [] [] [] [] [] [] []];
    first [exact H | vm_compute in H; discriminate H].
Qed.

(** The text of a finite binary64 reads back as the number, and as [0]
    for [-0]. *)
Lemma JSONNumber_toString x rest :
  storable x = true -> delimiter rest ->
  JSONNumber (Number_toString x +:+ rest) = Some (stored x, rest).
Proof.
  intros Hx Hrest. destruct x as [s| | |s m e]; try done.
  - apply JSONNumber_unsigned_positive.
    destruct Hrest as (r & [-> | ->]); reflexivity.
  - unfold storable in Hx. cbn [Number.isFinite andb] in Hx.
    cbn [Number_toString stored].
    destruct (shortest_decimal m e) as [ds n] eqn:Hd.
    apply shortest_decimal_spec in Hd as (Hds & Hhead & Hreads); [|exact Hx].
    pose proof (JSONNumber_unsigned_format s ds n rest Hds Hhead Hrest) as Hnum.
    rewrite (of_decimal_sign s _ _ _ _ Hreads) in Hnum.
    destruct s.
    + rewrite app_assoc_string. exact Hnum.
    + rewrite app_assoc_string, app_empty.
      by apply JSONNumber_unsigned_positive.
Qed.

(** *** String tokens *)

Lemma JSONStringCharacters_quoted c s rest :
  JSONStringCharacters (QuoteJSONString_chars (String c s) +:+ rest)
  = match JSONStringCharacters (QuoteJSONString_chars s +:+ rest) with
    | Some (l, rest') => Some (quoted_char c :: l, rest')
    | None => None
    end.
Proof.
  destruct c as [[] [] [] [] [] [] [] []]; reflexivity.
Qed.

Lemma JSONStringValue_quoted c l :
  JSONStringValue (quoted_char c :: l) = String c (JSONStringValue l).
Proof.
  destruct c as [[] [] [] [] [] [] [] []];
    first [reflexivity | by destruct l as [|[?|?] ?]].
Qed.

Lemma JSONStringCharacters_quote s rest :
  JSONStringCharacters (QuoteJSONString_chars s +:+ String "034" rest)
  = Some (quoted_chars s, rest).
Proof.
  induction s as [|c s IH]; [reflexivity|].
  rewrite JSONStringCharacters_quoted, IH. reflexivity.
Qed.

Lemma JSONStringValue_quoted_chars s : JSONStringValue (quoted_chars s) = s.
Proof.
  induction s as [|c s IH]; [reflexivity|].
  cbn [quoted_chars]. by rewrite JSONStringValue_quoted, IH.
Qed.

(** A quoted string reads back as the string. *)
Lemma JSONString_quote s rest :
  JSONString (QuoteJSONString_chars s +:+ String "034" rest) = Some (s, rest).
Proof.
  unfold JSONString.
  by rewrite JSONStringCharacters_quote, JSONStringValue_quoted_chars.
Qed.

Lemma QuoteJSONString_app s rest :
  QuoteJSONString s +:+ rest
  = String "034" (QuoteJSONString_chars s +:+ String "034" rest).
Proof.
  unfold QuoteJSONString. by rewrite app_String, app_assoc_string.
Qed.

(** *** The text of an entry *)

Lemma JSONValue_quote f r :
  JSONValue (S f) (String "034" r)
  = match JSONString r with
    | Some (str, rest) => Some (Str str, rest)
    | None => None
    end.
Proof. reflexivity. Qed.

Lemma JSONValue_default f s :
  JSONNumber s ≠ None ->
  JSONValue (S f) s
  = match JSONNumber s with
    | Some (x, rest) => Some (Num x, rest)
    | None => None
    end.
Proof.
  intros H. destruct s as [|c r]; [by exfalso; apply H|].
  destruct c as [[] [] [] [] [] [] [] []];
    first [ reflexivity | exfalso; apply H; vm_compute; reflexivity ].
Qed.

Lemma JSONValue_number f s x t :
  JSONNumber s = Some (x, t) -> JSONValue (S f) s = Some (Num x, t).
Proof. intros H. rewrite JSONValue_default; by rewrite H. Qed.

Lemma JSONValue_string f s rest :
  JSONValue (S f) (QuoteJSONString s +:+ rest) = Some (Str s, rest).
Proof. by rewrite QuoteJSONString_app, JSONValue_quote, JSONString_quote. Qed.

Lemma JSONValue_stored f x rest :
  storable x = true -> delimiter rest ->
  JSONValue (S f) (SerializeJSONProperty (Num x) +:+ rest)
  = Some (Num (stored x), rest).
Proof.
  intros Hx Hrest. apply JSONValue_number. cbn [SerializeJSONProperty].
  assert (Number.isFinite x = true) as ->
    by (unfold storable in Hx; by apply andb_prop in Hx as [? _]).
  by apply JSONNumber_toString.
Qed.

Lemma JSONMembers_quote f r acc :
  JSONMembers (S f) (String "034" r) acc
  = match JSONString r with
    | Some (k, r1) =>
        match JSONWhiteSpace r1 with
        | String ":" r2 =>
            match JSONValue f r2 with
            | Some (v, r3) =>
                match JSONWhiteSpace r3 with
                | String "," r4 => JSONMembers f r4 (CreateDataProperty acc k v)
                | String "}" rest => Some (CreateDataProperty acc k v, rest)
                | _ => None
                end
            | None => None
            end
        | _ => None
        end
    | None => None
    end.
Proof. reflexivity. Qed.

Lemma JSONMembers_comma f k text v t acc :
  JSONValue f (text +:+ String "," t) = Some (v, String "," t) ->
  JSONMembers (S f) (QuoteJSONString k +:+ String ":" (text +:+ String "," t)) acc
  = JSONMembers f t (CreateDataProperty acc k v).
Proof.
  intros Hv. rewrite QuoteJSONString_app, JSONMembers_quote, JSONString_quote.
  change (JSONWhiteSpace (String ":" (text +:+ String "," t)))
    with (String ":" (text +:+ String "," t)).
  cbv beta iota. rewrite Hv. reflexivity.
Qed.

Lemma JSONMembers_brace f k text v t acc :
  JSONValue f (text +:+ String "}" t) = Some (v, String "}" t) ->
  JSONMembers (S f) (QuoteJSONString k +:+ String ":" (text +:+ String "}" t)) acc
  = Some (CreateDataProperty acc k v, t).
Proof.
  intros Hv. rewrite QuoteJSONString_app, JSONMembers_quote, JSONString_quote.
  change (JSONWhiteSpace (String ":" (text +:+ String "}" t)))
    with (String ":" (text +:+ String "}" t)).
  cbv beta iota. rewrite Hv. reflexivity.
Qed.

Lemma JSONValue_brace f r :
  JSONValue (S f) (String "{" (String "034" r))
  = match JSONMembers f (String "034" r) [] with
    | Some (m, rest) => Some (Obj m, rest)
    | None => None
    end.
Proof. reflexivity. Qed.

(** The text of an entry, property by property. *)
Lemma entry_text e tail :
  SerializeJSONProperty (TimeEntry.to_value e) +:+ tail
  = String "{"
      (QuoteJSONString "id" +:+ String ":"
        (QuoteJSONString (TimeEntry.id e) +:+ String ","
          (QuoteJSONString "date" +:+ String ":"
            (QuoteJSONString (TimeEntry.date e) +:+ String ","
              (QuoteJSONString "companyName" +:+ String ":"
                (QuoteJSONString (TimeEntry.companyName e) +:+ String ","
                  (QuoteJSONString "hours" +:+ String ":"
                    (SerializeJSONProperty (Num (TimeEntry.hours e)) +:+ String ","
                      (QuoteJSONString "hourlyWage" +:+ String ":"
                        (SerializeJSONProperty (Num (TimeEntry.hourlyWage e))
                           +:+ String ","
                          (QuoteJSONString "totalIncome" +:+ String ":"
                            (SerializeJSONProperty (Num (TimeEntry.totalIncome e))
                               +:+ String "}" tail)))))))))))).
Proof.
  change (SerializeJSONProperty (TimeEntry.to_value e))
    with ("{" +:+
          ((QuoteJSONString "id" +:+ ":" +:+ QuoteJSONString (TimeEntry.id e))
           +:+ "," +:+
           (QuoteJSONString "date" +:+ ":" +:+ QuoteJSONString (TimeEntry.date e))
           +:+ "," +:+
           (QuoteJSONString "companyName" +:+ ":"
              +:+ QuoteJSONString (TimeEntry.companyName e))
           +:+ "," +:+
           (QuoteJSONString "hours" +:+ ":"
              +:+ SerializeJSONProperty (Num (TimeEntry.hours e)))
           +:+ "," +:+
           (QuoteJSONString "hourlyWage" +:+ ":"
              +:+ SerializeJSONProperty (Num (TimeEntry.hourlyWage e)))
           +:+ "," +:+
           (QuoteJSONString "totalIncome" +:+ ":"
              +:+ SerializeJSONProperty (Num (TimeEntry.totalIncome e))))
          +:+ "}").
  rewrite !app_assoc_string. rewrite !app_String, !app_empty. reflexivity.
Qed.

Lemma delimiter_comma t : delimiter (String "," t).
Proof. exists t. by left. Qed.

Lemma delimiter_brace t : delimiter (String "}" t).
Proof. exists t. by right. Qed.

(** The text of a storable entry reads back as the entry. *)
Lemma JSONValue_entry f e tail :
  TimeEntry.storable e = true ->
  JSONValue (S (S (S (S (S (S (S (S f))))))))
    (SerializeJSONProperty (TimeEntry.to_value e) +:+ tail)
  = Some (TimeEntry.to_value (TimeEntry.stored e), tail).
Proof.
  intros He. unfold TimeEntry.storable in He.
  apply andb_prop in He as [He Ht]. apply andb_prop in He as [Hh Hw].
  rewrite entry_text.
  rewrite QuoteJSONString_app at 1. rewrite JSONValue_brace.
  rewrite <- QuoteJSONString_app.
  rewrite (JSONMembers_comma _ _ _ (Str (TimeEntry.id e)))
    by apply JSONValue_string.
  rewrite (JSONMembers_comma _ _ _ (Str (TimeEntry.date e)))
    by apply JSONValue_string.
  rewrite (JSONMembers_comma _ _ _ (Str (TimeEntry.companyName e)))
    by apply JSONValue_string.
  rewrite (JSONMembers_comma _ _ _ (Num (stored (TimeEntry.hours e))))
    by (apply JSONValue_stored; [done|apply delimiter_comma]).
  rewrite (JSONMembers_comma _ _ _ (Num (stored (TimeEntry.hourlyWage e))))
    by (apply JSONValue_stored; [done|apply delimiter_comma]).
  rewrite (JSONMembers_brace _ _ _ (Num (stored (TimeEntry.totalIncome e))))
    by (apply JSONValue_stored; [done|apply delimiter_brace]).
  reflexivity.
Qed.

(** *** The text of a ledger *)

Lemma JSON_stringify_entries es :
  JSON_stringify (values_of_entries es)
  = String "[" (String.concat "," (entry_texts es) +:+ "]").
Proof.
  unfold JSON_stringify, values_of_entries, entry_texts.
  cbn [SerializeJSONProperty]. by rewrite map_map.
Qed.

Lemma concat_entry_texts e e' es :
  String.concat "," (entry_texts (e :: e' :: es))
  = SerializeJSONProperty (TimeEntry.to_value e)
      +:+ "," +:+ String.concat "," (entry_texts (e' :: es)).
Proof. reflexivity. Qed.

Lemma JSONElements_comma f s v r :
  JSONValue f s = Some (v, String "," r) ->
  JSONElements (S f) s
  = match JSONElements f r with
    | Some (l, rest) => Some (v :: l, rest)
    | None => None
    end.
Proof. intros H. cbn [JSONElements]. rewrite H. reflexivity. Qed.

Lemma JSONElements_bracket f s v rest :
  JSONValue f s = Some (v, String "]" rest) ->
  JSONElements (S f) s = Some ([v], rest).
Proof. intros H. cbn [JSONElements]. rewrite H. reflexivity. Qed.

Lemma JSONElements_entries es e f tail :
  Forall (fun e => TimeEntry.storable e = true) (e :: es) ->
  JSONElements (length es + S (S (S (S (S (S (S (S (S f)))))))))
    (String.concat "," (entry_texts (e :: es)) +:+ String "]" tail)
  = Some (map TimeEntry.to_value (map TimeEntry.stored (e :: es)), tail).
Proof.
  revert e. induction es as [|e' es IH]; intros e Hall.
  - cbn [length Nat.add entry_texts map String.concat].
    apply JSONElements_bracket, JSONValue_entry. by apply Forall_inv in Hall.
  - rewrite concat_entry_texts, !app_assoc_string, (app_String "," ""), app_empty.
    cbn [length Nat.add].
    rewrite (JSONElements_comma _ _ (TimeEntry.to_value (TimeEntry.stored e))
               (String.concat "," (entry_texts (e' :: es)) +:+ String "]" tail)).
    + rewrite IH by (by apply Forall_inv_tail in Hall). reflexivity.
    + replace (length es + S (S (S (S (S (S (S (S (S f)))))))))%nat
        with (S (S (S (S (S (S (S (S (length es + S f)))))))))%nat by lia.
      apply JSONValue_entry. by apply Forall_inv in Hall.
Qed.

Lemma entry_text_length e : (2 <= String.length (SerializeJSONProperty (TimeEntry.to_value e)))%nat.
Proof.
  pose proof (entry_text e "") as H.
  apply (f_equal String.length) in H. rewrite length_app_string in H.
  rewrite QuoteJSONString_app in H. cbn [String.length] in H. lia.
Qed.

Lemma concat_length es :
  (2 * length es <= String.length (String.concat "," (entry_texts es)))%nat.
Proof.
  induction es as [|e [|e' es] IH].
  - cbn. lia.
  - cbn [entry_texts map String.concat length]. pose proof (entry_text_length e). lia.
  - rewrite concat_entry_texts, !length_app_string.
    pose proof (entry_text_length e).
    cbn [length] in *. lia.
Qed.

Lemma JSONValue_bracket f r :
  JSONValue (S f) (String "[" (String "{" r))
  = match JSONElements f (String "{" r) with
    | Some (l, rest) => Some (Arr l, rest)
    | None => None
    end.
Proof. reflexivity. Qed.

(** The text of a ledger of storable entries is parsed as the ledger. *)
Lemma JSON_parse_stringify es :
  Forall (fun e => TimeEntry.storable e = true) es ->
  JSON_parse (JSON_stringify (values_of_entries es))
  = Returns (values_of_entries (map TimeEntry.stored es)).
Proof.
  intros Hall. destruct es as [|e es]; [reflexivity|].
  rewrite JSON_stringify_entries. unfold JSON_parse.
  set (text := String "[" _).
  assert (Hlen : (2 * length (e :: es) + 2 <= String.length text)%nat).
  { subst text. cbn [String.length]. rewrite length_app_string.
    pose proof (concat_length (e :: es)). cbn [String.length]. lia. }
  cbn [length] in Hlen.
  replace (2 * String.length text + 2)%nat
    with (S (length es + S (S (S (S (S (S (S (S (S (2 * String.length text - length es - 8)))))))))))%nat
    by lia.
  subst text.
  assert (Hhead : exists r, String.concat "," (entry_texts (e :: es)) +:+ "]"
                            = String "{" r).
  { destruct es as [|e' es].
    - cbn [entry_texts map String.concat]. rewrite entry_text. by eexists.
    - rewrite concat_entry_texts, app_assoc_string, entry_text. by eexists. }
  destruct Hhead as [r Hr]. rewrite Hr, JSONValue_bracket, <- Hr.
  rewrite JSONElements_entries by done. reflexivity.
Qed.

Lemma of_value_to_value e : TimeEntry.of_value (TimeEntry.to_value e) = Some e.
Proof. by destruct e. Qed.

Lemma entries_of_values es : entries_of_value (values_of_entries es) = Some es.
Proof.
  unfold entries_of_value, values_of_entries. rewrite map_fmap.
  apply mapM_fmap_Some. exact of_value_to_value.
Qed.

(** *** Rounding gives binary64 values *)

Lemma Zdigits2_nonneg m : 0 <= Zdigits2 m.
Proof. destruct m; cbn; lia. Qed.

Lemma Zdigits2_bounds m :
  0 < m -> 2 ^ (Zdigits2 m - 1) <= m < 2 ^ Zdigits2 m.
Proof. destruct m as [|p|p]; [lia| |lia]. intros _. apply digits2_bounds. Qed.

Lemma Zdigits2_unique m d :
  0 < m -> 2 ^ (d - 1) <= m < 2 ^ d -> Zdigits2 m = d.
Proof. destruct m as [|p|p]; [lia| |lia]. intros _. apply digits2_unique. Qed.

Lemma Zdigits2_pos m : 0 < m -> 0 < Zdigits2 m.
Proof. destruct m; cbn; lia. Qed.

Lemma Zdigits2_ge m k : 0 <= k -> 2 ^ k <= m -> k < Zdigits2 m.
Proof.
  intros Hk Hm.
  assert (0 < m) by (pose proof (Z.pow_pos_nonneg 2 k); lia).
  pose proof (Zdigits2_bounds m) as [_ Hhi]; [done|].
  apply (Z.pow_lt_mono_r_iff 2); [lia|apply Zdigits2_nonneg|lia].
Qed.

Lemma Zdigits2_mono m1 m2 : 0 <= m1 <= m2 -> Zdigits2 m1 <= Zdigits2 m2.
Proof.
  intros [H1 H2]. destruct (Z.eq_dec m1 0) as [->|Hne].
  - apply Zdigits2_nonneg.
  - pose proof (Zdigits2_bounds m1) as [Hlo _]; [lia|].
    pose proof (Zdigits2_pos m1).
    assert (Zdigits2 m1 - 1 < Zdigits2 m2) by (apply Zdigits2_ge; lia). lia.
Qed.

Lemma Zdigits2_div m n :
  0 <= m -> 0 <= n -> Zdigits2 (m / 2 ^ n) = Z.max 0 (Zdigits2 m - n).
Proof.
  intros Hm Hn. assert (Hp : 0 < 2 ^ n) by (apply Z.pow_pos_nonneg; lia).
  destruct (Z.eq_dec m 0) as [->|Hne].
  { rewrite Z.div_0_l by lia. cbn. lia. }
  pose proof (Zdigits2_bounds m) as [Hlo Hhi]; [lia|].
  pose proof (Zdigits2_pos m).
  destruct (Z.le_gt_cases (Zdigits2 m) n) as [Hle|Hgt].
  - rewrite Z.div_small; [cbn; lia|]. split; [lia|].
    assert (2 ^ Zdigits2 m <= 2 ^ n) by (apply Z.pow_le_mono_r; lia). lia.
  - rewrite Z.max_r by lia. apply Zdigits2_unique.
    + apply Z.div_str_pos. split; [done|].
      assert (2 ^ n <= 2 ^ (Zdigits2 m - 1)) by (apply Z.pow_le_mono_r; lia). lia.
    + assert (E1 : 2 ^ (Zdigits2 m - 1) = 2 ^ (Zdigits2 m - n - 1) * 2 ^ n)
        by (rewrite <- Z.pow_add_r by lia; f_equal; lia).
      assert (E2 : 2 ^ Zdigits2 m = 2 ^ (Zdigits2 m - n) * 2 ^ n)
        by (rewrite <- Z.pow_add_r by lia; f_equal; lia).
      rewrite E1 in Hlo. rewrite E2 in Hhi. split.
      * apply Z.div_le_lower_bound; lia.
      * apply Z.div_lt_upper_bound; lia.
Qed.

Lemma shr_1_m mrs : 0 <= shr_m mrs -> shr_m (shr_1 mrs) = shr_m mrs / 2.
Proof.
  destruct mrs as [m r s]. cbn [shr_m]. intros Hm.
  destruct m as [|[p|p|]|p]; cbn [shr_1 shr_m].
  - reflexivity.
  - rewrite (Pos2Z.inj_xI p). apply (Z.div_unique _ _ _ 1); lia.
  - rewrite (Pos2Z.inj_xO p). apply (Z.div_unique _ _ _ 0); lia.
  - reflexivity.
  - lia.
Qed.

Lemma iter_shr_m p mrs :
  0 <= shr_m mrs ->
  shr_m (SpecFloat.iter_pos shr_1 p mrs) = shr_m mrs / 2 ^ Zpos p.
Proof.
  intros Hm. induction p as [|p IH] using Pos.peano_ind.
  - cbn [SpecFloat.iter_pos]. by rewrite shr_1_m.
  - rewrite iter_pos_step, shr_1_m, IH.
    + rewrite Pos2Z.inj_succ, Z.pow_succ_r, Z.div_div by lia.
      f_equal. lia.
    + rewrite IH. apply Z.div_pos; [done|]. apply Z.pow_pos_nonneg; lia.
Qed.

(** The shift of [shr_fexp]: the mantissa is divided by the power of two
    that brings the exponent to that of the format. *)
Lemma shr_fexp_spec m e l :
  0 <= m ->
  let n := fexp Number.prec Number.emax (Zdigits2 m + e) - e in
  shr_m (fst (shr_fexp Number.prec Number.emax m e l)) = m / 2 ^ Z.max 0 n
  /\ snd (shr_fexp Number.prec Number.emax m e l) = e + Z.max 0 n.
Proof.
  intros Hm n. unfold shr_fexp, shr. fold n.
  assert (Hrec : shr_m (shr_record_of_loc m l) = m) by (by destruct l as [|[]]).
  destruct n as [|p|p] eqn:Hn; cbn [fst snd].
  - rewrite Hrec. cbn. rewrite Z.div_1_r. lia.
  - rewrite iter_shr_m, Hrec by (rewrite Hrec; lia). split; [reflexivity|lia].
  - rewrite Hrec. cbn. rewrite Z.div_1_r. lia.
Qed.

(** After the shift the mantissa is null, at the least exponent, or it is
    canonical. *)
Lemma shr_fexp_canonical m e l :
  0 <= m -> e <= fexp Number.prec Number.emax (Zdigits2 m + e) ->
  let m' := shr_m (fst (shr_fexp Number.prec Number.emax m e l)) in
  let e' := snd (shr_fexp Number.prec Number.emax m e l) in
  (m' = 0 /\ e' = emin)
  \/ (0 < m' /\ fexp Number.prec Number.emax (Zdigits2 m' + e') = e').
Proof.
  intros Hm He m' e'. subst m' e'.
  destruct (shr_fexp_spec m e l Hm) as [-> ->].
  set (n := fexp Number.prec Number.emax (Zdigits2 m + e) - e) in *.
  assert (Hn : 0 <= n) by (subst n; lia). rewrite Z.max_r by done.
  pose proof (Zdigits2_div m n Hm Hn) as Hd.
  pose proof (Zdigits2_nonneg m) as Hd0.
  assert (Hq : 0 <= m / 2 ^ n) by (apply Z.div_pos; [done|apply Z.pow_pos_nonneg; lia]).
  destruct (Z.eq_dec (m / 2 ^ n) 0) as [Hz|Hnz].
  - left. split; [done|]. rewrite Hz in Hd. cbn in Hd.
    subst n. unfold fexp, emin, SpecFloat.emin, Number.prec, Number.emax in *. lia.
  - right. split; [lia|].
    assert (0 < Zdigits2 (m / 2 ^ n)) by (apply Zdigits2_pos; lia).
    rewrite Hd in *. subst n.
    unfold fexp, emin, SpecFloat.emin, Number.prec, Number.emax in *. lia.
Qed.

Lemma round_nearest_even_cases m l :
  round_nearest_even m l = m \/ round_nearest_even m l = m + 1.
Proof.
  destruct l as [|[]]; cbn [round_nearest_even]; try destruct (Z.even m); auto.
Qed.

(** What [binary_round_aux] returns is a binary64 when its mantissa has
    digits enough for the exponent of the format. *)
Lemma binary_round_aux_valid sx mx ex lx :
  0 <= mx -> ex <= fexp Number.prec Number.emax (Zdigits2 mx + ex) ->
  Number.valid (binary_round_aux Number.prec Number.emax sx mx ex lx) = true.
Proof.
  intros Hm He. unfold binary_round_aux.
  pose proof (shr_fexp_canonical mx ex lx Hm He) as H1. cbv zeta in H1.
  destruct (shr_fexp Number.prec Number.emax mx ex lx) as [mrs' e'].
  cbn [fst snd] in H1.
  set (m2 := round_nearest_even (shr_m mrs') (loc_of_shr_record mrs')).
  assert (Hm2 : 0 <= m2 /\ (m2 = 0 \/ e' <= fexp Number.prec Number.emax (Zdigits2 m2 + e'))).
  { pose proof (round_nearest_even_cases (shr_m mrs') (loc_of_shr_record mrs')) as Hr.
    fold m2 in Hr. destruct H1 as [[Hz He']|[Hp Hc]].
    - rewrite Hz in Hr. split; [lia|]. destruct Hr as [->| ->]; [by left|right].
      rewrite He'. vm_compute. discriminate.
    - split; [lia|right]. rewrite <- Hc at 1. apply fexp_mono.
      assert (Zdigits2 (shr_m mrs') <= Zdigits2 m2) by (apply Zdigits2_mono; lia).
      lia. }
  destruct Hm2 as [Hm2 Hc2].
  destruct Hc2 as [Hz|Hc2].
  { rewrite Hz. by destruct (shr_fexp _ _ 0 e' loc_Exact) as [mrs'' e''] eqn:E;
      pose proof (shr_fexp_spec 0 e' loc_Exact (Z.le_refl 0)) as [Hs _];
      rewrite E in Hs; cbn [fst] in Hs; rewrite Z.div_0_l in Hs
        by (apply Z.pow_nonzero; lia); rewrite Hs. }
  pose proof (shr_fexp_canonical m2 e' loc_Exact Hm2 Hc2) as H2. cbv zeta in H2.
  destruct (shr_fexp Number.prec Number.emax m2 e' loc_Exact) as [mrs'' e''].
  cbn [fst snd] in H2.
  destruct H2 as [[Hz _]|[Hp Hc]].
  - by rewrite Hz.
  - destruct (shr_m mrs'') as [|m3|m3]; [done| |lia].
    destruct (e'' <=? Number.emax - Number.prec) eqn:Hb; [|done].
    unfold Number.valid, valid_binary, bounded, canonical_mantissa.
    cbn [Zdigits2] in Hc. rewrite Hc, Z.eqb_refl. exact Hb.
Qed.

Lemma of_ratio_valid neg num den :
  0 < den -> Number.valid (Number.of_ratio neg num den) = true.
Proof.
  intros Hden. unfold Number.of_ratio. destruct num as [|num|num]; [done| |done].
  unfold SFdiv_core_binary.
  set (d1 := Zdigits2 (Zpos num)). set (d2 := Zdigits2 den).
  set (e' := Z.min _ _).
  assert (He' : e' <= 0) by (subst e'; lia).
  set (m' := match 0 - 0 - e' with 0 => _ | Zpos _ => _ | Zneg _ => _ end).
  assert (Hm' : m' = Zpos num * 2 ^ (- e')).
  { subst m'. destruct (0 - 0 - e') as [|p|p] eqn:Hs; [| |lia].
    - replace (- e') with 0 by lia. lia.
    - rewrite Z.shiftl_mul_pow2 by lia. do 2 f_equal. lia. }
  destruct (Z.div_eucl m' den) as [q r] eqn:Hd.
  assert (Hq : q = m' / den) by (unfold Z.div; by rewrite Hd).
  assert (Hp : 0 < 2 ^ (- e')) by (apply Z.pow_pos_nonneg; lia).
  assert (Hq0 : 0 <= q) by (rewrite Hq; apply Z.div_pos; lia).
  apply binary_round_aux_valid; [done|].
  pose proof (Zdigits2_bounds (Zpos num)) as [Hn1 _]; [lia|].
  pose proof (Zdigits2_bounds den Hden) as [_ Hn2]. fold d1 in Hn1. fold d2 in Hn2.
  pose proof (Zdigits2_nonneg q) as Hdq.
  assert (Hk : d1 - e' - d2 <= Zdigits2 q \/ d1 - e' - d2 <= 0).
  { destruct (Z.le_gt_cases (d1 - e' - d2) 0) as [|Hk]; [by right|left].
    assert (d1 - e' - d2 - 1 < Zdigits2 q); [|lia].
    apply Zdigits2_ge; [lia|]. rewrite Hq.
    apply Z.div_le_lower_bound; [done|]. rewrite Hm'.
    assert (0 < d2) by (apply Zdigits2_pos; lia).
    assert (0 < d1) by (apply Zdigits2_pos; lia).
    assert (E : 2 ^ (d1 - 1) * 2 ^ (- e') = 2 ^ (d1 - e' - d2 - 1) * 2 ^ d2)
      by (rewrite <- !Z.pow_add_r by lia; f_equal; lia).
    assert (0 < 2 ^ (d1 - e' - d2 - 1)) by (apply Z.pow_pos_nonneg; lia).
    nia. }
  subst e'. unfold fexp, SpecFloat.emin, Number.prec, Number.emax in *.
  fold d1 d2 in Hk |- *. lia.
Qed.

Lemma of_decimal_valid neg m e : Number.valid (Number.of_decimal neg m e) = true.
Proof.
  unfold Number.of_decimal.
  destruct (Z.leb_spec 0 e); apply of_ratio_valid; [lia|].
  apply Z.pow_pos_nonneg; lia.
Qed.

(** [parseFloat] returns a binary64. *)
Lemma parseFloat_valid s : Number.valid (parseFloat s) = true.
Proof.
  unfold parseFloat. destruct (Sign _) as [neg s0].
  destruct (String.prefix _ _); [done|].
  destruct (DecimalDigits s0 0 0) as [[ip ni] s1].
  destruct (Fraction ip s1) as [[m nf] s2].
  destruct ni, nf; try done; apply of_decimal_valid.
Qed.

(** The product of two binary64 is a binary64. *)
Lemma mul_valid x y :
  Number.valid x = true -> Number.valid y = true ->
  Number.valid (Number.mul x y) = true.
Proof.
  destruct x as [sx|sx| |sx mx ex], y as [sy|sy| |sy my ey]; try done.
  intros Hx Hy. cbn [Number.mul SFmul]. apply binary_round_aux_valid; [lia|].
  pose proof (canonical_fexp mx ex Hx) as Hcx.
  pose proof (canonical_fexp my ey Hy) as Hcy.
  pose proof (digits2_bounds mx) as [Hx1 _]. pose proof (digits2_bounds my) as [Hy1 _].
  assert (Hd : Zpos (digits2_pos mx) + Zpos (digits2_pos my) - 2
               < Zdigits2 (Zpos (mx * my))).
  { apply Zdigits2_ge; [lia|].
    replace (Zpos (digits2_pos mx) + Zpos (digits2_pos my) - 2)
      with ((Zpos (digits2_pos mx) - 1) + (Zpos (digits2_pos my) - 1)) by lia.
    rewrite Z.pow_add_r, Pos2Z.inj_mul by lia.
    assert (0 < 2 ^ (Zpos (digits2_pos mx) - 1)) by (apply Z.pow_pos_nonneg; lia).
    assert (0 < 2 ^ (Zpos (digits2_pos my) - 1)) by (apply Z.pow_pos_nonneg; lia).
    nia. }
  unfold fexp, SpecFloat.emin, Number.prec, Number.emax in *. lia.
Qed.

(** *** What is parsed holds binary64 values *)

Lemma JSONNumber_sign s :
  exists neg s', JSONNumber s = JSONNumber_unsigned neg s'.
Proof.
  destruct s as [|c r]; [by exists false, EmptyString|].
  destruct c as [[] [] [] [] [] [] [] []]; by (eexists _, _).
Qed.

Lemma JSONNumber_valid s x r :
  JSONNumber s = Some (x, r) -> Number.valid x = true.
Proof.
  destruct (JSONNumber_sign s) as (neg & s' & ->).
  unfold JSONNumber_unsigned.
  destruct (JSONInt s') as [[ip s1]|]; [|done].
  destruct (JSONFrac ip s1) as [[[m nf] s2]|]; [|done].
  destruct (JSONExp s2) as [[ex s3]|]; [|done].
  intros H. injection H as <- _. apply of_decimal_valid.
Qed.

Lemma CreateDataProperty_valid acc k v :
  members_valid acc = true -> value_valid v = true ->
  members_valid (CreateDataProperty acc k v) = true.
Proof.
  intros Hacc Hv. induction acc as [|[k' v'] acc IH].
  - cbn. by rewrite Hv.
  - cbn [CreateDataProperty]. cbn [members_valid forallb] in Hacc.
    apply andb_prop in Hacc as [Hv' Hacc].
    destruct (String.eqb k' k); cbn [members_valid forallb].
    + by rewrite Hv, Hacc.
    + rewrite Hv'. by apply IH.
Qed.

Lemma JSONValue_cases f s v r :
  JSONValue (S f) s = Some (v, r) ->
  v = Null \/ (exists b, v = Bool b) \/ (exists str, v = Str str)
  \/ v = Arr [] \/ v = Obj []
  \/ (exists t l, JSONElements f t = Some (l, r) /\ v = Arr l)
  \/ (exists t m, JSONMembers f t [] = Some (m, r) /\ v = Obj m)
  \/ (exists t x, JSONNumber t = Some (x, r) /\ v = Num x).
Proof.
  cbn [JSONValue]. intros H.
  repeat case_match; simplify_eq; eauto 12.
Qed.

Lemma JSON_valid fuel :
  (forall s v r, JSONValue fuel s = Some (v, r) -> value_valid v = true)
  /\ (forall s l r, JSONElements fuel s = Some (l, r) ->
        forallb value_valid l = true)
  /\ (forall s acc m r, members_valid acc = true ->
        JSONMembers fuel s acc = Some (m, r) -> members_valid m = true).
Proof.
  induction fuel as [|f (IHv & IHe & IHm)]; [by repeat split|].
  split; [|split].
  - intros s v r H. apply JSONValue_cases in H.
    destruct H as [->|[[b ->]|[[str ->]|[->|[->|[(t & l & H & ->)
                  |[(t & m & H & ->)|(t & x & H & ->)]]]]]]]; try done.
    + cbn [value_valid]. by eapply IHe.
    + change (members_valid m = true). by eapply (IHm t []).
    + cbn [value_valid]. by apply JSONNumber_valid in H.
  - intros s l r H. cbn [JSONElements] in H.
    destruct (JSONValue f s) as [[v r1]|] eqn:Hv; [|done].
    apply IHv in Hv.
    repeat case_match; simplify_eq; cbn [forallb]; rewrite Hv; cbn [andb];
      first [done | by eapply IHe].
  - intros s acc m r Hacc H. cbn [JSONMembers] in H.
    repeat case_match; simplify_eq;
      match goal with
      | Hv : JSONValue _ _ = Some (?v, _) |- _ =>
          apply IHv in Hv;
          pose proof (fun k => CreateDataProperty_valid acc k v Hacc Hv) as Hcdp
      end; first [by apply Hcdp | eapply IHm; [apply Hcdp|eassumption]].
Qed.

Lemma JSON_parse_valid text v :
  JSON_parse text = Returns v -> value_valid v = true.
Proof.
  unfold JSON_parse.
  destruct (JSONValue _ text) as [[v' rest]|] eqn:Hv; [|done].
  destruct (JSONWhiteSpace rest); [|done]. intros H. injection H as <-.
  by apply JSON_valid in Hv.
Qed.

Lemma of_value_valid v e :
  value_valid v = true -> TimeEntry.of_value v = Some e -> TimeEntry.valid e = true.
Proof.
  intros Hv H. unfold TimeEntry.of_value in H.
  repeat case_match; simplify_eq.
  cbn [value_valid forallb] in Hv. unfold TimeEntry.valid.
  cbn [TimeEntry.hours TimeEntry.hourlyWage TimeEntry.totalIncome].
  repeat (apply andb_prop in Hv as [? Hv]).
  by repeat (apply andb_true_intro; split).
Qed.

Lemma entries_of_value_valid v es :
  value_valid v = true -> entries_of_value v = Some es ->
  Forall (fun e => TimeEntry.valid e = true) es.
Proof.
  destruct v as [| | | |l|]; try done. cbn [value_valid entries_of_value].
  revert es. induction l as [|x l IH]; intros es Hl H.
  - injection H as <-. constructor.
  - cbn [forallb] in Hl. apply andb_prop in Hl as [Hx Hl].
    rewrite mapM_Some in H. destruct es as [|e es]; [by inversion H|].
    apply Forall2_cons_1 in H as [He Hes]. constructor.
    + by eapply of_value_valid.
    + apply IH; [done|]. by apply mapM_Some.
Qed.

(** *** The worlds of a session *)

Lemma persist_synced st ls : synced (App.World st (App.persist st ls)).
Proof. unfold synced, App.persist, getItem, setItem. cbn. apply lookup_insert_eq. Qed.

Lemma initialEntries_valid ls v :
  App.initialEntries ls = Returns v -> value_valid v = true.
Proof.
  unfold App.initialEntries. destruct (getItem ls "timeEntries") as [saved|].
  - case_bool_decide; [by intros [= <-]|]. apply JSON_parse_valid.
  - by intros [= <-].
Qed.

Lemma newEntry_valid now today st :
  TimeEntry.valid (App.newEntry now today st) = true.
Proof.
  unfold TimeEntry.valid, App.newEntry.
  cbn [TimeEntry.hours TimeEntry.hourlyWage TimeEntry.totalIncome].
  by rewrite !parseFloat_valid, mul_valid by apply parseFloat_valid.
Qed.

(** In every world of a session the numbers of the entries are binary64
    values and the storage holds the text of the entries. *)
Lemma reachable_invariant w :
  App.reachable w ->
  Forall (fun e => TimeEntry.valid e = true) (App.entries (App.hooks w))
  /\ synced w.
Proof.
  induction 1 as [ls w Hm|ev w Hw [IHv IHs]].
  - unfold App.mount, App.init in Hm.
    destruct (App.initialEntries ls) as [v|e|v] eqn:Hi; [|done..].
    destruct (entries_of_value v) as [es|] eqn:He; [|done].
    injection Hm as <-. split; [|apply persist_synced].
    apply (entries_of_value_valid v); [|done]. by apply initialEntries_valid in Hi.
  - destruct ev; try (split; [exact IHv|exact IHs]).
    + split; [|apply persist_synced].
      cbn [App.step App.hooks App.handleSubmit App.entries].
      apply Forall_app. split; [done|]. constructor; [|constructor].
      apply newEntry_valid.
    + split; [|apply persist_synced].
      cbn [App.step App.hooks App.deleteEntry App.entries].
      apply Forall_forall. intros e He. apply list_elem_of_filter in He as [_ He].
      by apply (proj1 (Forall_forall _ _) IHv).
Qed.

Lemma reachable_empty : App.reachable empty_ledger.
Proof. by apply (App.reachable_mount ∅). Qed.

Lemma reachable_append c h g now today w :
  App.reachable w -> App.reachable (Ledger.exec (Ledger.append c h g now today) w).
Proof. intros Hw. by do 4 apply App.reachable_step. Qed.

Lemma reachable_appends cs w :
  App.reachable w -> App.reachable (Ledger.appends cs w).
Proof.
  revert w. induction cs as [|c cs IH]; intros w Hw; [done|].
  rewrite appends_cons. by apply IH, reachable_append.
Qed.

Lemma reachable_remove i w :
  App.reachable w -> App.reachable (Ledger.exec (Ledger.remove i) w).
Proof. apply App.reachable_step. Qed.

Lemma entry_storable e :
  TimeEntry.valid e = true -> TimeEntry.finite e = true ->
  TimeEntry.storable e = true.
Proof.
  unfold TimeEntry.valid, TimeEntry.finite, TimeEntry.storable, storable.
  intros Hv Hf.
  apply andb_prop in Hv as [Hv Hv3]. apply andb_prop in Hv as [Hv1 Hv2].
  apply andb_prop in Hf as [Hf Hf3]. apply andb_prop in Hf as [Hf1 Hf2].
  by rewrite Hf1, Hv1, Hf2, Hv2, Hf3, Hv3.
Qed.

(** *** Persisting and loading again *)

(** C7, as stated, fails: [JSON.stringify] prints [NaN] as [null], and the
    ledger that is loaded from that text has no number where the entry had
    [NaN]. *)
Lemma reload_loses_NaN :
  getItem (App.localStorage tainted) "timeEntries"
  = Some (double_quotes
      "[{'id':'1700000000000','date':'2023-11-14','companyName':'Acme','hours':null,'hourlyWage':1000,'totalIncome':null}]")
  /\ Ledger.reload tainted
     = Untyped
         (Arr [Obj [("id", Str "1700000000000"); ("date", Str "2023-11-14");
                    ("companyName", Str "Acme"); ("hours", Null);
                    ("hourlyWage", Num (Number.of_Z 1000));
                    ("totalIncome", Null)]])
  /\ ~ exists w', Ledger.reload tainted = Returns w'
                  /\ Ledger.eval Ledger.list w' = Ledger.eval Ledger.list tainted.
Proof.
  split; [vm_compute; reflexivity|].
  split; [vm_compute; reflexivity|].
  intros (w' & H & _). vm_compute in H. discriminate H.
Qed.

(** So it is with an income that overflows. *)
Example reload_loses_Infinity :
  let w :=
    Ledger.exec (Ledger.append "Acme" "1e200" "1e200" 1700000000000 1700000000000)
      empty_ledger in
  map TimeEntry.totalIncome (Ledger.eval Ledger.list w) = [S754_infinity false]
  /\ Ledger.reload w
     = Untyped
         (Arr [Obj [("id", Str "1700000000000"); ("date", Str "2023-11-14");
                    ("companyName", Str "Acme"); ("hours", Num (parseFloat "1e200"));
                    ("hourlyWage", Num (parseFloat "1e200"));
                    ("totalIncome", Null)]]).
Proof. vm_compute. split; reflexivity. Qed.

Lemma strict_eq_stored x :
  storable x = true -> Number.strict_eq x (stored x) = true.
Proof.
  destruct x as [[]| | |[] m e]; try done; intros _;
    unfold Number.strict_eq, SFeqb; cbn [stored SFcompare];
    by rewrite Z.compare_refl, Pos.compare_cont_refl.
Qed.

Lemma entry_strict_eq_stored e :
  TimeEntry.storable e = true -> TimeEntry.strict_eq e (TimeEntry.stored e) = true.
Proof.
  unfold TimeEntry.storable, TimeEntry.strict_eq. intros He.
  apply andb_prop in He as [He Ht]. apply andb_prop in He as [Hh Hw].
  cbn [TimeEntry.id TimeEntry.date TimeEntry.companyName TimeEntry.hours
       TimeEntry.hourlyWage TimeEntry.totalIncome TimeEntry.stored].
  by rewrite !String.eqb_refl, !strict_eq_stored.
Qed.

Lemma entries_strict_eq_stored es :
  Forall (fun e => TimeEntry.storable e = true) es ->
  Forall2 (fun e e' => TimeEntry.strict_eq e e' = true)
    es (map TimeEntry.stored es).
Proof.
  induction 1 as [|e es He Hes IH]; constructor; [|exact IH].
  by apply entry_strict_eq_stored.
Qed.

Lemma initialEntries_synced ls es :
  getItem ls "timeEntries" = Some (JSON_stringify (values_of_entries es)) ->
  Forall (fun e => TimeEntry.storable e = true) es ->
  App.initialEntries ls = Returns (values_of_entries (map TimeEntry.stored es)).
Proof.
  intros Hls Hall. unfold App.initialEntries. rewrite Hls.
  rewrite bool_decide_eq_false_2; [by apply JSON_parse_stringify|].
  by rewrite JSON_stringify_entries.
Qed.

(** C7, amended.  In every world of a session in which the hours, the
    hourly wage and the income of every entry are finite numbers, neither
    [NaN] nor an infinity, the ledger that is loaded from the text that the
    effect has stored has the same entries in the same order: the same id,
    date and company name, and numbers that are [===] to those of the
    entry, which are the same numbers but for [-0], read back as [0]. *)
Theorem persist_reload (w : App.world) :
  App.reachable w ->
  Forall (fun e => TimeEntry.finite e = true) (Ledger.eval Ledger.list w) ->
  exists w',
    Ledger.reload w = Returns w'
    /\ Ledger.eval Ledger.list w' = map TimeEntry.stored (Ledger.eval Ledger.list w)
    /\ Forall2 (fun e e' => TimeEntry.strict_eq e e' = true)
         (Ledger.eval Ledger.list w) (Ledger.eval Ledger.list w').
Proof.
  intros Hw Hfin. destruct (reachable_invariant w Hw) as [Hval Hsync].
  change (Ledger.eval Ledger.list w) with (App.entries (App.hooks w)) in *.
  assert (Hall : Forall (fun e => TimeEntry.storable e = true)
                   (App.entries (App.hooks w))).
  { apply Forall_forall. intros e He. apply entry_storable.
    - by apply (proj1 (Forall_forall _ _) Hval).
    - by apply (proj1 (Forall_forall _ _) Hfin). }
  unfold Ledger.reload, App.mount, App.init.
  rewrite (initialEntries_synced _ _ Hsync Hall), entries_of_values.
  eexists. split; [reflexivity|]. split; [reflexivity|].
  by apply entries_strict_eq_stored.
Qed.

Lemma persist_reload_witness :
  exists w',
    Ledger.reload twice = Returns w'
    /\ Ledger.eval Ledger.list w' = Ledger.eval Ledger.list twice.
Proof.
  destruct (persist_reload twice) as (w' & Hw & Hl & _).
  - apply reachable_appends, reachable_empty.
  - repeat (constructor; [vm_compute; reflexivity|]). constructor.
  - exists w'. split; [exact Hw|]. rewrite Hl. vm_compute. reflexivity.
Defined.

(** * Further properties of the component *)

(** ** The storage *)

(** X1.  In every world of a session the text stored under [timeEntries]
    is [JSON.stringify] of the entries of the component: the effect has
    run after the first render and after every change of [entries]. *)
Theorem storage_holds_entries (w : App.world) :
  App.reachable w ->
  getItem (App.localStorage w) "timeEntries"
  = Some (JSON_stringify (values_of_entries (App.entries (App.hooks w)))).
Proof. intros Hw. by destruct (reachable_invariant w Hw) as [_ Hs]. Qed.

Lemma storage_holds_entries_witness :
  getItem (App.localStorage twice) "timeEntries"
  = Some (JSON_stringify (values_of_entries (App.entries (App.hooks twice)))).
Proof.
  apply (storage_holds_entries twice), reachable_appends, reachable_empty.
Defined.

(** X2.  The component writes under the key [timeEntries] only: no event
    and no first render changes what the storage holds under another
    key. *)
Theorem other_keys_untouched (key : string) :
  key ≠ "timeEntries" ->
  (forall ev w,
     getItem (App.localStorage (App.step ev w)) key
     = getItem (App.localStorage w) key)
  /\ (forall ls w, App.mount ls = Returns w ->
        getItem (App.localStorage w) key = getItem ls key).
Proof.
  intros Hk. split.
  - intros ev w. destruct ev; try reflexivity;
      cbn [App.step App.localStorage]; unfold App.persist, getItem, setItem;
      by rewrite lookup_insert_ne.
  - intros ls w Hm. unfold App.mount in Hm.
    destruct (App.init ls) as [st| |]; [|done..]. injection Hm as <-.
    cbn [App.localStorage]. unfold App.persist, getItem, setItem.
    by rewrite lookup_insert_ne.
Qed.

Lemma other_keys_untouched_witness :
  getItem
    (App.localStorage
       (App.step (App.Delete "17")
          (App.World (App.mk [] "" "" "" list_view) (<["theme" := "dark"]> ∅))))
    "theme"
  = Some "dark".
Proof.
  destruct (other_keys_untouched "theme") as [H _]; [discriminate|].
  rewrite H. reflexivity.
Defined.

(** ** Removals *)

Lemma persist_persist st st' ls :
  App.persist st' (App.persist st ls) = App.persist st' ls.
Proof. unfold App.persist, setItem. apply insert_insert_eq. Qed.

Lemma filter_id_twice i (es : list TimeEntry.t) :
  filter (fun entry => TimeEntry.id entry ≠ i)
    (filter (fun entry => TimeEntry.id entry ≠ i) es)
  = filter (fun entry => TimeEntry.id entry ≠ i) es.
Proof. rewrite list_filter_filter. apply list_filter_iff. tauto. Qed.

Lemma filter_id_swap i j (es : list TimeEntry.t) :
  filter (fun entry => TimeEntry.id entry ≠ i)
    (filter (fun entry => TimeEntry.id entry ≠ j) es)
  = filter (fun entry => TimeEntry.id entry ≠ j)
      (filter (fun entry => TimeEntry.id entry ≠ i) es).
Proof. rewrite !list_filter_filter. apply list_filter_iff. tauto. Qed.

(** X3.  Removing an id twice is removing it once, and two removals give
    the same component and the same storage in either order. *)
Theorem remove_idempotent_commutes (i j : string) (w : App.world) :
  Ledger.exec (Ledger.remove i) (Ledger.exec (Ledger.remove i) w)
  = Ledger.exec (Ledger.remove i) w
  /\ Ledger.exec (Ledger.remove i) (Ledger.exec (Ledger.remove j) w)
     = Ledger.exec (Ledger.remove j) (Ledger.exec (Ledger.remove i) w).
Proof.
  unfold Ledger.exec, Ledger.remove. cbn [snd App.step App.hooks App.localStorage].
  rewrite !persist_persist. unfold App.deleteEntry, App.persist.
  cbn [App.entries App.companyName App.hours App.hourlyWage App.activeView].
  split.
  - by rewrite filter_id_twice.
  - by rewrite (filter_id_swap i j).
Qed.

(** X4.  In a session, an append whose id is not yet in the ledger,
    followed by the removal of that id, gives back the entries and the
    storage that were there. *)
Theorem append_then_remove (c h g : string) (now today : Z) (w : App.world) :
  App.reachable w ->
  pretty now ∉ ids (App.entries (App.hooks w)) ->
  let w' :=
    Ledger.exec (Ledger.remove (pretty now))
      (Ledger.exec (Ledger.append c h g now today) w) in
  App.entries (App.hooks w') = App.entries (App.hooks w)
  /\ App.localStorage w' = App.localStorage w.
Proof.
  intros Hw Hid w'. subst w'.
  destruct (reachable_invariant w Hw) as [_ Hs].
  assert (He : App.entries (App.hooks (Ledger.exec (Ledger.remove (pretty now))
                 (Ledger.exec (Ledger.append c h g now today) w)))
               = App.entries (App.hooks w)).
  { change (Ledger.eval Ledger.list (Ledger.exec (Ledger.remove (pretty now))
                 (Ledger.exec (Ledger.append c h g now today) w))
               = App.entries (App.hooks w)).
    rewrite entries_remove, entries_append.
    rewrite filter_app, filter_absent by done.
    rewrite filter_cons_False, filter_nil, app_nil_r; [done|].
    intros Hne. by apply Hne. }
  split; [exact He|].
  set (w1 := Ledger.exec (Ledger.append c h g now today) w) in *.
  set (w2 := Ledger.exec (Ledger.remove (pretty now)) w1) in *.
  change (App.localStorage w2)
    with (App.persist (App.hooks w2) (App.localStorage w1)).
  change (App.localStorage w1)
    with (App.persist (App.hooks w1) (App.localStorage w)).
  rewrite persist_persist. unfold App.persist, setItem. rewrite He.
  apply insert_id. exact Hs.
Qed.

Lemma append_then_remove_witness :
  App.entries (App.hooks
    (Ledger.exec (Ledger.remove "1700000000001")
       (Ledger.exec (Ledger.append "Gamma" "3" "900" 1700000000001 1700000000001)
          twice)))
  = App.entries (App.hooks twice).
Proof.
  apply (append_then_remove "Gamma" "3" "900" 1700000000001 1700000000001 twice).
  - apply reachable_appends, reachable_empty.
  - vm_compute. intros Hin. apply list_elem_of_In in Hin. simpl in Hin.
    destruct Hin as [Hin|[Hin|[]]]; discriminate Hin.
Defined.

(** ** Totals *)

Lemma fold_add_NaN {A : Type} (f : A -> number) (l : list A) :
  fold_left (fun acc a => Number.add acc (f a)) l Number.NaN = Number.NaN.
Proof. induction l as [|a l IH]; [reflexivity|]. exact IH. Qed.

Lemma fold_add_poisoned {A : Type} (f : A -> number) (l : list A) (a : A) x :
  a ∈ l -> f a = Number.NaN ->
  fold_left (fun acc a => Number.add acc (f a)) l x = Number.NaN.
Proof.
  intros Hin Ha. apply list_elem_of_split in Hin as (l1 & l2 & ->).
  rewrite fold_left_app. cbn [fold_left]. rewrite Ha, add_NaN_r.
  apply fold_add_NaN.
Qed.

(** X5.  The events keep the entries that were made by the form as
    they were made: when the income of every entry is the product of its
    hours and its hourly wage, so it is after any sequence of events; a
    submit adds an entry of which it holds, and the other events change
    no entry. *)
Theorem income_stays_product (evs : list App.event) (w : App.world) :
  Forall (fun e => TimeEntry.totalIncome e
                   = Number.mul (TimeEntry.hours e) (TimeEntry.hourlyWage e))
    (App.entries (App.hooks w)) ->
  Forall (fun e => TimeEntry.totalIncome e
                   = Number.mul (TimeEntry.hours e) (TimeEntry.hourlyWage e))
    (App.entries (App.hooks (fold_left (fun w ev => App.step ev w) evs w))).
Proof.
  revert w. induction evs as [|ev evs IH]; intros w Hall; [exact Hall|].
  cbn [fold_left]. apply IH. destruct ev; try exact Hall.
  - cbn [App.step App.hooks App.handleSubmit App.entries].
    apply Forall_app. split; [exact Hall|].
    constructor; [reflexivity|constructor].
  - cbn [App.step App.hooks App.deleteEntry App.entries].
    apply Forall_forall. intros e He. apply list_elem_of_filter in He as [_ He].
    by apply (proj1 (Forall_forall _ _) Hall).
Qed.

Lemma income_stays_product_witness :
  Forall (fun e => TimeEntry.totalIncome e
                   = Number.mul (TimeEntry.hours e) (TimeEntry.hourlyWage e))
    (App.entries
       (App.hooks
          (fold_left (fun w ev => App.step ev w)
             [App.ChangeHours "4"; App.ChangeHourlyWage "1000";
              App.Submit 1700000000000 1700000000000; App.Delete "17"]
             empty_ledger))).
Proof.
  apply (income_stays_product
           [App.ChangeHours "4"; App.ChangeHourlyWage "1000";
            App.Submit 1700000000000 1700000000000; App.Delete "17"] empty_ledger).
  vm_compute. constructor.
Defined.

(** ** Loading again *)

Lemma stored_stored x : stored (stored x) = stored x.
Proof. by destruct x. Qed.

Lemma entry_stored_stored e : TimeEntry.stored (TimeEntry.stored e) = TimeEntry.stored e.
Proof.
  unfold TimeEntry.stored.
  cbn [TimeEntry.id TimeEntry.date TimeEntry.companyName TimeEntry.hours
       TimeEntry.hourlyWage TimeEntry.totalIncome].
  by rewrite !stored_stored.
Qed.

Lemma storable_stored x : storable x = true -> storable (stored x) = true.
Proof. by destruct x. Qed.

Lemma entry_storable_stored e :
  TimeEntry.storable e = true -> TimeEntry.storable (TimeEntry.stored e) = true.
Proof.
  unfold TimeEntry.storable. intros He.
  apply andb_prop in He as [He Ht]. apply andb_prop in He as [Hh Hw].
  cbn [TimeEntry.hours TimeEntry.hourlyWage TimeEntry.totalIncome TimeEntry.stored].
  by rewrite !storable_stored.
Qed.

(** X6.  The form and the choice of the view are not stored: whatever
    the session was, the component that is loaded again has an empty form
    and shows the list.  And loading once more changes nothing: when
    the numbers of the entries are finite, the component and the storage
    that are loaded again are loaded again as they are. *)
Theorem reload_forgets_form_and_is_stable (w w' : App.world) :
  Ledger.reload w = Returns w' ->
  (App.companyName (App.hooks w') = ""
   /\ App.hours (App.hooks w') = ""
   /\ App.hourlyWage (App.hooks w') = ""
   /\ App.activeView (App.hooks w') = list_view)
  /\ (App.reachable w ->
      Forall (fun e => TimeEntry.finite e = true) (App.entries (App.hooks w)) ->
      Ledger.reload w' = Returns w').
Proof.
  intros Hr. split.
  - unfold Ledger.reload, App.mount, App.init in Hr.
    destruct (App.initialEntries _) as [v| |]; [|done..].
    destruct (entries_of_value v) as [es|]; [|done].
    by injection Hr as <-.
  - intros Hw Hfin. destruct (reachable_invariant w Hw) as [Hval Hsync].
    assert (Hall : Forall (fun e => TimeEntry.storable e = true)
                     (App.entries (App.hooks w))).
    { apply Forall_forall. intros e He. apply entry_storable.
      - by apply (proj1 (Forall_forall _ _) Hval).
      - by apply (proj1 (Forall_forall _ _) Hfin). }
    unfold Ledger.reload, App.mount, App.init in Hr.
    rewrite (initialEntries_synced _ _ Hsync Hall), entries_of_values in Hr.
    injection Hr as <-.
    set (st := App.mk _ _ _ _ _).
    unfold Ledger.reload, App.mount, App.init. cbn [App.localStorage].
    assert (Hall' : Forall (fun e => TimeEntry.storable e = true) (App.entries st)).
    { subst st. cbn [App.entries]. apply Forall_forall. intros e He.
      apply list_elem_of_fmap in He as (e0 & -> & He0).
      apply entry_storable_stored. by apply (proj1 (Forall_forall _ _) Hall). }
    rewrite (initialEntries_synced _ (App.entries st)); [|apply persist_synced|done].
    rewrite entries_of_values. subst st. cbn [App.entries].
    rewrite persist_persist.
    rewrite <- list_fmap_compose.
    assert (Hmap : (TimeEntry.stored ∘ TimeEntry.stored) <$> App.entries (App.hooks w)
                   = map TimeEntry.stored (App.entries (App.hooks w))).
    { apply list_fmap_ext. intros _ e _. apply entry_stored_stored. }
    unfold compose in *. by rewrite Hmap.
Qed.

Lemma reload_forgets_form_and_is_stable_witness :
  Ledger.reload (App.step (App.ChangeHours "8") twice) = Returns twice
  /\ Ledger.reload twice = Returns twice.
Proof.
  assert (Hr : Ledger.reload (App.step (App.ChangeHours "8") twice) = Returns twice)
    by (vm_compute; reflexivity).
  split; [exact Hr|].
  destruct (reload_forgets_form_and_is_stable _ twice Hr) as [_ H].
  apply H.
  - apply App.reachable_step, reachable_appends, reachable_empty.
  - repeat (constructor; [vm_compute; reflexivity|]). constructor.
Defined.

(** ** The numbers on the screen *)

Lemma app_empty_r s : s +:+ "" = s.
Proof. induction s as [|c s IH]; [reflexivity|]. by rewrite app_String, IH. Qed.

Lemma digits_value_zeros j ds :
  digits_value (replicate j 0%N ++ ds) = digits_value ds.
Proof.
  unfold digits_value. rewrite fold_left_app.
  f_equal. induction j as [|j IH]; [reflexivity|]. exact IH.
Qed.

Lemma zeros_digits j : Forall is_digit (replicate j 0%N).
Proof. apply Forall_replicate. unfold is_digit. lia. Qed.

(** The integer that [toFixed] prints is the nearest one, the larger of
    two. *)
Lemma toFixed_nearest_bounds M D f :
  0 < D ->
  let n := toFixed_nearest M D f in
  - D < 2 * (n * D - M * 10 ^ f) <= D.
Proof.
  intros HD n. subst n. unfold toFixed_nearest.
  pose proof (Z.div_mod (2 * M * 10 ^ f + D) (2 * D) ltac:(lia)) as Hdm.
  pose proof (Z.mod_pos_bound (2 * M * 10 ^ f + D) (2 * D) ltac:(lia)) as Hm.
  set (q := (2 * M * 10 ^ f + D) / (2 * D)) in *.
  set (r := (2 * M * 10 ^ f + D) mod (2 * D)) in *.
  set (P := M * 10 ^ f) in *.
  replace (2 * M * 10 ^ f) with (2 * P) in Hdm by (subst P; lia).
  nia.
Qed.

Lemma toFixed_nearest_nonneg M D f :
  0 <= M -> 0 < D -> 0 <= f -> 0 <= toFixed_nearest M D f.
Proof.
  intros HM HD Hf. unfold toFixed_nearest. apply Z.div_pos; [|lia].
  assert (0 <= 10 ^ f) by (apply Z.pow_nonneg; lia). nia.
Qed.

Lemma toFixed_digits_spec n f :
  0 <= n -> 0 <= f ->
  exists a b : list N,
    toFixed_digits n f
    = string_of_digits a +:+ (if f =? 0 then "" else "." +:+ string_of_digits b)
    /\ Z.of_N (digits_value (a ++ b)) = n
    /\ Z.of_nat (length b) = f
    /\ a ≠ []
    /\ (a = [0%N] \/ exists d r, a = d :: r /\ d ≠ 0%N)
    /\ Forall is_digit (a ++ b).
Proof.
  intros Hn Hf. unfold toFixed_digits.
  set (m := if n =? 0 then [0%N] else digits (Z.to_N n)).
  assert (Hval : Z.of_N (digits_value m) = n).
  { subst m. destruct (Z.eqb_spec n 0) as [->|Hne]; [reflexivity|].
    rewrite digits_value_digits. lia. }
  assert (Hdig : Forall is_digit m).
  { subst m. destruct (n =? 0); [|apply digits_are_digits].
    constructor; [unfold is_digit; lia|constructor]. }
  assert (Hhead : m = [0%N] \/ exists d r, m = d :: r /\ d ≠ 0%N).
  { subst m. destruct (Z.eqb_spec n 0) as [->|Hne]; [by left|].
    right. apply digits_head. lia. }
  assert (Hlen : (0 < length m)%nat).
  { destruct Hhead as [->|(d & r & -> & _)]; cbn; lia. }
  destruct (Z.eqb_spec f 0) as [->|Hf0].
  - exists m, []. rewrite app_empty_r, app_nil_r.
    repeat split; try done. intros ->. cbn in Hlen. lia.
  - set (k := Z.of_nat (length m)).
    set (m' := if k <=? f then replicate (Z.to_nat (f + 1 - k)) 0%N ++ m else m).
    set (k' := if k <=? f then f + 1 else k).
    assert (Hk' : Z.of_nat (length m') = k' /\ f < k').
    { subst m' k'. destruct (Z.leb_spec k f).
      - rewrite length_app, length_replicate. lia.
      - lia. }
    destruct Hk' as [Hk' Hfk].
    exists (take (Z.to_nat (k' - f)) m'), (drop (Z.to_nat (k' - f)) m').
    rewrite take_drop. split; [done|]. split; [|split; [|split; [|split]]].
    + subst m'. destruct (k <=? f); [|done]. by rewrite digits_value_zeros.
    + rewrite length_drop. lia.
    + intros Ht. apply (f_equal length) in Ht. rewrite length_take in Ht.
      cbn in Ht. lia.
    + subst m' k'. destruct (Z.leb_spec k f) as [Hkf|Hkf].
      * left. replace (f + 1 - f) with 1 by lia.
        destruct (Z.to_nat (f + 1 - k)) as [|j] eqn:Hj; [lia|]. reflexivity.
      * right. destruct Hhead as [Hm|(d & r & Hm & Hd)].
        { subst k. rewrite Hm in Hkf. cbn in Hkf. lia. }
        exists d, (take (Nat.pred (Z.to_nat (k - f))) r). split; [|exact Hd].
        rewrite Hm. destruct (Z.to_nat (k - f)) as [|j] eqn:Hj; [lia|].
        reflexivity.
    + subst m'. destruct (k <=? f); [|done].
      apply Forall_app. split; [apply zeros_digits|done].
Qed.

(** X7.  [toFixed(f)] of a finite number [x] below [10^21] in absolute
    value, either zero among them, for [f] in 0..100, throws nothing and
    prints a minus sign when [x] is below zero (also when all the digits
    printed are zeros; none for [-0]) and a decimal numeral with exactly
    [f] digits after the point (and no point for [f = 0]) and, before the
    point, either the one digit 0 or digits of which the first is not 0.
    The digits are those of the integer [n] nearest to [|x| * 10^f], the
    larger one when two are as near: half-way cases are rounded away from
    zero, [|x|] being the exact value [abs_num x / abs_den x] of the
    binary64. *)
Theorem toFixed_rounds (x : number) (f : Z) :
  Number.isFinite x = true ->
  0 <= f <= 100 ->
  let M := abs_num x in
  let D := abs_den x in
  M < D * 10 ^ 21 ->
  exists (n : Z) (a b : list N),
    toFixed x f
    = Some ((if below_zero x then "-" else "") +:+ string_of_digits a
            +:+ (if f =? 0 then "" else "." +:+ string_of_digits b))
    /\ - D < 2 * (n * D - M * 10 ^ f) <= D
    /\ Z.of_N (digits_value (a ++ b)) = n
    /\ Z.of_nat (length b) = f
    /\ a ≠ []
    /\ (a = [0%N] \/ exists d r, a = d :: r /\ d ≠ 0%N)
    /\ Forall is_digit (a ++ b).
Proof.
  intros Hx Hf M D Hlt.
  assert (HD : 0 < D).
  { subst D. destruct x; cbn [abs_den]; first [lia|apply Z.pow_pos_nonneg; lia]. }
  assert (HM : 0 <= M).
  { subst M. destruct x; cbn [abs_num];
      first [lia|apply Z.mul_nonneg_nonneg; [lia|apply Z.pow_nonneg; lia]]. }
  destruct (toFixed_digits_spec (toFixed_nearest M D f) f) as (a & b & Ht & Hrest);
    [by apply toFixed_nearest_nonneg; lia|lia|].
  exists (toFixed_nearest M D f), a, b. split; [|split; [|exact Hrest]].
  - unfold toFixed.
    assert ((f <? 0) || (100 <? f) = false) as ->.
    { apply orb_false_intro; [apply Z.ltb_ge|apply Z.ltb_ge]; lia. }
    destruct x as [s| | |s m e]; try discriminate Hx.
    + cbn [below_zero]. rewrite <- Ht. subst M D. reflexivity.
    + cbn [below_zero]. cbn [abs_num abs_den] in M, D.
      assert (HMD : (if 0 <=? e then (Zpos m * 2 ^ e, 1) else (Zpos m, 2 ^ (- e)))
                    = (M, D)).
      { subst M D. destruct (Z.leb_spec 0 e).
        - rewrite Z.max_r, Z.max_l by lia. reflexivity.
        - rewrite Z.max_l, Z.max_r by lia. f_equal. cbn. lia. }
      rewrite HMD.
      assert (ge_pow10 M D 21 = false) as ->.
      { unfold ge_pow10. cbn [Z.leb Z.compare]. apply Z.leb_gt. lia. }
      by rewrite Ht.
  - by apply toFixed_nearest_bounds.
Qed.

Lemma toFixed_rounds_witness :
  (exists (n : Z) (a b : list N),
     toFixed (S754_finite false 4526117625507348 (-52)) 2
     = Some ("" +:+ string_of_digits a +:+ "." +:+ string_of_digits b)
     /\ n = 100)
  /\ (exists (n : Z) (a b : list N),
        toFixed (S754_zero true) 2
        = Some ("" +:+ string_of_digits a +:+ "." +:+ string_of_digits b)
        /\ n = 0).
Proof.
  split.
  - destruct (toFixed_rounds (S754_finite false 4526117625507348 (-52)) 2)
      as (n & a & b & H & Hn & _).
    + reflexivity.
    + lia.
    + vm_compute. reflexivity.
    + exists n, a, b. split; [exact H|].
      cbn [abs_num abs_den] in Hn.
      change (2 ^ Z.max 0 (- -52)) with 4503599627370496 in Hn.
      change (4526117625507348 * 2 ^ Z.max 0 (-52) * 10 ^ 2)
        with 452611762550734800 in Hn.
      lia.
  - destruct (toFixed_rounds (S754_zero true) 2) as (n & a & b & H & Hn & _).
    + reflexivity.
    + lia.
    + vm_compute. reflexivity.
    + exists n, a, b. split; [exact H|]. cbn [abs_num abs_den] in Hn. lia.
Defined.

(** ** Whole numbers and halves are exact *)

Lemma integer_digits n : 0 < n < 2 ^ 53 -> 1 <= Zdigits2 n <= 53.
Proof.
  intros [Hlo Hhi]. pose proof (Zdigits2_pos n Hlo).
  pose proof (Zdigits2_bounds n Hlo) as [Hb _].
  assert (Zdigits2 n - 1 < 53).
  { apply (Z.pow_lt_mono_r_iff 2); lia. }
  lia.
Qed.

Lemma integer_mantissa_spec n :
  0 < n < 2 ^ 53 ->
  Zpos (integer_mantissa n) = n * 2 ^ (53 - Zdigits2 n).
Proof.
  intros Hn. pose proof (integer_digits n Hn). unfold integer_mantissa.
  rewrite Z2Pos.id; [done|].
  apply Z.mul_pos_pos; [lia|apply Z.pow_pos_nonneg; lia].
Qed.

Lemma integer_mantissa_digits n :
  0 < n < 2 ^ 53 -> Zpos (digits2_pos (integer_mantissa n)) = 53.
Proof.
  intros Hn. pose proof (integer_digits n Hn) as Hd.
  pose proof (integer_mantissa_spec n Hn) as Hm.
  destruct n as [|p|p]; [lia| |lia].
  change (Zpos (digits2_pos (integer_mantissa (Zpos p))))
    with (Zdigits2 (Zpos (integer_mantissa (Zpos p)))).
  rewrite Hm, Zdigits2_shift by lia. cbn [Zdigits2] in *. lia.
Qed.

(** The binary64 [n / 2^s] of an integer [n] below [2^53]. *)
Lemma dyadic_bounded n s :
  0 < n < 2 ^ 53 -> 0 <= s <= 1000 ->
  bounded Number.prec Number.emax (integer_mantissa n) (integer_exponent n - s) = true.
Proof.
  intros Hn Hs. pose proof (integer_digits n Hn) as Hd.
  unfold bounded, canonical_mantissa.
  rewrite (integer_mantissa_digits n Hn). unfold integer_exponent.
  apply andb_true_intro. split.
  - apply Z.eqb_eq. unfold fexp, SpecFloat.emin, Number.prec, Number.emax. lia.
  - apply Z.leb_le. unfold Number.prec, Number.emax. lia.
Qed.

Lemma integer_bounded n :
  0 < n < 2 ^ 53 ->
  bounded Number.prec Number.emax (integer_mantissa n) (integer_exponent n) = true.
Proof.
  intros Hn. pose proof (dyadic_bounded n 0 Hn ltac:(lia)) as H.
  by rewrite Z.sub_0_r in H.
Qed.

Lemma digits_mul_ge a b :
  0 < a -> 0 < b -> Zdigits2 a + Zdigits2 b - 1 <= Zdigits2 (a * b).
Proof.
  intros Ha Hb.
  pose proof (Zdigits2_bounds a Ha) as [Hla _].
  pose proof (Zdigits2_bounds b Hb) as [Hlb _].
  pose proof (Zdigits2_pos a Ha). pose proof (Zdigits2_pos b Hb).
  assert (Zdigits2 a + Zdigits2 b - 2 < Zdigits2 (a * b)); [|lia].
  apply Zdigits2_ge; [lia|].
  replace (Zdigits2 a + Zdigits2 b - 2) with ((Zdigits2 a - 1) + (Zdigits2 b - 1)) by lia.
  rewrite Z.pow_add_r by lia.
  assert (0 < 2 ^ (Zdigits2 a - 1)) by (apply Z.pow_pos_nonneg; lia).
  assert (0 < 2 ^ (Zdigits2 b - 1)) by (apply Z.pow_pos_nonneg; lia).
  nia.
Qed.

Lemma digits_mul_le a b :
  0 < a -> 0 < b -> Zdigits2 (a * b) <= Zdigits2 a + Zdigits2 b.
Proof.
  intros Ha Hb. destruct a as [|x|x]; [lia| |lia]. destruct b as [|y|y]; [lia| |lia].
  apply (Zdigits2_mul_le x y).
Qed.

(** The number nearest to the fraction [c * n / (c * 2^s)] is the binary64
    [n / 2^s]. *)
Lemma of_ratio_dyadic c n s :
  0 < c -> 0 < n < 2 ^ 53 -> 0 <= s <= 1000 ->
  Number.of_ratio false (c * n) (c * 2 ^ s)
  = S754_finite false (integer_mantissa n) (integer_exponent n - s).
Proof.
  intros Hc Hn Hs. pose proof (integer_digits n Hn) as Hd.
  pose proof (integer_mantissa_spec n Hn) as Hm.
  pose proof (dyadic_bounded n s Hn Hs) as Hb.
  unfold Number.of_ratio.
  assert (Hcn : 0 < c * n) by nia.
  destruct (c * n) as [|p|p] eqn:Hp; [lia| |lia]. rewrite <- Hp in *.
  unfold SFdiv_core_binary.
  assert (Hd2 : Zdigits2 (c * 2 ^ s) = Zdigits2 c + s).
  { destruct c as [|q|q]; [lia| |lia]. by rewrite Zdigits2_shift by lia. }
  rewrite Hd2.
  pose proof (digits_mul_le c n Hc ltac:(lia)) as Hd1.
  pose proof (Zdigits2_pos c Hc) as Hdc.
  set (e' := Z.min _ _).
  set (e := integer_exponent n - s) in *.
  assert (He' : e' <= e /\ e' <= - s).
  { subst e' e. unfold integer_exponent, fexp, SpecFloat.emin, Number.prec, Number.emax.
    lia. }
  destruct He' as [He' Hes].
  assert (H2s : 0 < 2 ^ s) by (apply Z.pow_pos_nonneg; lia).
  assert (Hm' : match 0 - 0 - e' with
                | 0 => c * n
                | Zpos _ => Z.shiftl (c * n) (0 - 0 - e')
                | Zneg _ => 0
                end = Zpos (integer_mantissa n) * 2 ^ (e - e') * (c * 2 ^ s)).
  { rewrite Hm.
    assert (n * 2 ^ (53 - Zdigits2 n) * 2 ^ (e - e') * (c * 2 ^ s)
            = c * n * 2 ^ (- e')) as ->.
    { assert (2 ^ (53 - Zdigits2 n) * 2 ^ (e - e') * 2 ^ s = 2 ^ (- e')) as <-.
      { rewrite <- !Z.pow_add_r by (subst e; unfold integer_exponent in *; lia).
        f_equal. subst e. unfold integer_exponent. lia. }
      lia. }
    destruct (0 - 0 - e') as [|q|q] eqn:Hq; [| |lia].
    - replace (- e') with 0 by lia. cbn. lia.
    - rewrite Z.shiftl_mul_pow2 by lia. do 2 f_equal. lia. }
  rewrite Hm', div_eucl_exact by nia. rewrite new_location_exact.
  replace e' with (e - (e - e')) at 2 by lia.
  apply round_exact; [done|lia].
Qed.

(** The number of a positive integer below [2^53] is that integer. *)
Lemma of_Z_integer n :
  0 < n < 2 ^ 53 ->
  Number.of_Z n = S754_finite false (integer_mantissa n) (integer_exponent n).
Proof.
  intros Hn. unfold Number.of_Z, Number.of_decimal.
  assert ((n <? 0) = false) as -> by (apply Z.ltb_ge; lia).
  rewrite N2Z.inj_abs_N, Z.abs_eq by lia.
  change (0 <=? 0) with true. cbv iota. change (10 ^ 0) with 1. rewrite Z.mul_1_r.
  pose proof (of_ratio_dyadic 1 n 0 ltac:(lia) Hn ltac:(lia)) as H.
  change (2 ^ 0) with 1 in H. by rewrite !Z.mul_1_l, Z.sub_0_r in H.
Qed.

Lemma of_Z_0 : Number.of_Z 0 = S754_zero false.
Proof. reflexivity. Qed.

Lemma halves_dyadic h :
  0 < h < 2 ^ 53 ->
  halves h = S754_finite false (integer_mantissa h) (integer_exponent h - 1).
Proof.
  intros Hh. unfold halves.
  pose proof (of_ratio_dyadic 1 h 1 ltac:(lia) Hh ltac:(lia)) as H.
  change (2 ^ 1) with 2 in H. by rewrite !Z.mul_1_l in H.
Qed.

Lemma halves_0 : halves 0 = S754_zero false.
Proof. reflexivity. Qed.

(** A whole number is an even number of halves. *)
Lemma of_Z_halves a : 0 <= a < 2 ^ 52 -> Number.of_Z a = halves (2 * a).
Proof.
  intros Ha. destruct (Z.eq_dec a 0) as [->|Ha0]; [reflexivity|].
  assert (Ha' : 0 < a < 2 ^ 53) by lia.
  assert (H2a : 0 < 2 * a < 2 ^ 53) by (cbn in *; lia).
  rewrite of_Z_integer, halves_dyadic by done.
  assert (Hd : Zdigits2 (2 * a) = Zdigits2 a + 1).
  { destruct a as [|p|p]; [lia| |lia].
    pose proof (Zdigits2_shift p 1 ltac:(lia)) as H. change (2 ^ 1) with 2 in H.
    rewrite Z.mul_comm. exact H. }
  pose proof (integer_digits (2 * a) H2a).
  pose proof (Zdigits2_pos a ltac:(lia)).
  f_equal.
  - apply Pos2Z.inj. rewrite !integer_mantissa_spec by done. rewrite Hd.
    replace (53 - Zdigits2 a) with (1 + (53 - (Zdigits2 a + 1))) by lia.
    rewrite Z.pow_add_r by lia. change (2 ^ 1) with 2. lia.
  - unfold integer_exponent. lia.
Qed.

(** The product of [a / 2^s] and [b / 2^t] is exact when [a * b] is below
    [2^53]. *)
Lemma mul_dyadic a s b t :
  0 < a < 2 ^ 53 -> 0 < b < 2 ^ 53 -> a * b < 2 ^ 53 ->
  0 <= s <= 500 -> 0 <= t <= 500 ->
  Number.mul (S754_finite false (integer_mantissa a) (integer_exponent a - s))
    (S754_finite false (integer_mantissa b) (integer_exponent b - t))
  = S754_finite false (integer_mantissa (a * b)) (integer_exponent (a * b) - (s + t)).
Proof.
  intros Ha' Hb' Hab Hs Ht.
  assert (Hab' : 0 < a * b < 2 ^ 53) by nia.
  cbn [Number.mul SFmul xorb].
  pose proof (integer_digits a Ha'). pose proof (integer_digits b Hb').
  pose proof (integer_digits (a * b) Hab').
  pose proof (digits_mul_ge a b ltac:(lia) ltac:(lia)) as Hd.
  set (j := 53 - Zdigits2 a - Zdigits2 b + Zdigits2 (a * b)).
  assert (Hj : 0 <= j) by (subst j; lia).
  replace (integer_exponent a - s + (integer_exponent b - t))
    with (integer_exponent (a * b) - (s + t) - j) by (unfold integer_exponent; lia).
  assert (Hm : Zpos (integer_mantissa a * integer_mantissa b)
               = Zpos (integer_mantissa (a * b)) * 2 ^ j).
  { rewrite Pos2Z.inj_mul, !integer_mantissa_spec by done.
    subst j.
    replace (a * b * 2 ^ (53 - Zdigits2 (a * b))
             * 2 ^ (53 - Zdigits2 a - Zdigits2 b + Zdigits2 (a * b)))
      with (a * b * (2 ^ (53 - Zdigits2 (a * b))
                     * 2 ^ (53 - Zdigits2 a - Zdigits2 b + Zdigits2 (a * b)))) by lia.
    rewrite <- Z.pow_add_r by lia.
    replace (a * 2 ^ (53 - Zdigits2 a) * (b * 2 ^ (53 - Zdigits2 b)))
      with (a * b * (2 ^ (53 - Zdigits2 a) * 2 ^ (53 - Zdigits2 b))) by lia.
    rewrite <- Z.pow_add_r by lia. do 2 f_equal. lia. }
  rewrite Hm. apply round_exact; [apply dyadic_bounded; [done|lia]|done].
Qed.

(** The product of two whole numbers is exact when it is below [2^53]. *)
Lemma mul_of_Z a b :
  0 <= a < 2 ^ 53 -> 0 <= b < 2 ^ 53 -> a * b < 2 ^ 53 ->
  Number.mul (Number.of_Z a) (Number.of_Z b) = Number.of_Z (a * b).
Proof.
  intros Ha Hb Hab.
  destruct (Z.eq_dec a 0) as [->|Ha0].
  { rewrite Z.mul_0_l, of_Z_0.
    destruct (Z.eq_dec b 0) as [->|Hb0]; [reflexivity|].
    rewrite of_Z_integer by lia. reflexivity. }
  destruct (Z.eq_dec b 0) as [->|Hb0].
  { rewrite Z.mul_0_r, of_Z_0. rewrite of_Z_integer by lia. reflexivity. }
  rewrite !of_Z_integer by nia.
  pose proof (mul_dyadic a 0 b 0 ltac:(lia) ltac:(lia) Hab ltac:(lia) ltac:(lia)) as H.
  by rewrite !Z.sub_0_r in H.
Qed.

(** The product of halves and a whole number is exact. *)
Lemma mul_halves h b :
  0 <= h < 2 ^ 53 -> 0 <= b < 2 ^ 53 -> h * b < 2 ^ 53 ->
  Number.mul (halves h) (Number.of_Z b) = halves (h * b).
Proof.
  intros Hh Hb Hhb.
  destruct (Z.eq_dec h 0) as [->|Hh0].
  { rewrite Z.mul_0_l, halves_0.
    destruct (Z.eq_dec b 0) as [->|Hb0]; [reflexivity|].
    rewrite of_Z_integer by lia. reflexivity. }
  destruct (Z.eq_dec b 0) as [->|Hb0].
  { rewrite Z.mul_0_r, of_Z_0, halves_0. rewrite halves_dyadic by lia. reflexivity. }
  rewrite !halves_dyadic, of_Z_integer by nia.
  pose proof (mul_dyadic h 1 b 0 ltac:(lia) ltac:(lia) Hhb ltac:(lia) ltac:(lia)) as H.
  by rewrite !Z.sub_0_r in H.
Qed.

Lemma iter_xO m d : Zpos (Pos.iter xO m d) = Zpos m * 2 ^ Zpos d.
Proof.
  induction d as [|d IH] using Pos.peano_ind.
  - cbn [Pos.iter]. change (2 ^ 1) with 2. lia.
  - rewrite Pos.iter_succ, (Pos2Z.inj_xO (Pos.iter xO m d)), IH.
    rewrite Pos2Z.inj_succ, Z.pow_succ_r by lia. lia.
Qed.

Lemma shl_align_spec m e e' :
  let '(m', e'') := shl_align m e e' in
  e'' = Z.min e e' /\ Zpos m' = Zpos m * 2 ^ (e - e'').
Proof.
  unfold shl_align. destruct (e' - e) as [|d|d] eqn:Hd.
  - split; [lia|]. rewrite Z.sub_diag. cbn. lia.
  - split; [lia|]. rewrite Z.sub_diag. cbn. lia.
  - split; [lia|]. rewrite iter_xO. do 2 f_equal. lia.
Qed.

(** Normalizing [M * 2^ez], which is the binary64 [m * 2^e], gives that
    number. *)
Lemma binary_round_exact M ez m e :
  bounded Number.prec Number.emax m e = true ->
  (ez <= e -> Zpos M = Zpos m * 2 ^ (e - ez)) ->
  (e <= ez -> Zpos m = Zpos M * 2 ^ (ez - e)) ->
  binary_round Number.prec Number.emax false M ez = S754_finite false m e.
Proof.
  intros Hb Hlo Hhi. pose proof (canonical_fexp m e Hb) as Hc.
  unfold binary_round.
  assert (Hd : Zpos (digits2_pos M) + ez = Zpos (digits2_pos m) + e).
  { destruct (Z.le_ge_cases ez e) as [Hle|Hge].
    - change (Zpos (digits2_pos M)) with (Zdigits2 (Zpos M)).
      rewrite (Hlo Hle), Zdigits2_shift by lia. lia.
    - change (Zpos (digits2_pos m)) with (Zdigits2 (Zpos m)).
      rewrite (Hhi Hge), Zdigits2_shift by lia. lia. }
  rewrite Hd, Hc.
  pose proof (shl_align_spec M ez e) as Hs.
  destruct (shl_align M ez e) as [mz ez']. destruct Hs as [-> Hmz].
  destruct (Z.le_ge_cases ez e) as [Hle|Hge].
  - rewrite Z.min_l in * by lia. rewrite Z.sub_diag in Hmz.
    change (2 ^ 0) with 1 in Hmz. rewrite Z.mul_1_r in Hmz. rewrite Hmz, (Hlo Hle).
    replace ez with (e - (e - ez)) at 2 by lia.
    apply round_exact; [done|lia].
  - rewrite Z.min_r in * by lia. rewrite Hmz, <- (Hhi Hge).
    pose proof (round_exact m e 0 Hb ltac:(lia)) as Hr.
    change (2 ^ 0) with 1 in Hr. by rewrite Z.mul_1_r, Z.sub_0_r in Hr.
Qed.

(** The sum of [a / 2^s] and [b / 2^s] is exact when [a + b] is below
    [2^53]. *)
Lemma add_dyadic a b s :
  0 < a -> 0 < b -> a + b < 2 ^ 53 -> 0 <= s <= 1000 ->
  Number.add (S754_finite false (integer_mantissa a) (integer_exponent a - s))
    (S754_finite false (integer_mantissa b) (integer_exponent b - s))
  = S754_finite false (integer_mantissa (a + b)) (integer_exponent (a + b) - s).
Proof.
  intros Ha0 Hb0 Hab Hs.
  assert (Ha' : 0 < a < 2 ^ 53) by lia.
  assert (Hb' : 0 < b < 2 ^ 53) by lia.
  assert (Hab' : 0 < a + b < 2 ^ 53) by lia.
  cbn [Number.add SFadd cond_Zopp].
  pose proof (integer_digits a Ha') as Hda. pose proof (integer_digits b Hb') as Hdb.
  pose proof (integer_digits (a + b) Hab') as Hdab.
  pose proof (integer_mantissa_spec a Ha') as Hma.
  pose proof (integer_mantissa_spec b Hb') as Hmb.
  pose proof (integer_mantissa_spec (a + b) Hab') as Hmab.
  assert (Hmono_a : Zdigits2 a <= Zdigits2 (a + b)) by (apply Zdigits2_mono; lia).
  assert (Hmono_b : Zdigits2 b <= Zdigits2 (a + b)) by (apply Zdigits2_mono; lia).
  set (ea := integer_exponent a - s). set (eb := integer_exponent b - s).
  set (eab := integer_exponent (a + b) - s).
  set (ez := Z.min ea eb).
  pose proof (shl_align_spec (integer_mantissa a) ea ez) as Hsa.
  pose proof (shl_align_spec (integer_mantissa b) eb ez) as Hsb.
  destruct (shl_align (integer_mantissa a) ea ez) as [xa ea'].
  destruct (shl_align (integer_mantissa b) eb ez) as [xb eb'].
  destruct Hsa as [-> Hxa]. destruct Hsb as [-> Hxb].
  rewrite Z.min_r in Hxa by (subst ez; lia).
  rewrite Z.min_r in Hxb by (subst ez; lia).
  cbn [fst]. change (Zpos xa + Zpos xb) with (Zpos (xa + xb)).
  cbn [binary_normalize].
  assert (Hez : ez <= eab)
    by (subst ez ea eb eab; unfold integer_exponent; lia).
  assert (Hezs : ez + s <= 0) by (subst ez ea eb; unfold integer_exponent; lia).
  assert (Hsum : Zpos (xa + xb) = (a + b) * 2 ^ (- (ez + s))).
  { rewrite Pos2Z.inj_add, Hxa, Hxb, Hma, Hmb.
    assert (Hpa : 2 ^ (53 - Zdigits2 a) * 2 ^ (ea - ez) = 2 ^ (- (ez + s))).
    { rewrite <- Z.pow_add_r by (subst ea; unfold integer_exponent in *; lia).
      f_equal. subst ea. unfold integer_exponent. lia. }
    assert (Hpb : 2 ^ (53 - Zdigits2 b) * 2 ^ (eb - ez) = 2 ^ (- (ez + s))).
    { rewrite <- Z.pow_add_r by (subst eb; unfold integer_exponent in *; lia).
      f_equal. subst eb. unfold integer_exponent. lia. }
    rewrite <- !Z.mul_assoc, Hpa, Hpb. lia. }
  apply binary_round_exact; [apply dyadic_bounded; [done|lia]| |].
  - intros _. rewrite Hsum, Hmab, <- Z.mul_assoc, <- Z.pow_add_r
      by (subst eab; unfold integer_exponent in *; lia).
    do 2 f_equal. subst eab. unfold integer_exponent. lia.
  - intros Hge. assert (ez = eab) as Heq by lia.
    rewrite Hsum, Hmab, Heq, Z.sub_diag. change (2 ^ 0) with 1.
    rewrite Z.mul_1_r. do 2 f_equal. subst eab. unfold integer_exponent. lia.
Qed.

(** The sum of two whole numbers is exact when it is below [2^53]. *)
Lemma add_of_Z a b :
  0 <= a -> 0 <= b -> a + b < 2 ^ 53 ->
  Number.add (Number.of_Z a) (Number.of_Z b) = Number.of_Z (a + b).
Proof.
  intros Ha Hb Hab.
  destruct (Z.eq_dec a 0) as [->|Ha0].
  { rewrite Z.add_0_l, of_Z_0.
    destruct (Z.eq_dec b 0) as [->|Hb0]; [reflexivity|].
    rewrite of_Z_integer by lia. reflexivity. }
  destruct (Z.eq_dec b 0) as [->|Hb0].
  { rewrite Z.add_0_r, of_Z_0. rewrite of_Z_integer by lia. reflexivity. }
  rewrite !of_Z_integer by lia.
  pose proof (add_dyadic a b 0 ltac:(lia) ltac:(lia) Hab ltac:(lia)) as H.
  by rewrite !Z.sub_0_r in H.
Qed.

(** The sum of halves is exact when it is below [2^53] halves. *)
Lemma add_halves a b :
  0 <= a -> 0 <= b -> a + b < 2 ^ 53 ->
  Number.add (halves a) (halves b) = halves (a + b).
Proof.
  intros Ha Hb Hab.
  destruct (Z.eq_dec a 0) as [->|Ha0].
  { rewrite Z.add_0_l, halves_0.
    destruct (Z.eq_dec b 0) as [->|Hb0]; [reflexivity|].
    rewrite halves_dyadic by lia. reflexivity. }
  destruct (Z.eq_dec b 0) as [->|Hb0].
  { rewrite Z.add_0_r, halves_0. rewrite halves_dyadic by lia. reflexivity. }
  rewrite !halves_dyadic by lia.
  apply add_dyadic; lia.
Qed.

(** *** Numerals *)

Lemma pretty_N_char_digit d : is_digit d -> pretty_N_char d = digit_char d.
Proof. intros H. apply digit_cases in H. destruct_or!; subst d; reflexivity. Qed.

Lemma pretty_N_go_digits n s :
  pretty_N_go n s = string_of_digits (digits n) +:+ s.
Proof.
  revert s. induction (N.lt_wf_0 n) as [n _ IH]. intros s.
  destruct (N.eq_dec n 0%N) as [->|Hn]; [reflexivity|].
  rewrite pretty_N_go_step by lia.
  rewrite IH by (apply N.div_lt; lia).
  rewrite (digits_step n Hn), string_of_digits_app, app_assoc_string.
  cbn [string_of_digits]. rewrite app_String, app_empty.
  rewrite pretty_N_char_digit; [done|].
  unfold is_digit. apply N.mod_lt. lia.
Qed.

Lemma pretty_pos_digits p :
  pretty (Zpos p) = string_of_digits (digits (Npos p)).
Proof.
  unfold pretty, pretty_Z, pretty, pretty_positive, pretty, pretty_N.
  rewrite decide_False by done.
  by rewrite pretty_N_go_digits, app_empty_r.
Qed.

Lemma pretty_neg_digits p :
  pretty (Zneg p) = "-" +:+ string_of_digits (digits (Npos p)).
Proof.
  unfold pretty, pretty_Z, pretty, pretty_positive, pretty, pretty_N.
  rewrite decide_False by done.
  by rewrite pretty_N_go_digits, app_empty_r.
Qed.

(** [parseFloat] at a digit. *)
Lemma parseFloat_digit_head d r :
  is_digit d ->
  trimStart (String (digit_char d) r) = String (digit_char d) r
  /\ Sign (String (digit_char d) r) = (false, String (digit_char d) r)
  /\ String.prefix "Infinity" (String (digit_char d) r) = false.
Proof.
  intros H. apply digit_cases in H.
  destruct_or!; subst d; repeat split; reflexivity.
Qed.

Lemma parseFloat_tail neg ds :
  ds ≠ [] -> Forall is_digit ds ->
  (if String.prefix "Infinity" (string_of_digits ds) then S754_infinity neg else
   let '(ip, ni, s1) := DecimalDigits (string_of_digits ds) 0 0 in
   let '(m, nf, s2) := Fraction ip s1 in
   match ni, nf with
   | O, O => Number.NaN
   | _, _ => Number.of_decimal neg m (ExponentPart s2 - Z.of_nat nf)
   end)
  = Number.of_decimal neg (digits_value ds) 0.
Proof.
  intros Hne Hds. destruct ds as [|d r]; [done|].
  destruct (parseFloat_digit_head d (string_of_digits r)) as (_ & _ & Hp).
  { by inversion Hds. }
  cbn [string_of_digits]. rewrite Hp.
  change (String (digit_char d) (string_of_digits r))
    with (string_of_digits (d :: r)).
  rewrite <- (app_empty_r (string_of_digits (d :: r))).
  rewrite DecimalDigits_digits by done.
  cbn [Fraction ExponentPart length Nat.add Z.of_nat Z.sub Z.opp Z.add].
  reflexivity.
Qed.

(** [parseFloat] reads the decimal numeral of an integer as the number
    of that integer. *)
Lemma parseFloat_pretty (z : Z) : parseFloat (pretty z) = Number.of_Z z.
Proof.
  destruct z as [|p|p].
  - reflexivity.
  - rewrite pretty_pos_digits.
    destruct (digits_head (Npos p)) as (d & r & Hd & _); [done|].
    pose proof (digits_are_digits (Npos p)) as Hds.
    unfold parseFloat.
    destruct (parseFloat_digit_head d (string_of_digits r)) as (Ht & Hs & _).
    { rewrite Hd in Hds. by inversion Hds. }
    rewrite Hd at 1. cbn [string_of_digits]. rewrite Ht, Hs.
    change (String (digit_char d) (string_of_digits r))
      with (string_of_digits (d :: r)).
    rewrite <- Hd.
    rewrite (parseFloat_tail false) by (try done; by rewrite Hd).
    by rewrite digits_value_digits.
  - rewrite pretty_neg_digits.
    pose proof (digits_are_digits (Npos p)) as Hds.
    unfold parseFloat.
    change (Sign (trimStart ("-" +:+ string_of_digits (digits (Npos p)))))
      with (true, string_of_digits (digits (Npos p))).
    cbv beta iota.
    rewrite (parseFloat_tail true).
    + by rewrite digits_value_digits.
    + destruct (digits_head (Npos p)) as (d & r & Hd & _); [done|]. by rewrite Hd.
    + done.
Qed.

Lemma digits_mul_pow10 (n : N) (j : nat) :
  n ≠ 0%N -> digits (n * 10 ^ N.of_nat j) = digits n ++ replicate j 0%N.
Proof.
  intros Hn. induction j as [|j IH].
  - cbn [N.of_nat replicate]. change (10 ^ 0)%N with 1%N.
    by rewrite N.mul_1_r, app_nil_r.
  - rewrite Nat2N.inj_succ, N.pow_succ_r by lia.
    assert (Hpos : (0 < 10 ^ N.of_nat j)%N).
    { apply N.neq_0_lt_0. apply N.pow_nonzero. lia. }
    rewrite digits_step by lia.
    replace (n * (10 * 10 ^ N.of_nat j))%N with ((n * 10 ^ N.of_nat j) * 10)%N by lia.
    rewrite N.div_mul, N.Div0.mod_mul by lia.
    rewrite IH, <- app_assoc. f_equal.
    change [0%N] with (replicate 1 0%N). rewrite <- replicate_add.
    f_equal. lia.
Qed.

Lemma pretty_nonneg_digits n :
  0 <= n ->
  pretty n = string_of_digits (if n =? 0 then [0%N] else digits (Z.to_N n)).
Proof.
  intros Hn. destruct n as [|p|p]; [reflexivity| |lia].
  apply pretty_pos_digits.
Qed.

(** The digits of [n * 10^f] with the point before the last [f] are the
    numeral of [n] and [f] zeros. *)
Lemma toFixed_digits_integer n f :
  0 <= n -> 0 <= f ->
  toFixed_digits (n * 10 ^ f) f
  = pretty n +:+ (if f =? 0 then "" else "." +:+ zeros f).
Proof.
  intros Hn Hf. rewrite (pretty_nonneg_digits n Hn). unfold toFixed_digits.
  destruct (Z.eqb_spec n 0) as [->|Hn0].
  - rewrite Z.mul_0_l. cbn [Z.eqb].
    destruct (Z.eqb_spec f 0) as [->|Hf0]; [reflexivity|].
    cbn [length]. change (Z.of_nat 1) with 1.
    assert ((1 <=? f) = true) as -> by (apply Z.leb_le; lia).
    replace (f + 1 - 1) with f by lia. replace (f + 1 - f) with 1 by lia.
    change (Z.to_nat 1) with 1%nat.
    assert (Hrep : replicate (Z.to_nat f) 0%N ++ [0%N]
                   = 0%N :: replicate (Z.to_nat f) 0%N).
    { change [0%N] with (replicate 1 0%N). rewrite <- replicate_add.
      by rewrite Nat.add_1_r. }
    rewrite Hrep. reflexivity.
  - assert (Hp : 0 < 10 ^ f) by (apply Z.pow_pos_nonneg; lia).
    assert ((n * 10 ^ f =? 0) = false) as -> by (apply Z.eqb_neq; nia).
    assert (Hd : digits (Z.to_N (n * 10 ^ f))
                 = digits (Z.to_N n) ++ replicate (Z.to_nat f) 0%N).
    { rewrite <- digits_mul_pow10 by lia. f_equal.
      rewrite Z2N.inj_mul, Z2N.inj_pow by lia. f_equal. f_equal. lia. }
    rewrite Hd.
    destruct (Z.eqb_spec f 0) as [->|Hf0].
    { cbn [Z.to_nat replicate]. by rewrite app_nil_r, app_empty_r. }
    rewrite length_app, length_replicate.
    assert ((Z.of_nat (length (digits (Z.to_N n)) + Z.to_nat f) <=? f) = false) as ->.
    { apply Z.leb_gt.
      destruct (digits_head (Z.to_N n)) as (d & r & -> & _); [lia|].
      cbn [length]. lia. }
    replace (Z.to_nat (Z.of_nat (length (digits (Z.to_N n)) + Z.to_nat f) - f))
      with (length (digits (Z.to_N n))) by lia.
    by rewrite take_app_length, drop_app_length.
Qed.

Lemma toFixed_nearest_integer n D f :
  0 < D -> toFixed_nearest (n * D) D f = n * 10 ^ f.
Proof.
  intros HD. unfold toFixed_nearest.
  replace (2 * (n * D) * 10 ^ f + D) with (n * 10 ^ f * (2 * D) + D) by lia.
  rewrite Z.div_add_l by lia. rewrite Z.div_small by lia. lia.
Qed.

(** [toFixed] of a whole number below [2^53] prints its numeral and
    zeros for the decimals. *)
Lemma toFixed_of_Z n f :
  0 <= n < 2 ^ 53 -> 0 <= f <= 100 ->
  toFixed (Number.of_Z n) f
  = Some (pretty n +:+ (if f =? 0 then "" else "." +:+ zeros f)).
Proof.
  intros Hn Hf. unfold toFixed.
  assert ((f <? 0) || (100 <? f) = false) as ->.
  { apply orb_false_intro; apply Z.ltb_ge; lia. }
  destruct (Z.eq_dec n 0) as [->|Hn0].
  { rewrite of_Z_0. f_equal.
    rewrite <- (toFixed_digits_integer 0 f) by lia. by rewrite Z.mul_0_l. }
  assert (Hn' : 0 < n < 2 ^ 53) by lia.
  rewrite of_Z_integer by done.
  pose proof (integer_digits n Hn') as Hd.
  pose proof (integer_mantissa_spec n Hn') as Hm.
  assert (HMD : (if 0 <=? integer_exponent n
                 then (Zpos (integer_mantissa n) * 2 ^ integer_exponent n, 1)
                 else (Zpos (integer_mantissa n), 2 ^ (- integer_exponent n)))
                = (n * 2 ^ (- integer_exponent n), 2 ^ (- integer_exponent n))).
  { unfold integer_exponent in *. destruct (Z.leb_spec 0 (Zdigits2 n - 53)).
    - assert (Zdigits2 n - 53 = 0) as -> by lia. rewrite Hm.
      replace (53 - Zdigits2 n) with 0 by lia. cbn. f_equal. lia.
    - rewrite Hm. do 3 f_equal. lia. }
  rewrite HMD. set (D := 2 ^ (- integer_exponent n)).
  assert (HD : 0 < D) by (subst D; apply Z.pow_pos_nonneg; unfold integer_exponent; lia).
  assert (ge_pow10 (n * D) D 21 = false) as ->.
  { unfold ge_pow10. cbn [Z.leb Z.compare]. apply Z.leb_gt.
    assert (n < 10 ^ 21) by (cbn in *; lia). nia. }
  rewrite toFixed_nearest_integer by done.
  rewrite toFixed_digits_integer by lia. reflexivity.
Qed.

(** *** Sums *)

Lemma sum_Z_nonneg l : Forall (fun h => 0 <= h) l -> 0 <= sum_Z l.
Proof. induction 1 as [|h l Hh _ IH]; cbn [sum_Z fold_right]; [lia|]. unfold sum_Z in IH. lia. Qed.

Lemma fold_add_of_Z (l : list Z) (acc : Z) :
  Forall (fun h => 0 <= h) l -> 0 <= acc -> acc + sum_Z l < 2 ^ 53 ->
  fold_left Number.add (map Number.of_Z l) (Number.of_Z acc)
  = Number.of_Z (acc + sum_Z l).
Proof.
  intros Hall. revert acc. induction Hall as [|h l Hh Hl IH]; intros acc Hacc Hlt.
  - cbn [map fold_left sum_Z fold_right]. by rewrite Z.add_0_r.
  - cbn [map fold_left]. pose proof (sum_Z_nonneg l Hl) as Hnn.
    change (sum_Z (h :: l)) with (h + sum_Z l) in *.
    rewrite add_of_Z by lia. rewrite IH by lia. f_equal. lia.
Qed.

(** X8.  The arithmetic of JavaScript is exact on whole numbers and on
    halves below [2^53].  The number of a positive integer [a] has a
    mantissa [m] and an exponent [e] with [m * 2^e = a], and [a] halves
    are [m * 2^(e - 1)]; a whole number is twice as many halves; the product of two whole numbers, and of halves
    and a whole number, is the number of the product, and the sum of two
    whole numbers, and of halves, the number of the sum, when the product
    or the sum is below [2^53]. *)
Theorem exact_arithmetic (a b : Z) :
  0 <= a < 2 ^ 53 -> 0 <= b < 2 ^ 53 ->
  (0 < a ->
   exists m e,
     e <= 0 /\ Zpos m = a * 2 ^ (- e)
     /\ Number.of_Z a = S754_finite false m e
     /\ halves a = S754_finite false m (e - 1))
  /\ (a < 2 ^ 52 -> Number.of_Z a = halves (2 * a))
  /\ (a * b < 2 ^ 53 ->
      Number.mul (Number.of_Z a) (Number.of_Z b) = Number.of_Z (a * b)
      /\ Number.mul (halves a) (Number.of_Z b) = halves (a * b))
  /\ (a + b < 2 ^ 53 ->
      Number.add (Number.of_Z a) (Number.of_Z b) = Number.of_Z (a + b)
      /\ Number.add (halves a) (halves b) = halves (a + b)).
Proof.
  intros Ha Hb. split; [|split; [|split]].
  - intros Ha0. assert (Ha' : 0 < a < 2 ^ 53) by lia.
    exists (integer_mantissa a), (integer_exponent a).
    pose proof (integer_digits a Ha').
    split; [unfold integer_exponent; lia|]. split.
    + rewrite integer_mantissa_spec by done. do 2 f_equal.
      unfold integer_exponent. lia.
    + split; [by apply of_Z_integer|by apply halves_dyadic].
  - intros Ha52. apply of_Z_halves. lia.
  - intros Hab. split; [by apply mul_of_Z|by apply mul_halves].
  - intros Hab. split; [apply add_of_Z; lia|apply add_halves; lia].
Qed.

Lemma exact_arithmetic_witness :
  Number.mul (halves 15) (Number.of_Z 1001) = halves 15015
  /\ Number.add (Number.of_Z 4) (Number.of_Z 2) = Number.of_Z 6.
Proof.
  split.
  - destruct (exact_arithmetic 15 1001) as (_ & _ & H & _); [lia..|].
    destruct H as [_ H]; [lia|]. exact H.
  - destruct (exact_arithmetic 4 2) as (_ & _ & _ & H); [lia..|].
    destruct H as [H _]; [lia|]. exact H.
Defined.

(** X9.  Whole hours and a whole hourly wage, typed as decimal numerals,
    make an entry without rounding when the product is below [2^53]: the
    hours, the wage and the income of the entry are those integers, the
    income being their exact product, and the list shows the income as
    the numeral of the product. *)
Theorem whole_numbers_entry (c : string) (a b now today : Z) (w : App.world) :
  0 <= a < 2 ^ 53 -> 0 <= b < 2 ^ 53 -> a * b < 2 ^ 53 ->
  let e := Ledger.eval (Ledger.append c (pretty a) (pretty b) now today) w in
  TimeEntry.hours e = Number.of_Z a
  /\ TimeEntry.hourlyWage e = Number.of_Z b
  /\ TimeEntry.totalIncome e = Number.of_Z (a * b)
  /\ render_income (TimeEntry.totalIncome e) = Some ("¥" +:+ pretty (a * b)).
Proof.
  intros Ha Hb Hab e. subst e.
  assert (Hinc : TimeEntry.totalIncome
                   (Ledger.eval (Ledger.append c (pretty a) (pretty b) now today) w)
                 = Number.of_Z (a * b)).
  { change (Number.mul (parseFloat (pretty a)) (parseFloat (pretty b))
            = Number.of_Z (a * b)).
    rewrite !parseFloat_pretty. by apply mul_of_Z. }
  split; [apply parseFloat_pretty|]. split; [apply parseFloat_pretty|].
  split; [exact Hinc|].
  rewrite Hinc. unfold render_income.
  rewrite toFixed_of_Z by nia. cbn [Z.eqb mbind option_bind].
  by rewrite app_empty_r.
Qed.

Lemma whole_numbers_entry_witness :
  render_income
    (TimeEntry.totalIncome
       (Ledger.eval (Ledger.append "Acme" "8" "1250" 1700000000000 1700000000000)
          empty_ledger))
  = Some "¥10000".
Proof.
  destruct (whole_numbers_entry "Acme" 8 1250 1700000000000 1700000000000
              empty_ledger) as (_ & _ & _ & H); [lia..|].
  exact H.
Defined.

(** X10.  The totals of whole numbers are exact: when the hours of the
    entries are the non-negative integers [hs] and their incomes the
    non-negative integers [ts], both with a sum below [2^53], the total
    hours and the total income are the sums of those integers, and the
    cards show the numeral of the sum of the hours with two zeros after
    the point, and the numeral of the sum of the incomes. *)
Theorem whole_numbers_totals (st : App.state) (hs ts : list Z) :
  map TimeEntry.hours (App.entries st) = map Number.of_Z hs ->
  map TimeEntry.totalIncome (App.entries st) = map Number.of_Z ts ->
  Forall (fun h => 0 <= h) hs -> Forall (fun t => 0 <= t) ts ->
  sum_Z hs < 2 ^ 53 -> sum_Z ts < 2 ^ 53 ->
  App.totalHours st = Number.of_Z (sum_Z hs)
  /\ App.totalIncome st = Number.of_Z (sum_Z ts)
  /\ render_cards st
     = Some (Cards (pretty (sum_Z hs) +:+ ".00 hours") ("¥" +:+ pretty (sum_Z ts))).
Proof.
  intros Hh Ht Hhs Hts Hsh Hst.
  assert (H1 : App.totalHours st = Number.of_Z (sum_Z hs)).
  { unfold App.totalHours. rewrite fold_add_map, Hh.
    change Number.zero with (Number.of_Z 0).
    by rewrite fold_add_of_Z by (try done; lia). }
  assert (H2 : App.totalIncome st = Number.of_Z (sum_Z ts)).
  { unfold App.totalIncome. rewrite fold_add_map, Ht.
    change Number.zero with (Number.of_Z 0).
    by rewrite fold_add_of_Z by (try done; lia). }
  split; [exact H1|]. split; [exact H2|].
  unfold render_cards. rewrite H1, H2.
  pose proof (sum_Z_nonneg hs Hhs). pose proof (sum_Z_nonneg ts Hts).
  rewrite !toFixed_of_Z by lia.
  cbn [Z.eqb mbind option_bind]. rewrite app_empty_r, app_assoc_string.
  reflexivity.
Qed.

Lemma whole_numbers_totals_witness :
  render_cards (App.hooks twice) = Some (Cards "6.00 hours" "¥7000").
Proof.
  destruct (whole_numbers_totals (App.hooks twice) [4; 2] [4000; 3000])
    as (_ & _ & H).
  - vm_compute. reflexivity.
  - vm_compute. reflexivity.
  - repeat constructor; lia.
  - repeat constructor; lia.
  - cbn. lia.
  - cbn. lia.
  - exact H.
Defined.

(** ** The calendar *)

(** X11.  The calendar has one event for each entry, in the order of the
    entries, with the date and the income of its entry, and the incomes of
    the events add up to the total income of the cards. *)
Theorem calendar_follows_entries (st : App.state) :
  length (calendarEvents st) = length (App.entries st)
  /\ (forall k entry,
        App.entries st !! k = Some entry ->
        exists ev,
          calendarEvents st !! k = Some ev
          /\ CalendarEvent.date ev = TimeEntry.date entry
          /\ CalendarEvent.income (CalendarEvent.extendedProps ev)
             = TimeEntry.totalIncome entry
          /\ CalendarEvent.title ev
             = TimeEntry.companyName entry +:+ " - "
                 +:+ Number_toString (TimeEntry.hours entry) +:+ "hrs")
  /\ fold_left
       (fun acc ev =>
          Number.add acc (CalendarEvent.income (CalendarEvent.extendedProps ev)))
       (calendarEvents st) Number.zero
     = App.totalIncome st.
Proof.
  unfold calendarEvents. split; [apply length_map|]. split.
  - intros k entry Hk. rewrite map_fmap, list_lookup_fmap, Hk.
    eexists. split; [reflexivity|]. repeat split.
  - unfold App.totalIncome. generalize Number.zero.
    induction (App.entries st) as [|e es IH]; intros acc; [reflexivity|].
    cbn [map fold_left]. apply IH.
Qed.

(** ** Dates *)

Lemma length_string_of_digits ds : String.length (string_of_digits ds) = length ds.
Proof. induction ds as [|d ds IH]; [reflexivity|]. cbn [string_of_digits String.length length]. by rewrite IH. Qed.

Lemma digits_length_le (w : nat) (n : N) :
  (n < 10 ^ N.of_nat w)%N -> (length (digits n) <= w)%nat.
Proof.
  revert n. induction w as [|w IH]; intros n Hn.
  - change (10 ^ N.of_nat 0)%N with 1%N in Hn.
    assert (n = 0%N) as -> by lia. cbn. lia.
  - destruct (N.eq_dec n 0%N) as [->|Hne]; [cbn; lia|].
    rewrite digits_step by done. rewrite length_app. cbn [length].
    assert ((length (digits (n / 10)) <= w)%nat); [|lia].
    apply IH. rewrite Nat2N.inj_succ, N.pow_succ_r in Hn by lia.
    apply N.Div0.div_lt_upper_bound. lia.
Qed.

Lemma pad_length (w : nat) (n : Z) :
  0 <= n < 10 ^ Z.of_nat w -> String.length (pad w n) = w.
Proof.
  intros Hn. unfold pad. rewrite length_string_of_digits, length_app, length_replicate.
  assert ((length (digits (Z.to_N n)) <= w)%nat); [|lia].
  apply digits_length_le.
  assert (Z.of_N (Z.to_N n) < Z.of_N (10 ^ N.of_nat w)); [|lia].
  rewrite Z2N.id, N2Z.inj_pow, nat_N_Z by lia. cbn. lia.
Qed.

(** The day of the month, the month and the year of the civil calendar. *)
Lemma civil_bounds (z : Z) :
  let era := z / 146097 in
  let doe := z - era * 146097 in
  let yoe := (doe - doe / 1460 + doe / 36524 - doe / 146096) / 365 in
  let doy := doe - (365 * yoe + yoe / 4 - yoe / 100) in
  let mp := (5 * doy + 2) / 153 in
  let d := doy - (153 * mp + 2) / 5 + 1 in
  0 <= doe <= 146096 /\ 0 <= yoe <= 399 /\ 0 <= doy <= 365
  /\ 0 <= mp <= 11 /\ 1 <= d <= 31.
Proof.
  intros era doe yoe doy mp d.
  assert (Hdoe : 0 <= doe <= 146096).
  { subst doe era. pose proof (Z.div_mod z 146097 ltac:(lia)).
    pose proof (Z.mod_pos_bound z 146097 ltac:(lia)). lia. }
  assert (Hyoe : 0 <= yoe <= 399).
  { subst yoe. clearbody doe. clear era. Z.div_mod_to_equations. lia. }
  assert (Hdoy : 0 <= doy <= 365).
  { subst doy yoe. clearbody doe. clear era Hyoe. Z.div_mod_to_equations. lia. }
  assert (Hmp : 0 <= mp <= 11).
  { subst mp. clearbody doy. Z.div_mod_to_equations. lia. }
  assert (Hd : 1 <= d <= 31).
  { subst d mp. clearbody doy. Z.div_mod_to_equations. lia. }
  done.
Qed.

(** X12.  The date of an entry is ten characters, [YYYY-MM-DD]: when the
    clock is in the years 0 to 9999, the date that a submit stores is a
    year of four digits, a month from 01 to 12 and a day from 01 to 31,
    each padded with zeros and joined by hyphens. *)
Theorem entry_date_shape (now today : Z) (st : App.state) :
  -62167219200000 <= today <= 253402300799999 ->
  exists y m d,
    0 <= y <= 9999 /\ 1 <= m <= 12 /\ 1 <= d <= 31
    /\ TimeEntry.date (App.newEntry now today st)
       = pad 4 y +:+ "-" +:+ pad 2 m +:+ "-" +:+ pad 2 d
    /\ String.length (TimeEntry.date (App.newEntry now today st)) = 10%nat.
Proof.
  intros Ht. cbn [App.newEntry TimeEntry.date]. unfold toISOString_date.
  pose proof (civil_bounds (today / 86400000 + 719468)) as Hc. cbv zeta in Hc.
  set (z := today / 86400000 + 719468) in *.
  assert (Hz : -60 <= z <= 3652364).
  { subst z. Z.div_mod_to_equations. lia. }
  set (era := z / 146097) in *.
  set (doe := z - era * 146097) in *.
  set (yoe := (doe - doe / 1460 + doe / 36524 - doe / 146096) / 365) in *.
  set (doy := doe - (365 * yoe + yoe / 4 - yoe / 100)) in *.
  set (mp := (5 * doy + 2) / 153) in *.
  set (d := doy - (153 * mp + 2) / 5 + 1) in *.
  destruct Hc as (Hdoe & Hyoe & Hdoy & Hmp & Hd).
  set (m := if mp <? 10 then mp + 3 else mp - 9).
  assert (Hm : 1 <= m <= 12) by (subst m; destruct (Z.ltb_spec mp 10); lia).
  set (y := yoe + era * 400 + (if m <=? 2 then 1 else 0)).
  assert (Hera : -1 <= era <= 24).
  { subst era. Z.div_mod_to_equations. lia. }
  assert (Hy : 0 <= y <= 9999).
  { subst y m. destruct (Z.ltb_spec mp 10) as [Hlt|Hge].
    - assert ((mp + 3 <=? 2) = false) as -> by (apply Z.leb_gt; lia).
      assert (0 <= era).
      { destruct (Z.eq_dec era (-1)) as [He|]; [|lia]. exfalso.
        assert (146037 <= doe) by (subst doe; lia).
        assert (yoe = 399).
        { subst yoe. clearbody doe. Z.div_mod_to_equations. lia. }
        assert (306 <= doy).
        { subst doy. clearbody doe. Z.div_mod_to_equations. lia. }
        subst mp. clearbody doy. Z.div_mod_to_equations. lia. }
      lia.
    - assert ((mp - 9 <=? 2) = true) as -> by (apply Z.leb_le; lia).
      assert (era = -1 -> yoe = 399).
      { intros He. assert (146037 <= doe) by (subst doe; lia).
        subst yoe. clearbody doe. Z.div_mod_to_equations. lia. }
      assert (era = 24 -> yoe < 399); [|lia].
      intros He.
      assert (doe <= 146036) by (subst doe; lia).
      destruct (Z.eq_dec yoe 399) as [Hy399|]; [|lia]. exfalso.
      assert (doy <= 305).
      { subst doy. rewrite Hy399. clearbody doe. Z.div_mod_to_equations. lia. }
      subst mp. clearbody doy. Z.div_mod_to_equations. lia. }
  exists y, m, d. split; [done|]. split; [done|]. split; [done|].
  assert ((0 <=? y) && (y <=? 9999) = true) as ->.
  { apply andb_true_intro. split; apply Z.leb_le; lia. }
  split; [reflexivity|].
  rewrite !length_app_string, !pad_length by (cbn; lia). reflexivity.
Qed.

Lemma entry_date_shape_witness :
  String.length
    (TimeEntry.date
       (App.newEntry 1700000000000 1700000000000 (App.mk [] "Acme" "4" "1000" list_view)))
  = 10%nat.
Proof.
  destruct (entry_date_shape 1700000000000 1700000000000
              (App.mk [] "Acme" "4" "1000" list_view)) as (y & m & d & _ & _ & _ & _ & H).
  - lia.
  - exact H.
Defined.

(** ** Loading what the component has stored *)

Lemma JSONValue_null f rest :
  JSONValue (S f) (SerializeJSONProperty Null +:+ rest) = Some (Null, rest).
Proof. reflexivity. Qed.

Lemma JSONValue_read_back f x rest :
  Number.valid x = true -> delimiter rest ->
  JSONValue (S f) (SerializeJSONProperty (Num x) +:+ rest)
  = Some (read_back x, rest).
Proof.
  intros Hv Hrest. unfold read_back.
  destruct (Number.isFinite x) eqn:Hfin.
  - apply JSONValue_stored; [|done]. unfold storable. by rewrite Hfin, Hv.
  - cbn [SerializeJSONProperty]. rewrite Hfin. apply JSONValue_null.
Qed.

(** The text of an entry reads back, with [null] for the numbers that are
    not finite. *)
Lemma JSONValue_entry_read_back f e tail :
  TimeEntry.valid e = true ->
  JSONValue (S (S (S (S (S (S (S (S f))))))))
    (SerializeJSONProperty (TimeEntry.to_value e) +:+ tail)
  = Some (entry_read_back e, tail).
Proof.
  intros He. unfold TimeEntry.valid in He.
  apply andb_prop in He as [He Ht]. apply andb_prop in He as [Hh Hw].
  rewrite entry_text.
  rewrite QuoteJSONString_app at 1. rewrite JSONValue_brace.
  rewrite <- QuoteJSONString_app.
  rewrite (JSONMembers_comma _ _ _ (Str (TimeEntry.id e)))
    by apply JSONValue_string.
  rewrite (JSONMembers_comma _ _ _ (Str (TimeEntry.date e)))
    by apply JSONValue_string.
  rewrite (JSONMembers_comma _ _ _ (Str (TimeEntry.companyName e)))
    by apply JSONValue_string.
  rewrite (JSONMembers_comma _ _ _ (read_back (TimeEntry.hours e)))
    by (apply JSONValue_read_back; [done|apply delimiter_comma]).
  rewrite (JSONMembers_comma _ _ _ (read_back (TimeEntry.hourlyWage e)))
    by (apply JSONValue_read_back; [done|apply delimiter_comma]).
  rewrite (JSONMembers_brace _ _ _ (read_back (TimeEntry.totalIncome e)))
    by (apply JSONValue_read_back; [done|apply delimiter_brace]).
  reflexivity.
Qed.

Lemma JSONElements_read_back es e f tail :
  Forall (fun e => TimeEntry.valid e = true) (e :: es) ->
  JSONElements (length es + S (S (S (S (S (S (S (S (S f)))))))))
    (String.concat "," (entry_texts (e :: es)) +:+ String "]" tail)
  = Some (map entry_read_back (e :: es), tail).
Proof.
  revert e. induction es as [|e' es IH]; intros e Hall.
  - cbn [length Nat.add entry_texts map String.concat].
    apply JSONElements_bracket, JSONValue_entry_read_back. by apply Forall_inv in Hall.
  - rewrite concat_entry_texts, !app_assoc_string, (app_String "," ""), app_empty.
    cbn [length Nat.add].
    rewrite (JSONElements_comma _ _ (entry_read_back e)
               (String.concat "," (entry_texts (e' :: es)) +:+ String "]" tail)).
    + rewrite IH by (by apply Forall_inv_tail in Hall). reflexivity.
    + replace (length es + S (S (S (S (S (S (S (S (S f)))))))))%nat
        with (S (S (S (S (S (S (S (S (length es + S f)))))))))%nat by lia.
      apply JSONValue_entry_read_back. by apply Forall_inv in Hall.
Qed.

(** [JSON.parse] of the text of a ledger never throws. *)
Lemma JSON_parse_read_back es :
  Forall (fun e => TimeEntry.valid e = true) es ->
  JSON_parse (JSON_stringify (values_of_entries es))
  = Returns (Arr (map entry_read_back es)).
Proof.
  intros Hall. destruct es as [|e es]; [reflexivity|].
  rewrite JSON_stringify_entries. unfold JSON_parse.
  set (text := String "[" _).
  assert (Hlen : (2 * length (e :: es) + 2 <= String.length text)%nat).
  { subst text. cbn [String.length]. rewrite length_app_string.
    pose proof (concat_length (e :: es)). cbn [String.length]. lia. }
  cbn [length] in Hlen.
  replace (2 * String.length text + 2)%nat
    with (S (length es + S (S (S (S (S (S (S (S (S (2 * String.length text - length es - 8)))))))))))%nat
    by lia.
  subst text.
  assert (Hhead : exists r, String.concat "," (entry_texts (e :: es)) +:+ "]"
                            = String "{" r).
  { destruct es as [|e' es].
    - cbn [entry_texts map String.concat]. rewrite entry_text. by eexists.
    - rewrite concat_entry_texts, app_assoc_string, entry_text. by eexists. }
  destruct Hhead as [r Hr]. rewrite Hr, JSONValue_bracket, <- Hr.
  rewrite JSONElements_read_back by done. reflexivity.
Qed.

Lemma of_value_read_back e :
  TimeEntry.of_value (entry_read_back e)
  = if TimeEntry.finite e then Some (TimeEntry.stored e) else None.
Proof.
  unfold entry_read_back, read_back, TimeEntry.finite, TimeEntry.stored.
  destruct (Number.isFinite (TimeEntry.hours e)),
    (Number.isFinite (TimeEntry.hourlyWage e)),
    (Number.isFinite (TimeEntry.totalIncome e)); reflexivity.
Qed.

Lemma entries_of_read_back es :
  entries_of_value (Arr (map entry_read_back es))
  = if forallb TimeEntry.finite es then Some (map TimeEntry.stored es) else None.
Proof.
  unfold entries_of_value. induction es as [|e es IH]; [reflexivity|].
  cbn [map forallb]. cbn [mapM]. rewrite of_value_read_back.
  destruct (TimeEntry.finite e); [|reflexivity].
  cbn [mbind option_bind andb]. rewrite IH.
  by destruct (forallb TimeEntry.finite es).
Qed.

Lemma serialize_stored x :
  SerializeJSONProperty (Num (stored x)) = SerializeJSONProperty (Num x).
Proof. by destruct x as [[]|[]| |]. Qed.

Lemma entry_text_stored e :
  SerializeJSONProperty (TimeEntry.to_value (TimeEntry.stored e))
  = SerializeJSONProperty (TimeEntry.to_value e).
Proof.
  rewrite <- (app_empty_r (SerializeJSONProperty (TimeEntry.to_value (TimeEntry.stored e)))).
  rewrite <- (app_empty_r (SerializeJSONProperty (TimeEntry.to_value e))).
  rewrite !entry_text.
  cbn [TimeEntry.stored TimeEntry.id TimeEntry.date TimeEntry.companyName
       TimeEntry.hours TimeEntry.hourlyWage TimeEntry.totalIncome].
  by rewrite !serialize_stored.
Qed.

Lemma JSON_stringify_stored es :
  JSON_stringify (values_of_entries (map TimeEntry.stored es))
  = JSON_stringify (values_of_entries es).
Proof.
  rewrite !JSON_stringify_entries. do 3 f_equal.
  unfold entry_texts. rewrite map_map. apply map_ext. intros e.
  apply entry_text_stored.
Qed.

(** Loading again in a session: what [JSON.parse] reads. *)
Lemma initialEntries_reachable (w : App.world) :
  App.reachable w ->
  App.initialEntries (App.localStorage w)
  = Returns (Arr (map entry_read_back (App.entries (App.hooks w)))).
Proof.
  intros Hw. destruct (reachable_invariant w Hw) as [Hval Hsync].
  unfold App.initialEntries. rewrite Hsync.
  rewrite bool_decide_eq_false_2; [by apply JSON_parse_read_back|].
  by rewrite JSON_stringify_entries.
Qed.

(** Loading again in a session: what the first render reads. *)
Lemma reload_reachable (w : App.world) :
  App.reachable w ->
  Ledger.reload w
  = (if forallb TimeEntry.finite (App.entries (App.hooks w))
     then Returns (App.World
                     (App.mk (map TimeEntry.stored (App.entries (App.hooks w)))
                        "" "" "" list_view)
                     (App.localStorage w))
     else Untyped (Arr (map entry_read_back (App.entries (App.hooks w))))).
Proof.
  intros Hw. pose proof (initialEntries_reachable w Hw) as Hi.
  destruct (reachable_invariant w Hw) as [Hval Hsync].
  set (es := App.entries (App.hooks w)) in *.
  unfold Ledger.reload, App.mount, App.init. rewrite Hi, entries_of_read_back.
  destruct (forallb TimeEntry.finite es); [|reflexivity].
  do 2 f_equal. unfold App.persist, setItem. cbn [App.entries].
  rewrite JSON_stringify_stored. by apply insert_id.
Qed.

(** Where the numbers of an entry are read back as [null]. *)
Lemma null_read_back (e : TimeEntry.t) (l : list (string * value)) :
  entry_read_back e = Obj l ->
  (exists k, (k, Null) ∈ l) <-> TimeEntry.finite e = false.
Proof.
  intros Hl. injection Hl as <-. unfold TimeEntry.finite, read_back. split.
  - intros (k & Hk). apply list_elem_of_In in Hk. simpl in Hk.
    destruct (Number.isFinite (TimeEntry.hours e)),
      (Number.isFinite (TimeEntry.hourlyWage e)),
      (Number.isFinite (TimeEntry.totalIncome e)); try reflexivity.
    destruct Hk as [Hk|[Hk|[Hk|[Hk|[Hk|[Hk|[]]]]]]]; discriminate Hk.
  - intros Hfin.
    destruct (Number.isFinite (TimeEntry.hours e)) eqn:Hh.
    + destruct (Number.isFinite (TimeEntry.hourlyWage e)) eqn:Hg.
      * destruct (Number.isFinite (TimeEntry.totalIncome e)) eqn:Ht;
          [discriminate Hfin|].
        exists "totalIncome". apply list_elem_of_In. simpl. tauto.
      * exists "hourlyWage". apply list_elem_of_In. simpl. tauto.
    + exists "hours". apply list_elem_of_In. simpl. tauto.
Qed.

(** X13.  Loading the page again in a session.  In every world of a
    session the initializer of the entries reads the text that the
    component has stored without a [SyntaxError]: [JSON.parse] returns
    the array of the entries, each with its strings and with its numbers
    as their texts read, [-0] as [0] and [null] for [NaN] and the
    infinities, and [null] nowhere else.  When the numbers of all entries
    are finite, that array is a [TimeEntry[]]: the reload gives the
    entries so read, an empty form and the list view, and leaves the
    storage as it is.  When the hours, the wage or the income of some
    entry is not finite, the array is no [TimeEntry[]], the entry having
    [null] for that number: the first render goes on with a value outside
    its type, and what it does then is not part of this statement. *)
Theorem reload_of_session (w : App.world) :
  App.reachable w ->
  let es := App.entries (App.hooks w) in
  App.initialEntries (App.localStorage w)
  = Returns (Arr (map entry_read_back es))
  /\ entries_of_value (Arr (map entry_read_back es))
     = (if forallb TimeEntry.finite es then Some (map TimeEntry.stored es)
        else None)
  /\ Ledger.reload w
     = (if forallb TimeEntry.finite es
        then Returns (App.World (App.mk (map TimeEntry.stored es) "" "" "" list_view)
                        (App.localStorage w))
        else Untyped (Arr (map entry_read_back es)))
  /\ (forall e l, e ∈ es -> entry_read_back e = Obj l ->
        (exists k, (k, Null) ∈ l) <-> TimeEntry.finite e = false).
Proof.
  intros Hw es. subst es.
  split; [by apply initialEntries_reachable|].
  split; [apply entries_of_read_back|].
  split; [by apply reload_reachable|].
  intros e l _. apply null_read_back.
Qed.

Lemma reload_of_session_witness :
  (App.initialEntries (App.localStorage tainted)
   = Returns (Arr (map entry_read_back (App.entries (App.hooks tainted))))
   /\ entries_of_value (Arr (map entry_read_back (App.entries (App.hooks tainted))))
      = None)
  /\ Ledger.reload reloaded = Returns reloaded.
Proof.
  split.
  - destruct (reload_of_session tainted) as (H1 & H2 & _).
    + apply reachable_append, reachable_empty.
    + split; [exact H1|]. rewrite H2. reflexivity.
  - destruct (reload_of_session reloaded) as (_ & _ & H & _).
    + apply reachable_append, reachable_empty.
    + rewrite H. vm_compute. reflexivity.
Defined.

(** ** What [parseFloat] takes from a field *)

Lemma parseFloat_tail_rest neg ds rest :
  ds ≠ [] -> Forall is_digit ds ->
  (forall c r, rest = String c r ->
     digit_of c = None /\ c ≠ "."%char /\ ExponentIndicator c = false) ->
  (if String.prefix "Infinity" (string_of_digits ds +:+ rest)
   then S754_infinity neg else
   let '(ip, ni, s1) := DecimalDigits (string_of_digits ds +:+ rest) 0 0 in
   let '(m, nf, s2) := Fraction ip s1 in
   match ni, nf with
   | O, O => Number.NaN
   | _, _ => Number.of_decimal neg m (ExponentPart s2 - Z.of_nat nf)
   end)
  = Number.of_decimal neg (digits_value ds) 0.
Proof.
  intros Hne Hds Hrest. destruct ds as [|d r]; [done|].
  destruct (parseFloat_digit_head d (string_of_digits r +:+ rest)) as (_ & _ & Hp).
  { by inversion Hds. }
  cbn [string_of_digits]. rewrite app_String, Hp.
  change (String (digit_char d) (string_of_digits r +:+ rest))
    with (string_of_digits (d :: r) +:+ rest).
  rewrite DecimalDigits_digits; [|done|].
  2:{ destruct rest as [|c t]; [done|]. by destruct (Hrest c t eq_refl). }
  assert (HF : Fraction (fold_left shift_digit (d :: r) 0%N) rest
               = (fold_left shift_digit (d :: r) 0%N, O, rest)).
  { destruct rest as [|c t]; [reflexivity|].
    destruct (Hrest c t eq_refl) as (_ & Hc & _).
    unfold Fraction.
    destruct c as [[] [] [] [] [] [] [] []]; try reflexivity. by exfalso. }
  rewrite HF.
  assert (HE : ExponentPart rest = 0).
  { destruct rest as [|c t]; [reflexivity|].
    destruct (Hrest c t eq_refl) as (_ & _ & Hc).
    unfold ExponentPart. by rewrite Hc. }
  rewrite HE. cbn [length Nat.add Z.of_nat Z.sub Z.opp Z.add]. reflexivity.
Qed.

(** X14.  [parseFloat] reads the numeral at the head of a field and
    ignores what follows it: the numeral of an integer, followed by any
    text that does not go on with a digit, a point or an exponent, is read
    as the number of that integer. *)
Theorem parseFloat_reads_prefix (z : Z) (rest : string) :
  (forall c r, rest = String c r ->
     digit_of c = None /\ c ≠ "."%char /\ ExponentIndicator c = false) ->
  parseFloat (pretty z +:+ rest) = Number.of_Z z.
Proof.
  intros Hrest.
  assert (Hpos : forall ds, ds ≠ [] -> Forall is_digit ds ->
            parseFloat (string_of_digits ds +:+ rest)
            = Number.of_decimal false (digits_value ds) 0).
  { intros ds Hne Hds. destruct ds as [|d r] eqn:Hd; [done|].
    unfold parseFloat.
    destruct (parseFloat_digit_head d (string_of_digits r +:+ rest)) as (Ht & Hs & _).
    { by inversion Hds. }
    cbn [string_of_digits]. rewrite app_String, Ht, Hs.
    change (String (digit_char d) (string_of_digits r +:+ rest))
      with (string_of_digits (d :: r) +:+ rest).
    by rewrite (parseFloat_tail_rest false). }
  destruct z as [|p|p].
  - change (pretty 0) with (string_of_digits [0%N]).
    rewrite Hpos; [reflexivity|done|].
    constructor; [unfold is_digit; lia|constructor].
  - rewrite pretty_pos_digits, Hpos.
    + by rewrite digits_value_digits.
    + destruct (digits_head (Npos p)) as (d & r & Hd & _); [done|]. by rewrite Hd.
    + apply digits_are_digits.
  - rewrite pretty_neg_digits. unfold parseFloat.
    rewrite app_assoc_string.
    change (Sign (trimStart ("-" +:+ string_of_digits (digits (Npos p)) +:+ rest)))
      with (true, string_of_digits (digits (Npos p)) +:+ rest).
    cbv beta iota.
    rewrite (parseFloat_tail_rest true).
    + by rewrite digits_value_digits.
    + destruct (digits_head (Npos p)) as (d & r & Hd & _); [done|]. by rewrite Hd.
    + apply digits_are_digits.
    + done.
Qed.

Lemma parseFloat_reads_prefix_witness :
  parseFloat "8 hours" = Number.of_Z 8.
Proof.
  apply (parseFloat_reads_prefix 8 " hours").
  intros c r [= <- <-]. repeat split; [discriminate].
Defined.

(** ** The text of a whole number *)

Lemma of_Z_ratio n : 0 <= n -> Number.of_Z n = Number.of_ratio false n 1.
Proof.
  intros Hn. unfold Number.of_Z, Number.of_decimal.
  assert ((n <? 0) = false) as -> by (apply Z.ltb_ge; lia).
  rewrite N2Z.inj_abs_N, Z.abs_eq by lia.
  change (0 <=? 0) with true. cbv iota. change (10 ^ 0) with 1. by rewrite Z.mul_1_r.
Qed.

(** The binary64 of an integer from [2^53] on has a positive exponent. *)
Lemma of_ratio_large v m e :
  2 ^ 53 <= v -> Number.of_ratio false v 1 = S754_finite false m e -> 1 <= e.
Proof.
  intros Hv. unfold Number.of_ratio.
  assert (Hpos : 0 < v) by (cbn in Hv; lia).
  destruct v as [|p|p] eqn:Hp; [lia| |lia]. rewrite <- Hp in *.
  assert (Hd : 54 <= Zdigits2 v).
  { assert (53 < Zdigits2 v); [|lia]. apply Zdigits2_ge; lia. }
  unfold SFdiv_core_binary. change (Zdigits2 1) with 1.
  assert (He' : Z.min (fexp Number.prec Number.emax (Zdigits2 v + 0 - (1 + 0))) (0 - 0) = 0).
  { unfold fexp, SpecFloat.emin, Number.prec, Number.emax. lia. }
  rewrite He'. change (0 - 0 - 0) with 0. cbv iota.
  assert (Hdiv : IntDef.Z.div_eucl v 1 = (v, 0)).
  { pose proof (div_eucl_exact v 1 ltac:(lia)) as H. by rewrite Z.mul_1_r in H. }
  rewrite Hdiv, new_location_exact.
  unfold binary_round_aux.
  pose proof (shr_fexp_spec v 0 loc_Exact ltac:(lia)) as [Hm1 He1]. cbv zeta in Hm1, He1.
  destruct (shr_fexp Number.prec Number.emax v 0 loc_Exact) as [mrs1 e1].
  cbn [fst snd] in Hm1, He1.
  assert (He1' : 1 <= e1).
  { rewrite He1. unfold fexp, SpecFloat.emin, Number.prec, Number.emax. lia. }
  set (r := round_nearest_even (shr_m mrs1) (loc_of_shr_record mrs1)).
  assert (Hr : 0 <= r).
  { assert (0 <= shr_m mrs1).
    { rewrite Hm1. apply Z.div_pos; [lia|]. apply Z.pow_pos_nonneg; lia. }
    subst r. destruct (round_nearest_even_cases (shr_m mrs1) (loc_of_shr_record mrs1))
      as [-> | ->]; lia. }
  pose proof (shr_fexp_spec r e1 loc_Exact Hr) as [_ He2]. cbv zeta in He2.
  destruct (shr_fexp Number.prec Number.emax r e1 loc_Exact) as [mrs2 e2].
  cbn [snd] in He2.
  destruct (shr_m mrs2) as [|q|q]; [done| |done].
  destruct (e2 <=? Number.emax - Number.prec); [|done].
  intros [= _ <-]. lia.
Qed.

(** The numbers of two different integers differ, when one of them is
    below [2^53]. *)
Lemma of_Z_neq n v :
  0 < n < 2 ^ 53 -> 0 <= v -> v ≠ n -> Number.of_Z v ≠ Number.of_Z n.
Proof.
  intros Hn Hv Hne. rewrite (of_Z_integer n Hn).
  destruct (Z.eq_dec v 0) as [->|Hv0]; [by rewrite of_Z_0|].
  destruct (Z.lt_ge_cases v (2 ^ 53)) as [Hlt|Hge].
  - rewrite of_Z_integer by lia. intros [= Hm He].
    apply (f_equal Zpos) in Hm.
    rewrite !integer_mantissa_spec in Hm by lia.
    unfold integer_exponent in He.
    assert (Zdigits2 v = Zdigits2 n) as Hd by lia. rewrite Hd in Hm.
    pose proof (integer_digits n Hn).
    assert (0 < 2 ^ (53 - Zdigits2 n)) by (apply Z.pow_pos_nonneg; lia).
    apply Hne. nia.
  - rewrite of_Z_ratio by done. intros Heq.
    apply of_ratio_large in Heq; [|done].
    pose proof (integer_digits n Hn). unfold integer_exponent in Heq. lia.
Qed.

(** The number of decimal digits of a positive integer. *)
Lemma digits_count n :
  (n ≠ 0)%N ->
  (10 ^ (N.of_nat (length (digits n)) - 1) <= n < 10 ^ N.of_nat (length (digits n)))%N.
Proof.
  induction (N.lt_wf_0 n) as [n _ IH]. intros Hn.
  rewrite digits_step by done. rewrite length_app. cbn [length].
  replace (N.of_nat (length (digits (n / 10)) + 1) - 1)%N
    with (N.of_nat (length (digits (n / 10)))) by lia.
  replace (N.of_nat (length (digits (n / 10)) + 1))
    with (N.succ (N.of_nat (length (digits (n / 10))))) by lia.
  rewrite N.pow_succ_r by lia.
  destruct (N.eq_dec (n / 10) 0)%N as [H0|H0].
  - rewrite H0, digits_0. cbn [length N.of_nat].
    change (10 ^ 0)%N with 1%N.
    pose proof (N.div_mod n 10 ltac:(lia)).
    pose proof (N.mod_lt n 10 ltac:(lia)). lia.
  - destruct (IH (n / 10)%N) as [Hlo Hhi]; [apply N.div_lt; lia|done|].
    set (l := N.of_nat (length (digits (n / 10)))) in *.
    assert (l ≠ 0)%N.
    { subst l. destruct (digits_head (n / 10)%N H0) as (d & r & -> & _). cbn. lia. }
    replace (10 ^ l)%N with (10 * 10 ^ (l - 1))%N
      by (rewrite <- N.pow_succ_r by lia; f_equal; lia).
    pose proof (N.div_mod n 10 ltac:(lia)).
    pose proof (N.mod_lt n 10 ltac:(lia)).
    replace (10 ^ l)%N with (10 * 10 ^ (l - 1))%N in Hhi
      by (rewrite <- N.pow_succ_r by lia; f_equal; lia).
    clearbody l. set (X := (10 ^ (l - 1))%N) in *. clearbody X.
    set (q := (n / 10)%N) in *. set (r := (n mod 10)%N) in *. clearbody q r.
    clear IH. lia.
Qed.

Lemma decimal_count n :
  0 < n ->
  let nd := Z.of_nat (length (digits (Z.to_N n))) in
  1 <= nd /\ 10 ^ (nd - 1) <= n < 10 ^ nd.
Proof.
  intros Hn nd.
  destruct (digits_count (Z.to_N n)) as [Hlo Hhi]; [lia|].
  assert (H1 : 1 <= nd).
  { subst nd. destruct (digits_head (Z.to_N n)) as (d & r & -> & _); [lia|].
    cbn [length]. lia. }
  split; [exact H1|].
  apply N2Z.inj_le in Hlo. apply N2Z.inj_lt in Hhi.
  rewrite N2Z.inj_pow in Hlo, Hhi. rewrite Z2N.id in Hlo, Hhi by lia.
  rewrite N2Z.inj_sub in Hlo by lia.
  rewrite nat_N_Z in Hlo, Hhi. change (Z.of_N 10) with 10 in *.
  change (Z.of_N 1) with 1 in *. fold nd in Hlo, Hhi. lia.
Qed.

Lemma ge_pow10_integer n D i :
  0 < D -> 0 <= i -> ge_pow10 (n * D) D i = (10 ^ i <=? n).
Proof.
  intros HD Hi. unfold ge_pow10.
  assert ((0 <=? i) = true) as -> by (apply Z.leb_le; lia).
  destruct (Z.leb_spec (10 ^ i) n); [apply Z.leb_le|apply Z.leb_gt]; nia.
Qed.

Lemma scale_up_integer n D nd fuel i :
  0 < D -> 10 ^ (nd - 1) <= n < 10 ^ nd -> 1 <= i <= nd ->
  nd - i < Z.of_nat fuel ->
  scale_up fuel (n * D) D i = nd.
Proof.
  intros HD Hnd. revert i. induction fuel as [|fuel IH]; intros i Hi Hf; [lia|].
  cbn [scale_up]. rewrite ge_pow10_integer by lia.
  destruct (Z.leb_spec (10 ^ i) n) as [Hle|Hgt].
  - assert (i < nd).
    { destruct (Z.eq_dec i nd) as [->|]; lia. }
    apply IH; lia.
  - assert (nd - 1 < i); [|lia].
    apply (Z.pow_lt_mono_r_iff 10); lia.
Qed.

Lemma magnitude_integer n D :
  0 < n < 2 ^ 53 -> 0 < D ->
  magnitude (n * D) D = Z.of_nat (length (digits (Z.to_N n))).
Proof.
  intros Hn HD. destruct (decimal_count n) as [H1 Hb]; [lia|].
  set (nd := Z.of_nat (length (digits (Z.to_N n)))) in *.
  unfold magnitude. rewrite ge_pow10_integer by lia.
  assert ((10 ^ 0 <=? n) = true) as -> by (apply Z.leb_le; cbn; lia).
  apply scale_up_integer; [done|done|lia|].
  assert (nd - 1 < 16); [|lia].
  apply (Z.pow_lt_mono_r_iff 10); [lia|lia|]. cbn in *. lia.
Qed.

Lemma of_decimal_integer s j :
  0 <= s -> 0 <= j ->
  Number.of_decimal false (Z.to_N s) j = Number.of_Z (s * 10 ^ j).
Proof.
  intros Hs Hj. unfold Number.of_decimal.
  assert ((0 <=? j) = true) as -> by (apply Z.leb_le; lia).
  rewrite Z2N.id by done. rewrite of_Z_ratio; [done|].
  apply Z.mul_nonneg_nonneg; [done|]. apply Z.pow_nonneg. lia.
Qed.

Lemma decimal_of_neq n k s nd :
  0 < n < 2 ^ 53 -> 0 <= s -> k <= nd -> s * 10 ^ (nd - k) ≠ n ->
  decimal_of (Number.of_Z n) k (s, nd) = false.
Proof.
  intros Hn Hs Hk Hne. unfold decimal_of.
  rewrite of_decimal_integer by lia.
  rewrite (bool_decide_eq_false_2 (Number.of_Z (s * 10 ^ (nd - k)) = Number.of_Z n)).
  - apply andb_false_r.
  - apply of_Z_neq; [done| |done].
    apply Z.mul_nonneg_nonneg; [done|]. apply Z.pow_nonneg. lia.
Qed.

(** The decimals of [k] digits next to a whole number [n] of [nd] digits
    read as [n] when [n] has [k] digits before its last zeros, and do not
    otherwise. *)
Lemma candidate_integer n D k :
  0 < n < 2 ^ 53 -> 0 < D ->
  let nd := Z.of_nat (length (digits (Z.to_N n))) in
  1 <= k <= nd ->
  candidate (Number.of_Z n) (n * D) D nd k
  = if n mod 10 ^ (nd - k) =? 0 then Some (n / 10 ^ (nd - k), nd) else None.
Proof.
  intros Hn HD nd Hk. destruct (decimal_count n) as [H1 Hb]; [lia|]. fold nd in H1, Hb.
  set (P := 10 ^ (nd - k)).
  assert (HP : 0 < P) by (subst P; apply Z.pow_pos_nonneg; lia).
  assert (HPk : P * 10 ^ k = 10 ^ nd).
  { subst P. rewrite <- Z.pow_add_r by lia. f_equal. lia. }
  assert (HPk1 : P * 10 ^ (k - 1) = 10 ^ (nd - 1)).
  { subst P. rewrite <- Z.pow_add_r by lia. f_equal. lia. }
  assert (H10k : 0 < 10 ^ (k - 1)) by (apply Z.pow_pos_nonneg; lia).
  assert (H10k' : 10 ^ k = 10 * 10 ^ (k - 1)).
  { rewrite <- Z.pow_succ_r by lia. f_equal. lia. }
  unfold candidate.
  assert (Hpair : (if nd <=? k then (n * D * 10 ^ (k - nd), D)
                   else (n * D, D * 10 ^ (nd - k)))
                  = (n * D, P * D)).
  { destruct (Z.leb_spec nd k).
    - assert (k = nd) as Hknd by lia. subst P. rewrite Hknd, !Z.sub_diag.
      change (10 ^ 0) with 1. f_equal; lia.
    - f_equal. subst P. lia. }
  rewrite Hpair. rewrite Z.div_mul_cancel_r by lia.
  rewrite Z.mul_mod_distr_r by lia.
  pose proof (Z.div_mod n P ltac:(lia)) as Hdm.
  pose proof (Z.mod_pos_bound n P HP) as Hmod.
  assert (Hq : 10 ^ (k - 1) <= n / P < 10 ^ k).
  { split.
    - apply Z.div_le_lower_bound; [done|]. lia.
    - apply Z.div_lt_upper_bound; [done|]. lia. }
  destruct (Z.eqb_spec (n mod P) 0) as [Hr|Hr].
  - rewrite Hr, Z.mul_0_l. cbn [Z.eqb].
    assert (decimal_of (Number.of_Z n) k (n / P, nd) = true) as ->; [|done].
    unfold decimal_of. rewrite of_decimal_integer by lia. fold P.
    assert (n / P * P = n) as -> by lia.
    rewrite bool_decide_eq_true_2 by done.
    rewrite andb_true_r. apply andb_true_intro.
    split; [apply Z.leb_le|apply Z.ltb_lt]; lia.
  - assert ((n mod P * D =? 0) = false) as -> by (apply Z.eqb_neq; nia).
    rewrite (decimal_of_neq n k (n / P) nd) by (try done; try lia; fold P; nia).
    destruct (Z.eqb_spec (n / P + 1) (10 ^ k)) as [Hroll|Hroll].
    + rewrite (decimal_of_neq n k (10 ^ (k - 1)) (nd + 1)); [done|done|lia|lia|].
      replace (nd + 1 - k) with (1 + (nd - k)) by lia.
      rewrite Z.pow_add_r by lia. fold P. change (10 ^ 1) with 10. nia.
    + rewrite (decimal_of_neq n k (n / P + 1) nd); [done|done|lia|lia|].
      fold P. nia.
Qed.

Lemma shortest_from_integer n D fuel k :
  0 < n < 2 ^ 53 -> 0 < D ->
  let nd := Z.of_nat (length (digits (Z.to_N n))) in
  1 <= k <= nd -> nd - k < Z.of_nat fuel ->
  exists j,
    0 <= j < nd /\ n mod 10 ^ j = 0
    /\ shortest_from fuel (Number.of_Z n) (n * D) D nd k = Some (n / 10 ^ j, nd).
Proof.
  intros Hn HD nd. revert k. induction fuel as [|fuel IH]; intros k Hk Hf; [lia|].
  cbn [shortest_from].
  pose proof (candidate_integer n D k Hn HD Hk) as Hc. cbv zeta in Hc.
  fold nd in Hc. rewrite Hc.
  destruct (Z.eqb_spec (n mod 10 ^ (nd - k)) 0) as [Hr|Hr].
  - exists (nd - k). split; [lia|]. by split.
  - assert (k < nd).
    { destruct (Z.eq_dec k nd) as [->|]; [|lia].
      rewrite Z.sub_diag in Hr. change (10 ^ 0) with 1 in Hr.
      by rewrite Z.mod_1_r in Hr. }
    apply IH; lia.
Qed.

(** [Number::toString] of a whole number below [2^53] is its numeral. *)
Lemma Number_toString_of_Z n :
  0 <= n < 2 ^ 53 -> Number_toString (Number.of_Z n) = pretty n.
Proof.
  intros Hn. destruct (Z.eq_dec n 0) as [->|Hn0]; [reflexivity|].
  assert (Hn' : 0 < n < 2 ^ 53) by lia.
  pose proof (of_Z_integer n Hn') as Hx.
  pose proof (integer_digits n Hn') as Hd.
  pose proof (integer_mantissa_spec n Hn') as Hm.
  rewrite Hx. unfold Number_toString, shortest_decimal. rewrite <- Hx.
  assert (HMD : (if 0 <=? integer_exponent n
                 then (Zpos (integer_mantissa n) * 2 ^ integer_exponent n, 1)
                 else (Zpos (integer_mantissa n), 2 ^ (- integer_exponent n)))
                = (n * 2 ^ (- integer_exponent n), 2 ^ (- integer_exponent n))).
  { unfold integer_exponent in *. destruct (Z.leb_spec 0 (Zdigits2 n - 53)).
    - assert (Zdigits2 n - 53 = 0) as -> by lia. rewrite Hm.
      replace (53 - Zdigits2 n) with 0 by lia. cbn. f_equal. lia.
    - rewrite Hm. do 3 f_equal. lia. }
  rewrite HMD. set (D := 2 ^ (- integer_exponent n)).
  assert (HD : 0 < D) by (subst D; apply Z.pow_pos_nonneg; unfold integer_exponent; lia).
  rewrite magnitude_integer by done.
  destruct (decimal_count n) as [H1 Hb]; [lia|].
  set (nd := Z.of_nat (length (digits (Z.to_N n)))) in *.
  assert (Hnd : nd <= 16).
  { assert (nd - 1 < 16); [|lia].
    apply (Z.pow_lt_mono_r_iff 10); [lia|lia|]. cbn in *. lia. }
  destruct (shortest_from_integer n D 17 1 Hn' HD) as (j & Hj & Hdiv & Hs);
    [fold nd; lia|fold nd; lia|]. fold nd in Hj, Hs. rewrite Hs.
  assert (Hpj : 0 < 10 ^ j) by (apply Z.pow_pos_nonneg; lia).
  assert (Hnj : n = n / 10 ^ j * 10 ^ j).
  { pose proof (Z.div_mod n (10 ^ j) ltac:(lia)). lia. }
  assert (Hq : 0 < n / 10 ^ j) by nia.
  assert (Hds : digits (Z.to_N n)
                = digits (Z.to_N (n / 10 ^ j)) ++ replicate (Z.to_nat j) 0%N).
  { rewrite <- digits_mul_pow10 by lia. f_equal.
    rewrite Hnj at 1. rewrite Z2N.inj_mul, Z2N.inj_pow by lia.
    do 2 f_equal. lia. }
  assert (Hlen : Z.of_nat (length (digits (Z.to_N (n / 10 ^ j)))) = nd - j).
  { subst nd. rewrite Hds, length_app, length_replicate. lia. }
  rewrite app_empty. unfold format_decimal. rewrite Hlen.
  assert ((nd - j <=? nd) && (nd <=? 21) = true) as ->.
  { apply andb_true_intro. split; apply Z.leb_le; lia. }
  replace (nd - (nd - j)) with j by lia.
  unfold zeros. rewrite <- string_of_digits_app, <- Hds.
  symmetry. destruct n as [|p|p]; [lia| |lia]. apply pretty_pos_digits.
Qed.

(** X15.  Whole numbers are shown and stored as they were typed.  After
    an append of whole hours [a] and a whole wage [b], with a product
    below [2^53], the calendar has one more event, the last, with the
    title [<name> - <a>hrs], the day of the clock, and the income
    [a * b]; and the text of the entry for the storage has the numerals of
    [a], [b] and [a * b] for its numbers. *)
Theorem whole_numbers_text (c : string) (a b now today : Z) (w : App.world) :
  0 <= a < 2 ^ 53 -> 0 <= b < 2 ^ 53 -> a * b < 2 ^ 53 ->
  let e := Ledger.eval (Ledger.append c (pretty a) (pretty b) now today) w in
  let w' := Ledger.exec (Ledger.append c (pretty a) (pretty b) now today) w in
  calendarEvents (App.hooks w')
  = calendarEvents (App.hooks w)
    ++ [{| CalendarEvent.title := c +:+ " - " +:+ pretty a +:+ "hrs";
           CalendarEvent.date := toISOString_date today;
           CalendarEvent.extendedProps :=
             {| CalendarEvent.income := Number.of_Z (a * b) |} |}]
  /\ JSON_stringify (TimeEntry.to_value e)
     = "{" +:+ QuoteJSONString "id" +:+ ":" +:+ QuoteJSONString (pretty now)
       +:+ "," +:+ QuoteJSONString "date" +:+ ":"
       +:+ QuoteJSONString (toISOString_date today)
       +:+ "," +:+ QuoteJSONString "companyName" +:+ ":" +:+ QuoteJSONString c
       +:+ "," +:+ QuoteJSONString "hours" +:+ ":" +:+ pretty a
       +:+ "," +:+ QuoteJSONString "hourlyWage" +:+ ":" +:+ pretty b
       +:+ "," +:+ QuoteJSONString "totalIncome" +:+ ":" +:+ pretty (a * b)
       +:+ "}".
Proof.
  intros Ha Hb Hab e w'. subst e w'.
  assert (Hab' : 0 <= a * b < 2 ^ 53) by nia.
  assert (Hnum : forall n, 0 <= n < 2 ^ 53 ->
            SerializeJSONProperty (Num (Number.of_Z n)) = pretty n).
  { intros n Hn. cbn [SerializeJSONProperty].
    rewrite Number_toString_of_Z by done.
    destruct (Z.eq_dec n 0) as [->|Hn0]; [reflexivity|].
    by rewrite of_Z_integer by lia. }
  split.
  - unfold calendarEvents.
    change (App.entries (App.hooks (Ledger.exec
              (Ledger.append c (pretty a) (pretty b) now today) w)))
      with (Ledger.eval Ledger.list (Ledger.exec
              (Ledger.append c (pretty a) (pretty b) now today) w)).
    rewrite entries_append, map_app. f_equal. cbn [map].
    change (TimeEntry.hours (Ledger.eval
              (Ledger.append c (pretty a) (pretty b) now today) w))
      with (parseFloat (pretty a)).
    change (TimeEntry.totalIncome (Ledger.eval
              (Ledger.append c (pretty a) (pretty b) now today) w))
      with (Number.mul (parseFloat (pretty a)) (parseFloat (pretty b))).
    rewrite !parseFloat_pretty, mul_of_Z, Number_toString_of_Z by done.
    reflexivity.
  - unfold JSON_stringify.
    rewrite <- (app_empty_r (SerializeJSONProperty _)), entry_text.
    change (TimeEntry.hours (Ledger.eval
              (Ledger.append c (pretty a) (pretty b) now today) w))
      with (parseFloat (pretty a)).
    change (TimeEntry.hourlyWage (Ledger.eval
              (Ledger.append c (pretty a) (pretty b) now today) w))
      with (parseFloat (pretty b)).
    change (TimeEntry.totalIncome (Ledger.eval
              (Ledger.append c (pretty a) (pretty b) now today) w))
      with (Number.mul (parseFloat (pretty a)) (parseFloat (pretty b))).
    rewrite !parseFloat_pretty, mul_of_Z by done.
    rewrite !Hnum by done.
    change (TimeEntry.id (Ledger.eval
              (Ledger.append c (pretty a) (pretty b) now today) w))
      with (pretty now).
    change (TimeEntry.date (Ledger.eval
              (Ledger.append c (pretty a) (pretty b) now today) w))
      with (toISOString_date today).
    change (TimeEntry.companyName (Ledger.eval
              (Ledger.append c (pretty a) (pretty b) now today) w))
      with c.
    rewrite !app_String, !app_empty. reflexivity.
Qed.

Lemma whole_numbers_text_witness :
  map CalendarEvent.title
    (calendarEvents
       (App.hooks
          (Ledger.exec (Ledger.append "Acme" "8" "1250" 1700000000000 1700000000000)
             empty_ledger)))
  = ["Acme - 8hrs"].
Proof.
  destruct (whole_numbers_text "Acme" 8 1250 1700000000000 1700000000000
              empty_ledger) as [H _]; [lia..|].
  change (pretty 8) with "8" in H. change (pretty 1250) with "1250" in H.
  rewrite H. reflexivity.
Defined.

Lemma toFixed_in_range x f : 0 <= f <= 100 -> exists s, toFixed x f = Some s.
Proof.
  intros Hf. unfold toFixed.
  assert ((f <? 0) || (100 <? f) = false) as ->.
  { apply orb_false_intro; apply Z.ltb_ge; lia. }
  destruct x as [s|s| |s m e]; try by eexists.
  destruct (if 0 <=? e then _ else _) as [M D].
  destruct (ge_pow10 M D 21); by eexists.
Qed.

(** X16.  One entry whose hours are [NaN] makes the total of the hours
    [NaN], wherever the entry is in the ledger and whatever the other
    entries are, and the card of the hours reads [NaN hours]; and so for
    the income, whose card reads [¥NaN]. *)
Theorem NaN_poisons_totals (st : App.state) (e : TimeEntry.t) :
  e ∈ App.entries st ->
  (TimeEntry.hours e = Number.NaN ->
     App.totalHours st = Number.NaN
     /\ exists i, render_cards st = Some (Cards "NaN hours" i))
  /\ (TimeEntry.totalIncome e = Number.NaN ->
        App.totalIncome st = Number.NaN
        /\ exists h, render_cards st = Some (Cards h "¥NaN")).
Proof.
  intros Hin. split; intros He.
  - assert (Ht : App.totalHours st = Number.NaN)
      by (by apply (fold_add_poisoned TimeEntry.hours _ e)).
    split; [exact Ht|]. unfold render_cards. rewrite Ht.
    destruct (toFixed_in_range (App.totalIncome st) 0) as [i ->]; [lia|].
    by eexists.
  - assert (Ht : App.totalIncome st = Number.NaN)
      by (by apply (fold_add_poisoned TimeEntry.totalIncome _ e)).
    split; [exact Ht|]. unfold render_cards. rewrite Ht.
    destruct (toFixed_in_range (App.totalHours st) 2) as [h ->]; [lia|].
    by eexists.
Qed.

Lemma NaN_poisons_totals_witness :
  App.totalHours
    (App.hooks
       (Ledger.exec (Ledger.append "Beta" "2" "1500" 1700000060000 1700000060000)
          tainted))
  = Number.NaN.
Proof.
  eapply (NaN_poisons_totals _
            (Ledger.eval (Ledger.append "Acme" "abc" "1000" 1700000000000
                            1700000000000) empty_ledger)).
  - vm_compute. apply list_elem_of_here.
  - vm_compute. reflexivity.
Defined.

(** ** The totals after loading again *)









Lemma stored_valid y : Number.valid y = true -> Number.valid (stored y) = true.
Proof. by destruct y. Qed.





(** ** Half hours *)

Lemma parseFloat_point_five ds :
  ds ≠ [] -> Forall is_digit ds ->
  parseFloat (string_of_digits ds +:+ ".5")
  = Number.of_decimal false (10 * digits_value ds + 5) (-1).
Proof.
  intros Hne Hds. destruct ds as [|d r] eqn:Hd; [done|].
  unfold parseFloat.
  destruct (parseFloat_digit_head d (string_of_digits r +:+ ".5")) as (Ht & Hs & Hp).
  { by inversion Hds. }
  cbn [string_of_digits]. rewrite app_String, Ht, Hs, Hp.
  change (String (digit_char d) (string_of_digits r +:+ ".5"))
    with (string_of_digits (d :: r) +:+ ".5").
  rewrite DecimalDigits_digits by done.
  reflexivity.
Qed.

(** [parseFloat] reads the text of [h] halves as the number [h / 2]. *)
Lemma parseFloat_halves h :
  0 <= h < 2 ^ 53 -> parseFloat (halves_text h) = halves h.
Proof.
  intros Hh. unfold halves_text.
  pose proof (Z.div_mod h 2 ltac:(lia)) as Hdm.
  pose proof (Z.mod_pos_bound h 2 ltac:(lia)) as Hmod.
  destruct (Z.even h) eqn:He.
  - apply Z.even_spec in He. destruct He as [a ->].
    rewrite Z.mul_comm, Z.div_mul by lia.
    rewrite parseFloat_pretty. rewrite Z.mul_comm. apply of_Z_halves.
    cbn in *. lia.
  - assert (Hodd : h mod 2 = 1).
    { rewrite Zmod_even, He. reflexivity. }
    set (a := h / 2) in *.
    assert (Ha : 0 <= a) by lia.
    rewrite (pretty_nonneg_digits a Ha).
    rewrite parseFloat_point_five.
    + unfold Number.of_decimal. cbn [Z.leb Z.compare Z.opp].
      assert (Z.of_N (10 * digits_value (if a =? 0 then [0%N] else digits (Z.to_N a)) + 5)
              = 5 * h) as ->.
      { destruct (Z.eqb_spec a 0) as [Ha0|Ha0].
        - cbn. lia.
        - rewrite digits_value_digits. lia. }
      change (10 ^ (- (-1))) with (5 * 2 ^ 1).
      rewrite of_ratio_dyadic by lia. symmetry. apply halves_dyadic. lia.
    + destruct (Z.eqb_spec a 0) as [Ha0|Ha0]; [done|].
      by destruct (digits_head (Z.to_N a)) as (d & r & -> & _); [lia|].
    + destruct (a =? 0); [|apply digits_are_digits].
      constructor; [unfold is_digit; lia|constructor].
Qed.

Lemma toFixed_halves_nearest h f :
  0 < h < 2 ^ 53 -> 0 <= f <= 100 ->
  toFixed (halves h) f = Some (toFixed_digits ((h * 10 ^ f + 1) / 2) f).
Proof.
  intros Hh Hf. rewrite halves_dyadic by done. unfold toFixed.
  assert ((f <? 0) || (100 <? f) = false) as ->.
  { apply orb_false_intro; apply Z.ltb_ge; lia. }
  pose proof (integer_digits h Hh) as Hd.
  pose proof (integer_mantissa_spec h Hh) as Hm.
  set (D := 2 ^ (53 - Zdigits2 h)).
  assert (HD : 0 < D) by (subst D; apply Z.pow_pos_nonneg; lia).
  assert (HMD : (if 0 <=? integer_exponent h - 1
                 then (Zpos (integer_mantissa h) * 2 ^ (integer_exponent h - 1), 1)
                 else (Zpos (integer_mantissa h), 2 ^ (- (integer_exponent h - 1))))
                = (h * D, 2 * D)).
  { unfold integer_exponent.
    assert ((0 <=? Zdigits2 h - 53 - 1) = false) as -> by (apply Z.leb_gt; lia).
    rewrite Hm. f_equal. subst D.
    replace (- (Zdigits2 h - 53 - 1)) with (1 + (53 - Zdigits2 h)) by lia.
    rewrite Z.pow_add_r by lia. reflexivity. }
  rewrite HMD.
  assert (ge_pow10 (h * D) (2 * D) 21 = false) as ->.
  { unfold ge_pow10. cbn [Z.leb Z.compare]. apply Z.leb_gt.
    assert (h < 10 ^ 21) by (cbn in *; lia). nia. }
  rewrite app_empty. do 2 f_equal.
  unfold toFixed_nearest.
  replace (2 * (h * D) * 10 ^ f + 2 * D) with ((h * 10 ^ f + 1) * (2 * D)) by lia.
  by rewrite Z.div_mul_cancel_r by lia.
Qed.

(** [toFixed(0)] of [h / 2] rounds the half up. *)
Lemma toFixed_halves_0 h :
  0 <= h < 2 ^ 53 -> toFixed (halves h) 0 = Some (pretty ((h + 1) / 2)).
Proof.
  intros Hh. destruct (Z.eq_dec h 0) as [->|Hh0]; [reflexivity|].
  rewrite toFixed_halves_nearest by lia.
  change (10 ^ 0) with 1. rewrite Z.mul_1_r.
  assert (0 <= (h + 1) / 2) by (apply Z.div_pos; lia).
  by rewrite (pretty_nonneg_digits ((h + 1) / 2)).
Qed.

Lemma digits_point_five (a : N) :
  digits (100 * a + 50) = digits a ++ [5%N; 0%N].
Proof.
  rewrite (digits_step (100 * a + 50)) by lia.
  replace ((100 * a + 50) / 10)%N with (10 * a + 5)%N
    by (apply (N.div_unique _ 10 _ 0); lia).
  replace ((100 * a + 50) mod 10)%N with 0%N
    by (apply (N.mod_unique _ 10 (10 * a + 5)); lia).
  rewrite (digits_step (10 * a + 5)) by lia.
  replace ((10 * a + 5) / 10)%N with a
    by (apply (N.div_unique _ 10 _ 5); lia).
  replace ((10 * a + 5) mod 10)%N with 5%N
    by (apply (N.mod_unique _ 10 a); lia).
  by rewrite <- app_assoc.
Qed.

(** [toFixed(2)] of [h / 2] is exact. *)
Lemma toFixed_halves_2 h :
  0 <= h < 2 ^ 53 ->
  toFixed (halves h) 2
  = Some (pretty (h / 2) +:+ (if Z.even h then ".00" else ".50")).
Proof.
  intros Hh. destruct (Z.eq_dec h 0) as [->|Hh0]; [reflexivity|].
  rewrite toFixed_halves_nearest by lia. f_equal.
  change (10 ^ 2) with 100.
  pose proof (Z.div_mod h 2 ltac:(lia)) as Hdm.
  pose proof (Z.mod_pos_bound h 2 ltac:(lia)) as Hmod.
  set (a := h / 2) in *.
  destruct (Z.even h) eqn:He.
  - assert (h mod 2 = 0) as Hm0 by (rewrite Zmod_even, He; reflexivity).
    replace ((h * 100 + 1) / 2) with (a * 10 ^ 2)
      by (apply (Z.div_unique _ 2 _ 1); lia).
    by rewrite toFixed_digits_integer by lia.
  - assert (h mod 2 = 1) as Hm1 by (rewrite Zmod_even, He; reflexivity).
    replace ((h * 100 + 1) / 2) with (100 * a + 50)
      by (apply (Z.div_unique _ 2 _ 1); lia).
    unfold toFixed_digits.
    assert ((100 * a + 50 =? 0) = false) as -> by (apply Z.eqb_neq; lia).
    change (2 =? 0) with false. cbv iota.
    replace (Z.to_N (100 * a + 50)) with (100 * Z.to_N a + 50)%N by lia.
    rewrite digits_point_five, length_app. cbn [length].
    rewrite (pretty_nonneg_digits a) by lia.
    destruct (Z.eqb_spec a 0) as [->|Ha0]; [reflexivity|].
    destruct (digits_head (Z.to_N a)) as (d & r & Hdr & _); [lia|].
    assert ((Z.of_nat (length (digits (Z.to_N a)) + 2) <=? 2) = false) as ->.
    { apply Z.leb_gt. rewrite Hdr. cbn [length]. lia. }
    replace (Z.to_nat (Z.of_nat (length (digits (Z.to_N a)) + 2) - 2))
      with (length (digits (Z.to_N a))) by lia.
    by rewrite take_app_length, drop_app_length.
Qed.

Lemma fold_add_halves (l : list Z) (acc : Z) :
  Forall (fun h => 0 <= h) l -> 0 <= acc -> acc + sum_Z l < 2 ^ 53 ->
  fold_left Number.add (map halves l) (halves acc) = halves (acc + sum_Z l).
Proof.
  intros Hall. revert acc. induction Hall as [|h l Hh Hl IH]; intros acc Hacc Hlt.
  - cbn [map fold_left sum_Z fold_right]. by rewrite Z.add_0_r.
  - cbn [map fold_left]. pose proof (sum_Z_nonneg l Hl) as Hnn.
    change (sum_Z (h :: l)) with (h + sum_Z l) in *.
    rewrite add_halves by lia. rewrite IH by lia. f_equal. lia.
Qed.

(** X18.  Hours in steps of a half are exact.  When the hours are typed as
    [h] halves, a numeral with [.5] after it when [h] is odd, and the wage
    as the numeral of an integer [b], with [h * b] below [2^53], the entry
    has the hours [h / 2], the wage [b] and the income [h * b / 2]
    exactly, and the list shows the income rounded to a whole yen, the
    half being rounded up. *)
Theorem half_hours_entry (c : string) (h b now today : Z) (w : App.world) :
  0 <= h < 2 ^ 53 -> 0 <= b < 2 ^ 53 -> h * b < 2 ^ 53 ->
  let e := Ledger.eval (Ledger.append c (halves_text h) (pretty b) now today) w in
  TimeEntry.hours e = halves h
  /\ TimeEntry.hourlyWage e = Number.of_Z b
  /\ TimeEntry.totalIncome e = halves (h * b)
  /\ render_income (TimeEntry.totalIncome e)
     = Some ("¥" +:+ pretty ((h * b + 1) / 2)).
Proof.
  intros Hh Hb Hhb e. subst e.
  assert (Hinc : TimeEntry.totalIncome
                   (Ledger.eval (Ledger.append c (halves_text h) (pretty b) now today) w)
                 = halves (h * b)).
  { change (Number.mul (parseFloat (halves_text h)) (parseFloat (pretty b))
            = halves (h * b)).
    rewrite parseFloat_halves, parseFloat_pretty by done. by apply mul_halves. }
  split; [by apply parseFloat_halves|]. split; [apply parseFloat_pretty|].
  split; [exact Hinc|].
  rewrite Hinc. unfold render_income.
  by rewrite toFixed_halves_0 by nia.
Qed.

Lemma half_hours_entry_witness :
  render_income
    (TimeEntry.totalIncome
       (Ledger.eval (Ledger.append "Acme" "7.5" "1001" 1700000000000 1700000000000)
          empty_ledger))
  = Some "¥7508".
Proof.
  destruct (half_hours_entry "Acme" 15 1001 1700000000000 1700000000000
              empty_ledger) as (_ & _ & _ & H); [lia..|].
  exact H.
Defined.

(** X19.  The totals of half hours are exact: when the hours of the
    entries are [hs] halves and their incomes [ts] halves, non-negative
    and with sums below [2^53], the total hours and the total income are
    half the sums of those integers, the card of the hours shows that
    total with [.00] or [.50] after the point, and the card of the income
    shows the total rounded to a whole yen, the half being rounded up. *)
Theorem half_hours_totals (st : App.state) (hs ts : list Z) :
  map TimeEntry.hours (App.entries st) = map halves hs ->
  map TimeEntry.totalIncome (App.entries st) = map halves ts ->
  Forall (fun h => 0 <= h) hs -> Forall (fun t => 0 <= t) ts ->
  sum_Z hs < 2 ^ 53 -> sum_Z ts < 2 ^ 53 ->
  App.totalHours st = halves (sum_Z hs)
  /\ App.totalIncome st = halves (sum_Z ts)
  /\ render_cards st
     = Some (Cards (pretty (sum_Z hs / 2)
                      +:+ (if Z.even (sum_Z hs) then ".00" else ".50") +:+ " hours")
               ("¥" +:+ pretty ((sum_Z ts + 1) / 2))).
Proof.
  intros Hh Ht Hhs Hts Hsh Hst.
  assert (H1 : App.totalHours st = halves (sum_Z hs)).
  { unfold App.totalHours.
    rewrite (fold_add_map TimeEntry.hours (App.entries st)), Hh.
    change Number.zero with (halves 0).
    by rewrite fold_add_halves by (try done; lia). }
  assert (H2 : App.totalIncome st = halves (sum_Z ts)).
  { unfold App.totalIncome.
    rewrite (fold_add_map TimeEntry.totalIncome (App.entries st)), Ht.
    change Number.zero with (halves 0).
    by rewrite fold_add_halves by (try done; lia). }
  split; [exact H1|]. split; [exact H2|].
  unfold render_cards. rewrite H1, H2.
  pose proof (sum_Z_nonneg hs Hhs). pose proof (sum_Z_nonneg ts Hts).
  rewrite toFixed_halves_2, toFixed_halves_0 by lia.
  cbn [mbind option_bind]. by rewrite app_assoc_string.
Qed.

Lemma half_hours_totals_witness :
  render_cards
    (App.hooks
       (Ledger.appends
          [Ledger.Call "Acme" "7.5" "1001" 1700000000000 1700000000000;
           Ledger.Call "Beta" "2" "1500" 1700000060000 1700000060000] empty_ledger))
  = Some (Cards "9.50 hours" "¥10508").
Proof.
  destruct (half_hours_totals
              (App.hooks
                 (Ledger.appends
                    [Ledger.Call "Acme" "7.5" "1001" 1700000000000 1700000000000;
                     Ledger.Call "Beta" "2" "1500" 1700000060000 1700000060000]
                    empty_ledger))
              [15; 4] [15015; 6000]) as (_ & _ & H).
  - vm_compute. reflexivity.
  - vm_compute. reflexivity.
  - repeat constructor; lia.
  - repeat constructor; lia.
  - cbn. lia.
  - cbn. lia.
  - exact H.
Defined.

(** ** The text of half hours *)

(** The number of an integer is not an odd number of halves. *)
Lemma of_Z_neq_halves v h :
  0 <= v -> 0 < h < 2 ^ 53 -> h mod 2 = 1 -> Number.of_Z v ≠ halves h.
Proof.
  intros Hv Hh Hodd. rewrite (halves_dyadic h Hh).
  pose proof (integer_digits h Hh) as Hdh.
  destruct (Z.eq_dec v 0) as [->|Hv0]; [by rewrite of_Z_0|].
  destruct (Z.lt_ge_cases v (2 ^ 53)) as [Hlt|Hge].
  - assert (Hv' : 0 < v < 2 ^ 53) by lia.
    pose proof (integer_digits v Hv') as Hdv.
    rewrite of_Z_integer by done. intros [= Hm He].
    apply (f_equal Zpos) in Hm.
    rewrite !integer_mantissa_spec in Hm by done.
    unfold integer_exponent in He.
    assert (Zdigits2 h = Zdigits2 v + 1) as Hd by lia.
    rewrite Hd in Hm.
    replace (53 - Zdigits2 v) with (1 + (53 - (Zdigits2 v + 1))) in Hm by lia.
    rewrite Z.pow_add_r in Hm by lia. change (2 ^ 1) with 2 in Hm.
    assert (0 < 2 ^ (53 - (Zdigits2 v + 1))) by (apply Z.pow_pos_nonneg; lia).
    assert (2 * v = h) by nia.
    pose proof (Z.div_mod h 2 ltac:(lia)). lia.
  - rewrite of_Z_ratio by done. intros Heq.
    apply of_ratio_large in Heq; [|done].
    unfold integer_exponent in Heq. lia.
Qed.

Lemma decimal_of_integer_halves h k s nd :
  0 < h < 2 ^ 53 -> h mod 2 = 1 -> 0 <= s -> k <= nd ->
  decimal_of (halves h) k (s, nd) = false.
Proof.
  intros Hh Hodd Hs Hk. unfold decimal_of.
  rewrite of_decimal_integer by lia.
  rewrite (bool_decide_eq_false_2 (Number.of_Z (s * 10 ^ (nd - k)) = halves h)).
  - apply andb_false_r.
  - apply of_Z_neq_halves; [|done|done].
    apply Z.mul_nonneg_nonneg; [done|]. apply Z.pow_nonneg. lia.
Qed.

(** The number of decimal digits of [a], none for [0]. *)
Lemma decimal_count_0 a :
  0 <= a ->
  let nd := Z.of_nat (length (digits (Z.to_N a))) in
  0 <= nd /\ (a = 0 -> nd = 0)
  /\ (0 < a -> 1 <= nd /\ 10 ^ (nd - 1) <= a < 10 ^ nd).
Proof.
  intros Ha nd. split; [lia|]. split.
  - intros ->. reflexivity.
  - intros Hpos. apply (decimal_count a Hpos).
Qed.

Section Halves.

Variable a : Z.
Hypothesis Ha : 0 <= a.
Hypothesis Hh : 2 * a + 1 < 2 ^ 53.
Variable D' : Z.
Hypothesis HD' : 0 < D'.

Lemma ge_pow10_halves i :
  0 <= i -> ge_pow10 ((2 * a + 1) * D') (2 * D') i = (10 ^ i <=? a).
Proof.
  intros Hi. unfold ge_pow10.
  assert ((0 <=? i) = true) as -> by (apply Z.leb_le; lia).
  assert (0 < 10 ^ i) by (apply Z.pow_pos_nonneg; lia).
  destruct (Z.leb_spec (10 ^ i) a); [apply Z.leb_le|apply Z.leb_gt]; nia.
Qed.

Lemma scale_up_halves nd fuel i :
  10 ^ (nd - 1) <= a < 10 ^ nd -> 1 <= i <= nd ->
  nd - i < Z.of_nat fuel ->
  scale_up fuel ((2 * a + 1) * D') (2 * D') i = nd.
Proof.
  intros Hnd. revert i. induction fuel as [|fuel IH]; intros i Hi Hf; [lia|].
  cbn [scale_up]. rewrite ge_pow10_halves by lia.
  destruct (Z.leb_spec (10 ^ i) a) as [Hle|Hgt].
  - assert (i < nd).
    { destruct (Z.eq_dec i nd) as [->|]; lia. }
    apply IH; lia.
  - assert (nd - 1 < i); [|lia].
    apply (Z.pow_lt_mono_r_iff 10); lia.
Qed.

Lemma magnitude_halves :
  magnitude ((2 * a + 1) * D') (2 * D') = Z.of_nat (length (digits (Z.to_N a))).
Proof.
  destruct (decimal_count_0 a Ha) as (Hnd0 & Hz & Hp).
  set (nd := Z.of_nat (length (digits (Z.to_N a)))) in *.
  unfold magnitude. rewrite ge_pow10_halves by lia. change (10 ^ 0) with 1.
  destruct (Z.leb_spec 1 a) as [Hpos|Hzero].
  - destruct (Hp ltac:(lia)) as [H1 Hb].
    apply scale_up_halves; [done|lia|].
    assert (nd - 1 < 16); [|lia].
    apply (Z.pow_lt_mono_r_iff 10); [lia|lia|]. cbn in *. lia.
  - assert (a = 0) as Ha0 by lia. rewrite (Hz Ha0).
    change (scale_down 400 ((2 * a + 1) * D') (2 * D') 0)
      with (if ge_pow10 ((2 * a + 1) * D') (2 * D') (0 - 1) then 0
            else scale_down 399 ((2 * a + 1) * D') (2 * D') (0 - 1)).
    assert (ge_pow10 ((2 * a + 1) * D') (2 * D') (0 - 1) = true) as ->; [|done].
    unfold ge_pow10. cbn [Z.sub Z.opp Z.add Z.leb Z.compare Z.pos_sub].
    apply Z.leb_le. rewrite Ha0. change (10 ^ 1) with 10. lia.
Qed.

Lemma candidate_halves_short k :
  let nd := Z.of_nat (length (digits (Z.to_N a))) in
  1 <= k <= nd ->
  candidate (halves (2 * a + 1)) ((2 * a + 1) * D') (2 * D') nd k = None.
Proof.
  intros nd Hk. destruct (decimal_count_0 a Ha) as (Hnd0 & Hz & Hp). fold nd in Hnd0, Hz, Hp.
  assert (Hpos : 0 < a).
  { destruct (Z.eq_dec a 0) as [Ha0|]; [|lia]. specialize (Hz Ha0). lia. }
  destruct (Hp Hpos) as [H1 Hb].
  assert (Hh' : 0 < 2 * a + 1 < 2 ^ 53) by lia.
  assert (Hodd : (2 * a + 1) mod 2 = 1).
  { rewrite Z.add_comm, Z.mul_comm, Z.mod_add by lia. reflexivity. }
  set (P := 10 ^ (nd - k)).
  assert (HP : 0 < P) by (subst P; apply Z.pow_pos_nonneg; lia).
  unfold candidate.
  assert (Hpair : (if nd <=? k then ((2 * a + 1) * D' * 10 ^ (k - nd), 2 * D')
                   else ((2 * a + 1) * D', 2 * D' * 10 ^ (nd - k)))
                  = ((2 * a + 1) * D', (2 * P) * D')).
  { destruct (Z.leb_spec nd k).
    - assert (k = nd) as Hknd by lia. subst P. rewrite Hknd, !Z.sub_diag.
      change (10 ^ 0) with 1. f_equal; lia.
    - f_equal. subst P. lia. }
  rewrite Hpair. rewrite Z.div_mul_cancel_r by lia.
  rewrite Z.mul_mod_distr_r by lia.
  pose proof (Z.div_mod (2 * a + 1) (2 * P) ltac:(lia)) as Hdm.
  pose proof (Z.mod_pos_bound (2 * a + 1) (2 * P) ltac:(lia)) as Hmod.
  set (q := (2 * a + 1) / (2 * P)) in *.
  set (r := (2 * a + 1) mod (2 * P)) in *.
  assert (Hr : r ≠ 0).
  { intros Hr0. rewrite Hr0 in Hdm. lia. }
  assert (Hq : 0 <= q) by (subst q; apply Z.div_pos; lia).
  assert ((r * D' =? 0) = false) as -> by (apply Z.eqb_neq; nia).
  rewrite (decimal_of_integer_halves (2 * a + 1) k q nd) by (done || lia).
  assert (H10 : 0 <= 10 ^ (k - 1)) by (apply Z.pow_nonneg; lia).
  destruct (q + 1 =? 10 ^ k).
  - by rewrite (decimal_of_integer_halves (2 * a + 1) k (10 ^ (k - 1)) (nd + 1))
      by (done || lia).
  - by rewrite (decimal_of_integer_halves (2 * a + 1) k (q + 1) nd) by (done || lia).
Qed.

Lemma candidate_halves_full :
  let nd := Z.of_nat (length (digits (Z.to_N a))) in
  candidate (halves (2 * a + 1)) ((2 * a + 1) * D') (2 * D') nd (nd + 1)
  = Some (10 * a + 5, nd).
Proof.
  intros nd. destruct (decimal_count_0 a Ha) as (Hnd0 & Hz & Hp). fold nd in Hnd0, Hz, Hp.
  assert (Hh' : 0 < 2 * a + 1 < 2 ^ 53) by lia.
  unfold candidate.
  assert ((nd <=? nd + 1) = true) as -> by (apply Z.leb_le; lia).
  replace (nd + 1 - nd) with 1 by lia. change (10 ^ 1) with 10.
  replace ((2 * a + 1) * D' * 10) with ((10 * a + 5) * (2 * D')) by lia.
  rewrite Z.div_mul, Z.mod_mul by lia. cbn [Z.eqb].
  assert (decimal_of (halves (2 * a + 1)) (nd + 1) (10 * a + 5, nd) = true) as ->;
    [|done].
  unfold decimal_of.
  assert (Hb : 10 ^ (nd + 1 - 1) <= 10 * a + 5 < 10 ^ (nd + 1)).
  { replace (nd + 1 - 1) with nd by lia.
    destruct (Z.eq_dec a 0) as [Ha0|Ha0].
    - rewrite (Hz Ha0), Ha0. cbn. lia.
    - destruct (Hp ltac:(lia)) as [H1 Hb].
      rewrite Z.pow_add_r by lia. change (10 ^ 1) with 10.
      replace (10 ^ nd) with (10 * 10 ^ (nd - 1))
        by (rewrite <- Z.pow_succ_r by lia; f_equal; lia).
      replace (10 ^ nd) with (10 * 10 ^ (nd - 1)) in Hb
        by (rewrite <- Z.pow_succ_r by lia; f_equal; lia).
      lia. }
  assert ((10 ^ (nd + 1 - 1) <=? 10 * a + 5) && (10 * a + 5 <? 10 ^ (nd + 1)) = true)
    as ->.
  { apply andb_true_intro. split; [apply Z.leb_le|apply Z.ltb_lt]; lia. }
  apply bool_decide_eq_true_2.
  replace (nd - (nd + 1)) with (-1) by lia.
  unfold Number.of_decimal. cbn [Z.leb Z.compare Z.opp].
  rewrite Z2N.id by lia.
  change (10 ^ (- (-1))) with (5 * 2 ^ 1).
  replace (10 * a + 5) with (5 * (2 * a + 1)) by lia.
  rewrite of_ratio_dyadic by lia. symmetry. by apply halves_dyadic.
Qed.

Lemma shortest_from_halves fuel k :
  let nd := Z.of_nat (length (digits (Z.to_N a))) in
  1 <= k <= nd + 1 -> nd + 1 - k < Z.of_nat fuel ->
  shortest_from fuel (halves (2 * a + 1)) ((2 * a + 1) * D') (2 * D') nd k
  = Some (10 * a + 5, nd).
Proof.
  intros nd. revert k. induction fuel as [|fuel IH]; intros k Hk Hf; [lia|].
  cbn [shortest_from].
  destruct (Z.eq_dec k (nd + 1)) as [->|Hne].
  - pose proof candidate_halves_full as Hc. cbv zeta in Hc. fold nd in Hc.
    by rewrite Hc.
  - pose proof (candidate_halves_short k) as Hc. cbv zeta in Hc. fold nd in Hc.
    rewrite Hc by lia. apply IH; lia.
Qed.

End Halves.

(** [Number::toString] of [h] halves is their text. *)
Lemma Number_toString_halves h :
  0 <= h < 2 ^ 53 -> Number_toString (halves h) = halves_text h.
Proof.
  intros Hh. unfold halves_text.
  pose proof (Z.div_mod h 2 ltac:(lia)) as Hdm.
  pose proof (Z.mod_pos_bound h 2 ltac:(lia)) as Hmod.
  set (a := h / 2) in *.
  destruct (Z.even h) eqn:He.
  - assert (h mod 2 = 0) as Hm0 by (rewrite Zmod_even, He; reflexivity).
    clearbody a. assert (h = 2 * a) as -> by lia.
    rewrite <- of_Z_halves by (cbn in *; lia).
    apply Number_toString_of_Z. cbn in *. lia.
  - assert (h mod 2 = 1) as Hm1 by (rewrite Zmod_even, He; reflexivity).
    clearbody a.
    assert (Hha : h = 2 * a + 1) by lia.
    assert (Ha : 0 <= a) by lia.
    assert (Hh' : 0 < h < 2 ^ 53) by lia.
    pose proof (halves_dyadic h Hh') as Hx.
    pose proof (integer_digits h Hh') as Hd.
    pose proof (integer_mantissa_spec h Hh') as Hm.
    rewrite Hx. unfold Number_toString, shortest_decimal. rewrite <- Hx.
    set (D' := 2 ^ (53 - Zdigits2 h)).
    assert (HD' : 0 < D') by (subst D'; apply Z.pow_pos_nonneg; lia).
    assert (HMD : (if 0 <=? integer_exponent h - 1
                   then (Zpos (integer_mantissa h) * 2 ^ (integer_exponent h - 1), 1)
                   else (Zpos (integer_mantissa h), 2 ^ (- (integer_exponent h - 1))))
                  = (h * D', 2 * D')).
    { unfold integer_exponent.
      assert ((0 <=? Zdigits2 h - 53 - 1) = false) as -> by (apply Z.leb_gt; lia).
      rewrite Hm. f_equal. subst D'.
      replace (- (Zdigits2 h - 53 - 1)) with (1 + (53 - Zdigits2 h)) by lia.
      rewrite Z.pow_add_r by lia. reflexivity. }
    rewrite HMD. clearbody D'. rewrite Hha.
    rewrite (magnitude_halves a Ha ltac:(lia) D' HD').
    destruct (decimal_count_0 a Ha) as (Hnd0 & Hz & Hp).
    set (nd := Z.of_nat (length (digits (Z.to_N a)))) in *.
    assert (Hnd : nd <= 16).
    { destruct (Z.eq_dec a 0) as [Ha0|Ha0]; [rewrite (Hz Ha0); lia|].
      destruct (Hp ltac:(lia)) as [H1 Hb].
      assert (nd - 1 < 16); [|lia].
      apply (Z.pow_lt_mono_r_iff 10); [lia|lia|]. cbn in *. lia. }
    pose proof (shortest_from_halves a Ha ltac:(lia) D' HD' 17 1) as Hs.
    cbv zeta in Hs. fold nd in Hs. rewrite Hs by lia.
    rewrite app_empty.
    assert (Hds : digits (Z.to_N (10 * a + 5)) = digits (Z.to_N a) ++ [5%N]).
    { rewrite (digits_step (Z.to_N (10 * a + 5))) by lia.
      replace (Z.to_N (10 * a + 5)) with (10 * Z.to_N a + 5)%N by lia.
      replace ((10 * Z.to_N a + 5) / 10)%N with (Z.to_N a)
        by (apply (N.div_unique _ 10 _ 5); lia).
      replace ((10 * Z.to_N a + 5) mod 10)%N with 5%N
        by (apply (N.mod_unique _ 10 (Z.to_N a)); lia).
      done. }
    rewrite Hds. unfold format_decimal. rewrite length_app. cbn [length].
    replace (Z.of_nat (length (digits (Z.to_N a)) + 1)) with (nd + 1) by lia.
    assert ((nd + 1 <=? nd) = false) as -> by (apply Z.leb_gt; lia).
    cbn [andb].
    rewrite (pretty_nonneg_digits a Ha).
    destruct (Z.eqb_spec a 0) as [Ha0|Ha0].
    + rewrite (Hz Ha0), Ha0. reflexivity.
    + destruct (Hp ltac:(lia)) as [H1 Hb].
      assert ((0 <? nd) && (nd <=? 21) = true) as ->.
      { apply andb_true_intro. split; [apply Z.ltb_lt|apply Z.leb_le]; lia. }
      replace (Z.to_nat nd) with (length (digits (Z.to_N a))) by lia.
      by rewrite take_app_length, drop_app_length.
Qed.

(** X20.  Half hours are shown and stored as they were typed.  After an
    append of [h] halves of hours and a whole wage [b], with [h * b] below
    [2^53], the calendar has one more event, the last, whose title has the
    hours as they were typed, [<name> - 7.5hrs] for 15 halves, and whose
    income is [h * b / 2]; and the text of the entry for the storage has
    the hours as they were typed, the numeral of [b], and the income
    [h * b / 2] with [.5] after its whole part when [h * b] is odd. *)
Theorem half_hours_text (c : string) (h b now today : Z) (w : App.world) :
  0 <= h < 2 ^ 53 -> 0 <= b < 2 ^ 53 -> h * b < 2 ^ 53 ->
  let e := Ledger.eval (Ledger.append c (halves_text h) (pretty b) now today) w in
  let w' := Ledger.exec (Ledger.append c (halves_text h) (pretty b) now today) w in
  calendarEvents (App.hooks w')
  = calendarEvents (App.hooks w)
    ++ [{| CalendarEvent.title := c +:+ " - " +:+ halves_text h +:+ "hrs";
           CalendarEvent.date := toISOString_date today;
           CalendarEvent.extendedProps :=
             {| CalendarEvent.income := halves (h * b) |} |}]
  /\ JSON_stringify (TimeEntry.to_value e)
     = "{" +:+ QuoteJSONString "id" +:+ ":" +:+ QuoteJSONString (pretty now)
       +:+ "," +:+ QuoteJSONString "date" +:+ ":"
       +:+ QuoteJSONString (toISOString_date today)
       +:+ "," +:+ QuoteJSONString "companyName" +:+ ":" +:+ QuoteJSONString c
       +:+ "," +:+ QuoteJSONString "hours" +:+ ":" +:+ halves_text h
       +:+ "," +:+ QuoteJSONString "hourlyWage" +:+ ":" +:+ pretty b
       +:+ "," +:+ QuoteJSONString "totalIncome" +:+ ":" +:+ halves_text (h * b)
       +:+ "}".
Proof.
  intros Hh Hb Hhb e w'. subst e w'.
  assert (Hhb' : 0 <= h * b < 2 ^ 53) by nia.
  assert (Hhalf : forall n, 0 <= n < 2 ^ 53 ->
            SerializeJSONProperty (Num (halves n)) = halves_text n).
  { intros n Hn. cbn [SerializeJSONProperty].
    rewrite Number_toString_halves by done.
    destruct (Z.eq_dec n 0) as [->|Hn0]; [reflexivity|].
    by rewrite halves_dyadic by lia. }
  assert (Hnum : SerializeJSONProperty (Num (Number.of_Z b)) = pretty b).
  { cbn [SerializeJSONProperty].
    rewrite Number_toString_of_Z by done.
    destruct (Z.eq_dec b 0) as [->|Hb0]; [reflexivity|].
    by rewrite of_Z_integer by lia. }
  split.
  - unfold calendarEvents.
    change (App.entries (App.hooks (Ledger.exec
              (Ledger.append c (halves_text h) (pretty b) now today) w)))
      with (Ledger.eval Ledger.list (Ledger.exec
              (Ledger.append c (halves_text h) (pretty b) now today) w)).
    rewrite entries_append, map_app. f_equal. cbn [map].
    change (TimeEntry.hours (Ledger.eval
              (Ledger.append c (halves_text h) (pretty b) now today) w))
      with (parseFloat (halves_text h)).
    change (TimeEntry.totalIncome (Ledger.eval
              (Ledger.append c (halves_text h) (pretty b) now today) w))
      with (Number.mul (parseFloat (halves_text h)) (parseFloat (pretty b))).
    rewrite parseFloat_halves, parseFloat_pretty, mul_halves, Number_toString_halves
      by done.
    reflexivity.
  - unfold JSON_stringify.
    rewrite <- (app_empty_r (SerializeJSONProperty _)), entry_text.
    change (TimeEntry.hours (Ledger.eval
              (Ledger.append c (halves_text h) (pretty b) now today) w))
      with (parseFloat (halves_text h)).
    change (TimeEntry.hourlyWage (Ledger.eval
              (Ledger.append c (halves_text h) (pretty b) now today) w))
      with (parseFloat (pretty b)).
    change (TimeEntry.totalIncome (Ledger.eval
              (Ledger.append c (halves_text h) (pretty b) now today) w))
      with (Number.mul (parseFloat (halves_text h)) (parseFloat (pretty b))).
    rewrite parseFloat_halves, parseFloat_pretty, mul_halves by done.
    rewrite !Hhalf, Hnum by done.
    change (TimeEntry.id (Ledger.eval
              (Ledger.append c (halves_text h) (pretty b) now today) w))
      with (pretty now).
    change (TimeEntry.date (Ledger.eval
              (Ledger.append c (halves_text h) (pretty b) now today) w))
      with (toISOString_date today).
    change (TimeEntry.companyName (Ledger.eval
              (Ledger.append c (halves_text h) (pretty b) now today) w))
      with c.
    rewrite !app_String, !app_empty. reflexivity.
Qed.

Lemma half_hours_text_witness :
  map CalendarEvent.title
    (calendarEvents
       (App.hooks
          (Ledger.exec (Ledger.append "Acme" "7.5" "1001" 1700000000000 1700000000000)
             empty_ledger)))
  = ["Acme - 7.5hrs"].
Proof.
  destruct (half_hours_text "Acme" 15 1001 1700000000000 1700000000000
              empty_ledger) as [H _]; [lia..|].
  change (halves_text 15) with "7.5" in H. change (pretty 1001) with "1001" in H.
  rewrite H. reflexivity.
Defined.
